(** * real-time-rag: the update pipeline and the query pipeline

    A shallow embedding of the services under [app/services] and
    [app/models]: the chunker, the retry helper, the cache, the event
    processor and the query processor.  Python values decoded from JSON are
    a small inductive type, exceptions are values of a [result] type, and
    the stateful services thread an explicit world.  Library code the
    repository only calls (the text splitter, [uuid], [hashlib], [json],
    pydantic, the clock, the Qdrant and OpenAI clients) enters through the
    classes [Library] and [Backend].

    The first part holds the model, the second part the properties. *)

From Stdlib Require Import ZArith Floats DecimalString Ascii.
From stdpp Require Import gmap strings list.

Set Warnings "-inexact-float,-register-all".
Open Scope Z_scope.

(** * Part I: the model *)

(** ** Python values *)

Module Py.

(** What [json.loads] produces: [None], [bool], [int], [float], [str],
    [list] and [dict].  A dictionary is the list of its items in insertion
    order; its keys are strings and occur once each. *)
Inductive json : Type :=
  | JNull
  | JBool (b : bool)
  | JInt (z : Z)
  | JFloat (f : float)
  | JStr (s : string)
  | JArr (items : list json)
  | JObj (fields : list (string * json)).

Abbreviation pydict := (list (string * json)).

(** Truth value testing: [None], [False], zero, and empty strings and
    containers are false. *)
Definition truthy (v : json) : bool :=
  match v with
  | JNull => false
  | JBool b => b
  | JInt z => negb (z =? 0)
  | JFloat f => negb (PrimFloat.eqb f 0%float)
  | JStr s => negb (String.eqb s "")
  | JArr items => negb (bool_decide (items = []))
  | JObj fields => negb (bool_decide (fields = []))
  end.

(** [x or y] on optional values ([None] stands for Python's [None]). *)
Definition truthy_opt (o : option json) : bool :=
  match o with
  | Some v => truthy v
  | None => false
  end.

(** [d.get(k)]: the value bound to [k], [None] when the key is absent. *)
Fixpoint dict_get (k : string) (d : pydict) : option json :=
  match d with
  | [] => None
  | (k', v) :: rest => if String.eqb k' k then Some v else dict_get k rest
  end.

(** [d.get(k, default)]. *)
Definition dict_get_default (k : string) (default : json) (d : pydict) : json :=
  match dict_get k d with
  | Some v => v
  | None => default
  end.

(** [k in d]. *)
Definition dict_contains (k : string) (d : pydict) : bool :=
  match dict_get k d with
  | Some _ => true
  | None => false
  end.

(** [{k: v for k, v in d.items() if keep(k)}]: the comprehension visits the
    items in order and stores each one that passes. *)
Fixpoint dict_comprehension (keep : string → bool) (d : pydict) (acc : pydict)
  : pydict :=
  match d with
  | [] => acc
  | (k, v) :: rest =>
      dict_comprehension keep rest (if keep k then acc ++ [(k, v)] else acc)
  end.

(** [[x for x in xs if keep(x)]]. *)
Fixpoint list_comprehension {A} (keep : A → bool) (xs acc : list A) : list A :=
  match xs with
  | [] => acc
  | x :: rest =>
      list_comprehension keep rest (if keep x then acc ++ [x] else acc)
  end.

(** [str(i)] of a non-negative [int] and of an [int]. *)
Definition str_of_nat (n : nat) : string :=
  NilZero.string_of_uint (Nat.to_uint n).

Definition str_of_int (z : Z) : string :=
  if z <? 0 then "-" +:+ str_of_nat (Z.to_nat (- z))
  else str_of_nat (Z.to_nat z).

(** A Python [str] is a sequence of code points; the model holds its
    UTF-8 encoding, one byte per character of the Rocq string.  A byte
    begins a code point unless it is a continuation byte [10xxxxxx]. *)
Definition is_continuation_byte (c : ascii) : bool :=
  match c with
  | Ascii _ _ _ _ _ _ b6 b7 => b7 && negb b6
  end.

(** [len(s)]: the number of code points. *)
Fixpoint str_len (s : string) : nat :=
  match s with
  | EmptyString => 0
  | String c rest =>
      if is_continuation_byte c then str_len rest else S (str_len rest)
  end.

(** The first [n] code points of [s], each with its continuation bytes. *)
Fixpoint take_code_points (n : nat) (s : string) : string :=
  match s with
  | EmptyString => EmptyString
  | String c rest =>
      if is_continuation_byte c then String c (take_code_points n rest)
      else match n with
           | O => EmptyString
           | S n' => String c (take_code_points n' rest)
           end
  end.

(** [s[:n]]: the first [n] code points, counted from the end when [n] is
    negative. *)
Definition slice_to (s : string) (n : Z) : string :=
  if n <? 0
  then take_code_points (str_len s - Z.to_nat (- n)) s
  else take_code_points (Z.to_nat n) s.

(** [sep.join(parts)]. *)
Fixpoint join (sep : string) (parts : list string) : string :=
  match parts with
  | [] => ""
  | [p] => p
  | p :: rest => p +:+ sep +:+ join sep rest
  end.

(** [range(n)]. *)
Definition range (n : Z) : list Z :=
  Z.of_nat <$> seq 0 (Z.to_nat n).

(** [sources[start:stop]] on a list, with Python's treatment of negative
    and out-of-range bounds. *)
Definition clamp_index (len i : Z) : Z :=
  if i <? 0 then Z.max 0 (len + i) else Z.min i len.

Definition py_slice {A} (l : list A) (start stop : Z) : list A :=
  let len := Z.of_nat (length l) in
  let lo := clamp_index len start in
  let hi := clamp_index len stop in
  take (Z.to_nat (hi - lo)) (drop (Z.to_nat lo) l).

(** Exception classes: the application's own ([app/core/exceptions.py]),
    each a direct subclass of [Exception], and the built-in ones the
    modelled paths can raise. *)
Inductive exn_class : Type :=
  | ExceptionC
  | VectorDBError
  | EmbeddingError
  | LLMError
  | CacheError
  | KafkaError
  | DLQError
  | DatabaseError
  | ValidationError
  | ValueError
  | TypeError
  | AttributeError
  | ZeroDivisionError
  | IndexError
  | ConnectionError
  | JSONDecodeError
  | UnboundLocalError
  | OverflowError
  | RecursionError.

Global Instance exn_class_eq_dec : EqDecision exn_class.
Proof. solve_decision. Defined.

Record exn : Type := mk_exn { exn_cls : exn_class; exn_msg : string }.

(** [issubclass(c, parent)]; pydantic's [ValidationError] and
    [json.JSONDecodeError] derive from [ValueError], everything derives from
    [Exception]. *)
Definition issubclass (c parent : exn_class) : bool :=
  bool_decide (c = parent)
  || bool_decide (parent = ExceptionC)
  || ((bool_decide (c = ValidationError) || bool_decide (c = JSONDecodeError))
      && bool_decide (parent = ValueError)).

(** [isinstance(e, classes)] for a tuple of classes, as an [except] clause
    tests it. *)
Definition isinstance (e : exn) (classes : list exn_class) : bool :=
  existsb (issubclass (exn_cls e)) classes.

(** The outcome of a call: a value, or a raised exception. *)
Inductive result (A : Type) : Type :=
  | Ok (a : A)
  | Raise (e : exn).
Global Arguments Ok {A} a.
Global Arguments Raise {A} e.

Definition is_raise {A} (r : result A) : bool :=
  match r with Raise _ => true | Ok _ => false end.

(** Log records: level and message. *)
Inductive level : Type := INFO | WARNING | ERROR.

End Py.
Import Py.

(** ** A state and exception monad *)

(** A computation over a world [W]: it returns a value or raises, and
    leaves a new world either way. *)
Definition M (W A : Type) : Type := W → result A * W.

Definition ret {W A} (a : A) : M W A := λ w, (Ok a, w).

Definition raise {W A} (e : exn) : M W A := λ w, (Raise e, w).

Definition bind {W A B} (c : M W A) (k : A → M W B) : M W B :=
  λ w, match c w with
       | (Ok a, w') => k a w'
       | (Raise e, w') => (Raise e, w')
       end.

(** [try: c  except classes as e: handler(e)]. *)
Definition try_except {W A} (c : M W A) (classes : list exn_class)
    (handler : exn → M W A) : M W A :=
  λ w, match c w with
       | (Ok a, w') => (Ok a, w')
       | (Raise e, w') =>
           if isinstance e classes then handler e w' else (Raise e, w')
       end.

(** A state change that cannot raise. *)
Definition modify {W} (f : W → W) : M W unit := λ w, (Ok (), f w).

Notation "'let!' x ':=' c 'in' k" := (bind c (λ x, k))
  (at level 10, x binder, c at level 100, k at level 200).

(** ** Data carried between the services *)

(** A chunk dictionary [{id, content, chunk_index, document_id}]. *)
Record Chunk : Type := mk_chunk {
  chunk_id : string;
  chunk_content : string;
  chunk_index : nat;
  chunk_document_id : string;
}.

(** A Qdrant [PointStruct] as [upsert_chunks] builds it. *)
Record PointStruct : Type := mk_point {
  point_id : string;
  point_vector : list float;
  payload_document_id : string;
  payload_content : string;
  payload_chunk_index : nat;
  payload_version : json;
}.

(** A scored point returned by Qdrant.  The payload keys are optional; the
    values have the types [upsert_chunks] writes. *)
Record ScoredPoint : Type := mk_scored {
  sp_id : string;
  sp_score : float;
  sp_content : option string;
  sp_document_id : option string;
  sp_version : option json;
}.

(** A match dictionary [{id, content, document_id, score, version}]. *)
Record Match : Type := mk_match {
  m_id : string;
  m_content : string;
  m_document_id : option string;
  m_score : float;
  m_version : json;
}.

(** [StructuredAnswer] ([app/models/response.py]). *)
Record StructuredAnswer : Type := mk_answer {
  answer : string;
  confidence : float;
  citations : list string;
  is_complete : bool;
}.

(** An annotated source [{document_id, score, version, cited}]. *)
Record Source : Type := mk_source {
  src_document_id : option string;
  src_score : float;
  src_version : json;
  src_cited : bool;
}.

(** The pagination metadata dictionary. *)
Record Pagination : Type := mk_pagination {
  pg_page : Z;
  pg_page_size : Z;
  pg_total : Z;
  pg_total_pages : Z;
  pg_has_next : bool;
  pg_has_prev : bool;
}.

(** [DocumentEvent] ([app/models/event.py]). *)
Record DocumentEvent : Type := mk_event {
  op : string;
  before : option pydict;
  after : option pydict;
  source : option pydict;
  ts_ms : option Z;
}.

(** ** Library code and remote services *)

(** Pure library functions the repository calls. *)
Class Library : Type := {
  (** [RecursiveCharacterTextSplitter(...).split_text] *)
  split_text : string → list string;
  (** [str(uuid.uuid5(namespace, name))], the namespace as its canonical
      string *)
  uuid5 : string → string → string;
  (** [str(uuid.UUID(s))]; [None] when the constructor raises [ValueError] *)
  uuid_parse : string → option string;
  (** [hashlib.md5(s.encode()).hexdigest()] *)
  md5_hexdigest : string → string;
  (** [json.dumps] *)
  json_dumps : json → string;
  (** [json.loads]; it raises [JSONDecodeError] on text that is not JSON
      and can raise other exceptions ([RecursionError] on deeply nested
      text) *)
  json_loads : string → result json;
  (** pydantic's validation of an [int] field; [None] when it fails *)
  validate_int : json → option Z;
  (** the [StructuredAnswer] constructor applied to the decoded object,
      with the exception it raises ([TypeError] when the value is no
      mapping, pydantic's [ValidationError]) *)
  validate_structured_answer : json → result StructuredAnswer;
  (** [str(x)] for a float, a list or a dictionary *)
  py_repr : json → string;
  (** [x ** n] for a float and an integer, as the platform's [pow]
      computes it; an [OverflowError] when the result is out of range *)
  float_pow : float → Z → result float;
}.

(** The clock, the event loop and the remote services, acting on a state
    [S] of their own. *)
Class Backend (S : Type) : Type := {
  (** [int(time.time() * 1000)] *)
  time_ms : S → Z;
  (** [time.time()] *)
  time_time : S → float;
  (** [await asyncio.sleep(seconds)] *)
  asyncio_sleep : float → M S unit;
  (** [client.embeddings.create(...)], reduced to the embeddings of
      [response.data] *)
  embeddings_create : list string → M S (list (list float));
  (** [AsyncQdrantClient.upsert] *)
  qdrant_upsert : list PointStruct → M S unit;
  (** [AsyncQdrantClient.delete] with a filter on the payload's
      [document_id] *)
  qdrant_delete : string → M S unit;
  (** [AsyncQdrantClient.query_points] with the limit and the optional
      lower bound on the payload's [version], reduced to [results.points] *)
  qdrant_query_points : list float → Z → option Z → M S (list ScoredPoint);
  (** [client.chat.completions.create(...)] for the prompt built from the
      query, the context and the document identifiers, reduced to
      [response.choices[0].message.content] *)
  chat_completions_create :
    string → string → list string → M S (option string);
  (** [update_processing_duration.observe(time.time() - start_time)] *)
  observe_processing_duration : S → S;
  (** [event.get_timestamp().timestamp()], the lag computed from it,
      [update_lag_seconds.observe(lag)] and [add_update_lag_sample(lag)];
      the conversion of the timestamp can raise *)
  observe_lag : option Z → M S unit;
  (** [update_pipeline_activity(stage_latencies, document_id)] inside its
      [try ... except Exception: pass] *)
  track_pipeline_activity : string → S → S;
}.

(** [str(x)] of a decoded JSON value. *)
Definition py_str {lib : Library} (v : json) : string :=
  match v with
  | JNull => "None"
  | JBool true => "True"
  | JBool false => "False"
  | JInt z => str_of_int z
  | JStr s => s
  | _ => py_repr v
  end.

(** ** Configuration ([app/core/config.py]) *)

(** The settings the modelled code reads.  Durations are seconds, as
    binary64 floats. *)
Record Settings : Type := mk_settings {
  kafka_topic_documents : string;
  cache_ttl : Z;
  max_retries : Z;
  retry_delay_seconds : float;
  retry_backoff_multiplier : float;
  dlq_topic : string;
  dlq_enabled : bool;
}.

Definition default_settings : Settings :=
  {| kafka_topic_documents := "documents.public.documents";
     cache_ttl := 3600;
     max_retries := 3;
     retry_delay_seconds := 1%float;
     retry_backoff_multiplier := 2%float;
     dlq_topic := "documents.dlq";
     dlq_enabled := true |}.

(** ** The world of a service process *)

(** The Redis server behind [CacheService.client]: key to value and time to
    live.  When [redis_reachable] is false every command raises.  Expiry is
    not modelled. *)
Record Redis : Type := mk_redis {
  redis_store : gmap string (string * Z);
  redis_reachable : bool;
}.

(** The envelope [send_failed_event] writes to the dead-letter topic. *)
Record DLQMessage : Type := mk_dlq_message {
  dlq_original_event : pydict;
  dlq_error : string;
  dlq_original_topic : string;
  dlq_offset : option Z;
  dlq_partition : option Z;
  dlq_timestamp : float;
}.

(** The Kafka producer behind [DLQService.producer]: the messages sent so
    far, each with its topic.  When [producer_reachable] is false
    [send_and_wait] raises. *)
Record Producer : Type := mk_producer {
  producer_sent : list (string * DLQMessage);
  producer_reachable : bool;
}.

(** The process state: the two counters of [app/monitoring/metrics.py] the
    update path touches, the cache client ([None] before [connect]), whether
    the vector store client is set, the producer of the dead-letter sink
    ([None] before [connect]), the log, and the state of the backend. *)
Record World (S : Type) : Type := mk_world {
  updates_total : Z;
  update_errors_total : Z;
  cache_client : option Redis;
  vector_client : bool;
  dlq_producer : option Producer;
  logs : list (level * string);
  backend : S;
}.
Arguments mk_world {S}.
Arguments updates_total {S}.
Arguments update_errors_total {S}.
Arguments cache_client {S}.
Arguments vector_client {S}.
Arguments dlq_producer {S}.
Arguments logs {S}.
Arguments backend {S}.

Definition set_updates_total {S} (v : Z) (w : World S) : World S :=
  mk_world v (update_errors_total w) (cache_client w) (vector_client w)
    (dlq_producer w) (logs w) (backend w).

Definition set_update_errors_total {S} (v : Z) (w : World S) : World S :=
  mk_world (updates_total w) v (cache_client w) (vector_client w)
    (dlq_producer w) (logs w) (backend w).

Definition set_cache_client {S} (c : option Redis) (w : World S) : World S :=
  mk_world (updates_total w) (update_errors_total w) c (vector_client w)
    (dlq_producer w) (logs w) (backend w).

Definition set_dlq_producer {S} (p : option Producer) (w : World S)
  : World S :=
  mk_world (updates_total w) (update_errors_total w) (cache_client w)
    (vector_client w) p (logs w) (backend w).

Definition set_logs {S} (l : list (level * string)) (w : World S) : World S :=
  mk_world (updates_total w) (update_errors_total w) (cache_client w)
    (vector_client w) (dlq_producer w) l (backend w).

Definition set_backend {S} (s : S) (w : World S) : World S :=
  mk_world (updates_total w) (update_errors_total w) (cache_client w)
    (vector_client w) (dlq_producer w) (logs w) s.

(** [Counter.inc()]. *)
Definition inc_updates_total {S} : M (World S) unit :=
  modify (λ w, set_updates_total (updates_total w + 1) w).

Definition inc_update_errors_total {S} : M (World S) unit :=
  modify (λ w, set_update_errors_total (update_errors_total w + 1) w).

(** [logger.info], [logger.warning], [logger.error]. *)
Definition logger {S} (lvl : level) (message : string) : M (World S) unit :=
  modify (λ w, set_logs (logs w ++ [(lvl, message)]) w).

(** A call into the backend. *)
Definition call {S A} (c : M S A) : M (World S) A :=
  λ w, let '(r, s) := c (backend w) in (r, set_backend s w).

(** ** The chunker ([app/services/chunking.py]) *)

Module ChunkingService.
Section Defs.
Context {lib : Library}.

Definition NIL_NAMESPACE : string := "00000000-0000-0000-0000-000000000000".

Definition _generate_chunk_uuid (document_id : string) (chunk_index : nat)
  : string :=
  let namespace := NIL_NAMESPACE in
  let name := document_id +:+ ":" +:+ str_of_nat chunk_index in
  uuid5 namespace name.

(** The loop over [enumerate(chunks)], appending one dictionary per chunk. *)
Fixpoint chunk_loop (document_id : string) (idx : nat) (chunks : list string)
    (chunk_objects : list Chunk) : list Chunk :=
  match chunks with
  | [] => chunk_objects
  | chunk_text :: rest =>
      let chunk_id := _generate_chunk_uuid document_id idx in
      chunk_loop document_id (S idx) rest
        (chunk_objects ++ [mk_chunk chunk_id chunk_text idx document_id])
  end.

Definition chunk_document (content document_id : string) : list Chunk :=
  let chunks := split_text content in
  chunk_loop document_id 0 chunks [].

End Defs.
End ChunkingService.

(** ** The retry helper ([app/services/retry.py]) *)

(** What the helper needs from where it runs: [asyncio.sleep], the module
    logger, and the power [x ** n] as the platform computes it. *)
Class Runtime (St : Type) : Type := {
  sleep : float → M St unit;
  log : level → string → St → St;
  power : float → Z → result float;
}.

Global Instance world_runtime {S} {lib : Library} {be : Backend S}
  : Runtime (World S) := {|
  sleep := λ seconds, call (asyncio_sleep seconds);
  log := λ lvl message w, set_logs (logs w ++ [(lvl, message)]) w;
  power := float_pow;
|}.

(** [x or default] for an optional [int] and an optional [float]: [None]
    and zero both select the default. *)
Definition or_int (x : option Z) (default : Z) : Z :=
  match x with
  | Some v => if v =? 0 then default else v
  | None => default
  end.

Definition or_float (x : option float) (default : float) : float :=
  match x with
  | Some v => if PrimFloat.eqb v 0%float then default else v
  | None => default
  end.

(** [raise last_exception]: raising [None] is a [TypeError]. *)
Definition raise_last {T} (last_exception : option exn) : result T :=
  match last_exception with
  | Some e => Raise e
  | None => Raise (mk_exn TypeError "exceptions must derive from BaseException")
  end.

Section Retry.
Context {St : Type} {rt : Runtime St} {T : Type}.
Variable settings : Settings.

(** One pass of [for attempt in range(max_retries + 1)] per element of
    [attempts].  The two branches on [asyncio.iscoroutinefunction] both call
    [func] once.  The wait is computed in binary64, the power first; an
    exception of the power or of the sleep is raised inside the [except]
    block and leaves the function.  The log messages leave out the
    formatted wait time. *)
Fixpoint retry_loop (func : M St T) (max_retries : Z)
    (delay backoff_multiplier : float) (exceptions : list exn_class)
    (attempts : list Z) (last_exception : option exn) (st : St)
  : result T * St :=
  match attempts with
  | [] => (raise_last last_exception, st)
  | attempt :: rest =>
      match func st with
      | (Ok v, st) => (Ok v, st)
      | (Raise e, st) =>
          if isinstance e exceptions then
            if attempt <? max_retries then
              match power backoff_multiplier attempt with
              | Raise error => (Raise error, st)
              | Ok factor =>
                  let wait_time := (delay * factor)%float in
                  let st :=
                    log WARNING
                      ("Attempt " +:+ str_of_int (attempt + 1) +:+ "/"
                       +:+ str_of_int (max_retries + 1) +:+ " failed: "
                       +:+ exn_msg e) st in
                  match sleep wait_time st with
                  | (Ok _, st) =>
                      retry_loop func max_retries delay backoff_multiplier
                        exceptions rest (Some e) st
                  | (Raise error, st) => (Raise error, st)
                  end
              end
            else
              let st :=
                log ERROR
                  ("All " +:+ str_of_int (max_retries + 1)
                   +:+ " attempts failed. Last error: " +:+ exn_msg e) st in
              retry_loop func max_retries delay backoff_multiplier exceptions
                rest (Some e) st
          else (Raise e, st)
      end
  end.

Definition retry_with_backoff (func : M St T)
    (max_retries_arg : option Z)
    (delay_arg backoff_multiplier_arg : option float)
    (exceptions : list exn_class) : M St T :=
  λ st,
  let max_retries := or_int max_retries_arg settings.(max_retries) in
  let delay := or_float delay_arg settings.(retry_delay_seconds) in
  let backoff_multiplier :=
    or_float backoff_multiplier_arg settings.(retry_backoff_multiplier) in
  retry_loop func max_retries delay backoff_multiplier exceptions
    (range (max_retries + 1)) None st.

End Retry.

(** A stand-in for the platform's [x ** n] with [n >= 0]: the product of
    [n] factors [x], and an [OverflowError] when the product of finite
    factors is infinite.  It is what [pow] returns wherever the products
    are exact, as for the small powers of two. *)
Fixpoint product (x : float) (n : nat) : float :=
  match n with
  | O => 1%float
  | S n' => (x * product x n')%float
  end.

Definition is_infinite (x : float) : bool :=
  PrimFloat.eqb (PrimFloat.abs x) infinity.

Definition product_power (x : float) (n : Z) : result float :=
  let p := product x (Z.to_nat n) in
  if is_infinite p && negb (is_infinite x)
  then Raise (mk_exn OverflowError "(34, 'Numerical result out of range')")
  else Ok p.

(** A probe for the helper: the operation's outcome is a function of how
    many times it has been invoked before; the state records the number of
    invocations and the waits, in order.  The probe's sleep returns at once;
    its power is a parameter. *)
Record Probe : Type := mk_probe {
  invocations : nat;
  sleeps : list float;
}.

Definition probe_runtime_with (power : float → Z → result float)
  : Runtime Probe := {|
  sleep := λ seconds p,
    (Ok (), mk_probe (invocations p) (sleeps p ++ [seconds]));
  log := λ _ _ p, p;
  power := power;
|}.

Global Instance probe_runtime : Runtime Probe :=
  probe_runtime_with product_power.

Definition scripted {T} (outcome : nat → result T) : M Probe T :=
  λ p, (outcome (invocations p), mk_probe (S (invocations p)) (sleeps p)).

(** The wait after the failed attempt [attempt], when the power can be
    computed. *)
Definition wait_time (power : float → Z → result float)
    (delay multiplier : float) (attempt : nat) : option float :=
  match power multiplier (Z.of_nat attempt) with
  | Ok factor => Some (delay * factor)%float
  | Raise _ => None
  end.

(** ** The cache ([app/services/cache.py]) *)

Module CacheService.
Section Defs.
Context {S : Type}.
Context {lib : Library}.
Variable settings : Settings.

(** [self.ttl = settings.cache_ttl]. *)
Definition ttl : Z := settings.(cache_ttl).

(** The Redis commands [GET], [SETEX] and [DEL]: each raises when the
    server cannot be reached; [SETEX] rejects a time to live that is not
    positive. *)
Definition redis_get (key : string) (r : Redis) : result (option string) :=
  if redis_reachable r
  then Ok (fst <$> redis_store r !! key)
  else Raise (mk_exn ConnectionError "Error connecting to Redis").

Definition redis_setex (key : string) (seconds : Z) (value : string)
    (r : Redis) : result Redis :=
  if negb (redis_reachable r)
  then Raise (mk_exn ConnectionError "Error connecting to Redis")
  else if seconds <=? 0
  then Raise (mk_exn ExceptionC "invalid expire time in 'setex' command")
  else Ok (mk_redis (<[key := (value, seconds)]> (redis_store r))
                    (redis_reachable r)).

Definition redis_delete (key : string) (r : Redis) : result Redis :=
  if redis_reachable r
  then Ok (mk_redis (base.delete key (redis_store r)) (redis_reachable r))
  else Raise (mk_exn ConnectionError "Error connecting to Redis").

Definition get (key : string) : M (World S) (option string) :=
  λ w,
  match cache_client w with
  | None => (Ok None, w)
  | Some client =>
      match redis_get key client with
      | Ok v => (Ok v, w)
      | Raise _ => (Ok None, w)
      end
  end.

Definition set (key value : string) (ttl_arg : option Z)
  : M (World S) unit :=
  λ w,
  match cache_client w with
  | None => (Ok (), w)
  | Some client =>
      match redis_setex key (or_int ttl_arg ttl) value client with
      | Ok client' => (Ok (), set_cache_client (Some client') w)
      | Raise e =>
          (Raise (mk_exn CacheError ("Failed to set cache: " +:+ exn_msg e)),
           w)
      end
  end.

(** Of the exceptions of [json.loads] only [JSONDecodeError] is caught. *)
Definition get_json (key : string) : M (World S) (option json) :=
  let! value := get key in
  match value with
  | Some value =>
      if negb (String.eqb value "") then
        match json_loads value with
        | Ok decoded => ret (Some decoded)
        | Raise e =>
            if isinstance e [JSONDecodeError] then ret None else raise e
        end
      else ret None
  | None => ret None
  end.

Definition set_json (key : string) (value : json) (ttl_arg : option Z)
  : M (World S) unit :=
  set key (json_dumps value) ttl_arg.

Definition delete (key : string) : M (World S) unit :=
  λ w,
  match cache_client w with
  | None => (Ok (), w)
  | Some client =>
      match redis_delete key client with
      | Ok client' => (Ok (), set_cache_client (Some client') w)
      | Raise _ => (Ok (), w)
      end
  end.

End Defs.
End CacheService.

(** ** The vector store client ([app/services/vector_db.py]) *)

Module VectorDBService.
Section Defs.
Context {S : Type} {be : Backend S}.

Definition require_client : M (World S) unit :=
  λ w, if vector_client w then (Ok (), w)
       else (Raise (mk_exn VectorDBError "Client not connected"), w).

Definition upsert_chunks (chunks : list Chunk) (embeddings : list (list float))
    (document_id : string) (version : json) : M (World S) unit :=
  let! _ := require_client in
  if negb (length chunks =? length embeddings)%nat then
    raise (mk_exn VectorDBError
             "Chunks and embeddings must have the same length")
  else
    let points :=
      zip_with
        (λ chunk embedding,
           mk_point (chunk_id chunk) embedding document_id
                    (chunk_content chunk) (chunk_index chunk) version)
        chunks embeddings in
    call (qdrant_upsert points).

Definition delete_document_chunks (document_id : string) : M (World S) unit :=
  let! _ := require_client in
  call (qdrant_delete document_id).

Definition match_of_point (point : ScoredPoint) : Match :=
  mk_match (sp_id point)
           (default "" (sp_content point))
           (sp_document_id point)
           (sp_score point)
           (default (JInt 1) (sp_version point)).

Definition search (query_embedding : list float) (top_k : Z)
    (min_version : option Z) : M (World S) (list Match) :=
  let! _ := require_client in
  let! points := call (qdrant_query_points query_embedding top_k min_version) in
  ret (match_of_point <$> points).

End Defs.
End VectorDBService.

(** ** The embedding client ([app/services/embedding.py]) *)

Module EmbeddingService.
Section Defs.
Context {S : Type} {be : Backend S}.

Definition generate_embeddings (texts : list string)
  : M (World S) (list (list float)) :=
  try_except (call (embeddings_create texts)) [ExceptionC]
    (λ e, raise (mk_exn EmbeddingError
                   ("Failed to generate embeddings: " +:+ exn_msg e))).

Definition generate_embedding (text : string) : M (World S) (list float) :=
  let! embeddings := generate_embeddings [text] in
  match embeddings with
  | first :: _ => ret first
  | [] => raise (mk_exn IndexError "list index out of range")
  end.

End Defs.
End EmbeddingService.

(** ** The LLM client ([app/services/llm.py]) *)

Module LLMService.
Section Defs.
Context {S : Type} {lib : Library} {be : Backend S}.

(** The statements of the [try] block after the provider call, which has
    bound [content]. *)
Definition parse_completion (content : option string)
  : result StructuredAnswer :=
  match content with
  | None => Raise (mk_exn LLMError "Empty response from LLM")
  | Some text =>
      if String.eqb text "" then
        Raise (mk_exn LLMError "Empty response from LLM")
      else
        match json_loads text with
        | Raise e => Raise e
        | Ok data => validate_structured_answer data
        end
  end.

(** The three [except] clauses, tried in order on an exception of the
    [try] block.  [content] is [None] when the exception came before the
    assignment to [content], that is from the provider call: the first
    clause reads the variable, and reading it unbound raises an
    [UnboundLocalError] that leaves the function. *)
Definition except_clauses (content : option (option string)) (e : exn)
  : result StructuredAnswer :=
  if isinstance e [JSONDecodeError] then
    match content with
    | None =>
        Raise (mk_exn UnboundLocalError
                 "cannot access local variable 'content' where it is not associated with a value")
    | Some None =>
        Raise (mk_exn TypeError "'NoneType' object is not subscriptable")
    | Some (Some text) =>
        Raise (mk_exn LLMError
                 ("Failed to parse LLM response as JSON: " +:+ exn_msg e
                  +:+ ". Content: " +:+ slice_to text 200))
    end
  else if isinstance e [TypeError; ValueError] then
    Raise (mk_exn LLMError ("Failed to process LLM response: " +:+ exn_msg e))
  else if isinstance e [LLMError] then Raise e
  else
    Raise (mk_exn LLMError ("Failed to generate response: " +:+ exn_msg e)).

Definition generate_response (query context : string)
    (document_ids : list string) : M (World S) StructuredAnswer :=
  λ w,
  match call (chat_completions_create query context document_ids) w with
  | (Raise e, w) => (except_clauses None e, w)
  | (Ok content, w) =>
      match parse_completion content with
      | Ok structured => (Ok structured, w)
      | Raise e => (except_clauses (Some content) e, w)
      end
  end.

End Defs.
End LLMService.

(** ** The event model ([app/models/event.py]) *)

(** [a or b] on optional dictionaries: [a] when it is neither [None] nor
    empty. *)
Definition dict_or (a b : option pydict) : option pydict :=
  match a with
  | Some (_ :: _) => a
  | _ => b
  end.

(** [UUID(x)], kept as the canonical string [str] gives back. *)
Definition UUID {lib : Library} (x : json) : result string :=
  match x with
  | JStr s =>
      match uuid_parse s with
      | Some u => Ok u
      | None => Raise (mk_exn ValueError "badly formed hexadecimal UUID string")
      end
  | JNull =>
      Raise (mk_exn TypeError
               "one of the hex, bytes, bytes_le, fields, or int arguments must be given")
  | _ => Raise (mk_exn AttributeError "object has no attribute 'replace'")
  end.

Definition get_document_id {lib : Library} (event : DocumentEvent)
  : result (option string) :=
  let data := dict_or (after event) (before event) in
  match data with
  | Some ((_ :: _) as data) =>
      match dict_get "id" data with
      | Some id =>
          match UUID id with
          | Ok u => Ok (Some u)
          | Raise e => Raise e
          end
      | None => Ok None
      end
  | _ => Ok None
  end.

(** ** The event processor ([app/services/event_processor.py]) *)

(** [v == s] for a decoded value and a string literal. *)
Definition json_eq_str (v : json) (s : string) : bool :=
  match v with
  | JStr s' => String.eqb s' s
  | _ => false
  end.

Definition opt_json_eq_str (o : option json) (s : string) : bool :=
  match o with
  | Some v => json_eq_str v s
  | None => false
  end.

(** [k.startswith("__")]. *)
Definition is_meta_key (k : string) : bool := String.prefix "__" k.

Module EventProcessor.
Section Defs.
Context {S : Type} {lib : Library} {be : Backend S}.
Variable settings : Settings.

(** The operation of an event: [event_data.get("__op") or
    event_data.get("op", "c")], overridden by ["d"] when
    [event_data.get("__deleted") == "true"]. *)
Definition event_op (event_data : pydict) : json :=
  let op :=
    if truthy_opt (dict_get "__op" event_data)
    then default JNull (dict_get "__op" event_data)
    else dict_get_default "op" (JStr "c") event_data in
  if opt_json_eq_str (dict_get "__deleted" event_data) "true"
  then JStr "d"
  else op.

(** [event_data.get("__source_ts_ms") or event_data.get("ts_ms")]. *)
Definition event_ts_ms (event_data : pydict) : option json :=
  if truthy_opt (dict_get "__source_ts_ms" event_data)
  then dict_get "__source_ts_ms" event_data
  else dict_get "ts_ms" event_data.

(** The [DocumentEvent(...)] constructor call: pydantic validates [op] as a
    string and [ts_ms] as an integer. *)
Definition make_event (op_value : json) (before_data after_data : option pydict)
    (ts_value : json) : result DocumentEvent :=
  match op_value, validate_int ts_value with
  | JStr op_str, Some ts =>
      Ok (mk_event op_str before_data after_data (Some []) (Some ts))
  | _, _ =>
      Raise (mk_exn ValidationError "validation error for DocumentEvent")
  end.

Definition _parse_event (event_data : pydict)
  : M (World S) (option DocumentEvent) :=
  let op_value := event_op event_data in
  let ts_ms := event_ts_ms event_data in
  let filtered_data :=
    dict_comprehension (λ k, negb (is_meta_key k)) event_data [] in
  match filtered_data with
  | [] =>
      let! _ := logger WARNING "Event data is empty after filtering, skipping" in
      ret None
  | _ :: _ =>
      let '(before_data, after_data) :=
        if json_eq_str op_value "d"
        then (Some filtered_data, None)
        else (None, Some filtered_data) in
      λ w,
      let ts_value :=
        if truthy_opt ts_ms then default JNull ts_ms
        else JInt (time_ms (backend w)) in
      match make_event op_value before_data after_data ts_value with
      | Ok event => (Ok (Some event), w)
      | Raise e => (Raise e, w)
      end
  end.

Definition _handle_delete (event : DocumentEvent) : M (World S) unit :=
  match get_document_id event with
  | Raise e => raise e
  | Ok None => logger WARNING "Delete event missing document ID"
  | Ok (Some document_id) =>
      try_except
        (let! _ := VectorDBService.delete_document_chunks document_id in
         logger INFO ("Deleted chunks for document " +:+ document_id))
        [VectorDBError]
        (λ e, let! _ := logger ERROR
                          ("Failed to delete chunks: " +:+ exn_msg e) in
              raise e)
  end.

(** The body of the [try] block of [_handle_create_or_update].  The
    splitter takes text only: any other content makes it raise a
    [TypeError]. *)
Definition create_or_update_body (event : DocumentEvent)
    (document_id content version : json) : M (World S) unit :=
  let! chunks :=
    match content with
    | JStr text =>
        ret (ChunkingService.chunk_document text (py_str document_id))
    | _ => raise (mk_exn TypeError "expected string or bytes-like object")
    end in
  match chunks with
  | [] =>
      logger WARNING
        ("No chunks generated for document " +:+ py_str document_id)
  | _ :: _ =>
      let texts := chunk_content <$> chunks in
      let generate_embeddings :=
        EmbeddingService.generate_embeddings texts in
      let! embeddings :=
        retry_with_backoff settings generate_embeddings None None None
          [ExceptionC] in
      let upsert_chunks :=
        VectorDBService.upsert_chunks chunks embeddings (py_str document_id)
          version in
      let! _ :=
        retry_with_backoff settings upsert_chunks None None None
          [VectorDBError] in
      let! _ := call (modify observe_processing_duration) in
      let! _ := call (observe_lag (ts_ms event)) in
      let! _ :=
        call (modify (track_pipeline_activity (py_str document_id))) in
      let! _ := CacheService.delete ("query:" +:+ py_str document_id) in
      logger INFO ("Updated document " +:+ py_str document_id)
  end.

Definition _handle_create_or_update (event : DocumentEvent)
  : M (World S) unit :=
  match after event with
  | None | Some [] => logger WARNING "Create/update event missing 'after' data"
  | Some ((_ :: _) as after_data) =>
      let document_id := dict_get "id" after_data in
      let content := dict_get_default "content" (JStr "") after_data in
      let version := dict_get_default "version" (JInt 1) after_data in
      if negb (truthy_opt document_id) || negb (truthy content) then
        logger WARNING "Event missing required fields"
      else
        try_except
          (create_or_update_body event (default JNull document_id) content
             version)
          [ExceptionC]
          (λ e, let! _ := logger ERROR
                            ("Failed to process create/update: " +:+ exn_msg e) in
                raise e)
  end.

Definition process_event (event_data : pydict) : M (World S) unit :=
  try_except
    (let! event := _parse_event event_data in
     match event with
     | None => ret ()
     | Some event =>
         let! _ := inc_updates_total in
         if String.eqb (op event) "d" then _handle_delete event
         else if String.eqb (op event) "c" || String.eqb (op event) "u" then
           _handle_create_or_update event
         else logger WARNING ("Unknown operation: " +:+ op event)
     end)
    [ExceptionC]
    (λ e, let! _ := logger ERROR
                      ("Failed to process event: " +:+ exn_msg e) in
          let! _ := inc_update_errors_total in
          raise e).

End Defs.
End EventProcessor.

(** ** The dead-letter sink ([app/services/dlq.py]) *)

Module DLQService.
Section Defs.
Context {S : Type} {be : Backend S}.
Variable settings : Settings.

(** [self.enabled = settings.dlq_enabled]. *)
Definition enabled : bool := settings.(dlq_enabled).

(** [AIOKafkaProducer.send_and_wait]. *)
Definition send_and_wait (topic : string) (value : DLQMessage) (p : Producer)
  : result Producer :=
  if producer_reachable p
  then Ok (mk_producer (producer_sent p ++ [(topic, value)])
                       (producer_reachable p))
  else Raise (mk_exn ConnectionError "Unable to reach the Kafka brokers").

Definition send_failed_event (event_data : pydict) (error original_topic : string)
    (offset partition : option Z) : M (World S) unit :=
  λ w,
  match (if enabled then dlq_producer w else None) with
  | None => logger WARNING "DLQ is disabled, not sending failed event" w
  | Some producer =>
      let dlq_message :=
        mk_dlq_message event_data error original_topic offset partition
          (time_time (backend w)) in
      match send_and_wait settings.(dlq_topic) dlq_message producer with
      | Ok producer' =>
          logger INFO ("Sent failed event to DLQ: topic=" +:+ original_topic)
            (set_dlq_producer (Some producer') w)
      | Raise e =>
          (let! _ := logger ERROR
                       ("Failed to send event to DLQ: " +:+ exn_msg e) in
           raise (mk_exn DLQError
                    ("Failed to send event to DLQ: " +:+ exn_msg e))) w
      end
  end.

End Defs.
End DLQService.

(** ** The event consumer loop ([app/update_service.py]) *)

(** A consumed message: the deserialized value ([JNull] for [None]), the
    offset and the partition. *)
Record Message : Type := mk_message {
  msg_value : json;
  msg_offset : Z;
  msg_partition : Z;
}.

Module UpdateService.
Section Defs.
Context {S : Type} {lib : Library} {be : Backend S}.
Variable settings : Settings.

(** [event_data = event_data["payload"]] when the value is a dictionary
    with a ["payload"] key. *)
Definition unwrap_payload (value : json) : json :=
  match value with
  | JObj fields =>
      if dict_contains "payload" fields
      then default JNull (dict_get "payload" fields)
      else value
  | _ => value
  end.

(** [event_data if isinstance(event_data, dict) else {}]. *)
Definition dict_or_empty (event_data : json) : pydict :=
  match event_data with
  | JObj fields => fields
  | _ => []
  end.

(** One pass of the [async for message in consumer] loop of
    [consume_kafka_events]. *)
Definition consume_message (message : Message) : M (World S) unit :=
  let event_data := unwrap_payload (msg_value message) in
  try_except
    (match msg_value message with
     | JNull => logger WARNING "Message has None value, skipping"
     | _ =>
         match event_data with
         | JObj fields => EventProcessor.process_event settings fields
         | _ => logger WARNING "Event data is not a dict, skipping"
         end
     end)
    [ExceptionC]
    (λ e,
       let error_msg := exn_msg e in
       let! _ := logger ERROR ("Error processing message: " +:+ error_msg) in
       try_except
         (DLQService.send_failed_event settings (dict_or_empty event_data)
            error_msg settings.(kafka_topic_documents)
            (Some (msg_offset message)) (Some (msg_partition message)))
         [ExceptionC]
         (λ dlq_error,
            logger ERROR ("Failed to send event to DLQ: "
                          +:+ exn_msg dlq_error))).

End Defs.
End UpdateService.

(** ** The query processor ([app/services/query_processor.py]) *)

Definition MAX_CONTEXT_TOKENS : Z := 8000.
Definition MAX_CONTEXT_CHARS : Z := MAX_CONTEXT_TOKENS * 4.
Definition MIN_SIMILARITY_SCORE : float := 0.15%float.

(** The separator ["\n\n"]. *)
Definition SEPARATOR : string := String "010" (String "010" "").

(** [a >= b] and [a < b] on floats. *)
Definition float_ge (a b : float) : bool := PrimFloat.leb b a.
Definition float_lt (a b : float) : bool := PrimFloat.ltb a b.

(** [sorted(matches, key=score, reverse=True)]: a stable sort into
    descending order (insertion from the right keeps equal scores in their
    original order). *)
Fixpoint insert_by_score (x : Match) (sorted : list Match) : list Match :=
  match sorted with
  | [] => [x]
  | y :: rest =>
      if float_lt (m_score x) (m_score y)
      then y :: insert_by_score x rest
      else x :: sorted
  end.

Fixpoint sorted_by_score_desc (matches : list Match) : list Match :=
  match matches with
  | [] => []
  | x :: rest => insert_by_score x (sorted_by_score_desc rest)
  end.

Definition source_to_json (s : Source) : json :=
  JObj [("document_id",
         match src_document_id s with Some d => JStr d | None => JNull end);
        ("score", JFloat (src_score s));
        ("version", src_version s);
        ("cited", JBool (src_cited s))].

Definition pagination_to_json (p : option Pagination) : json :=
  match p with
  | None => JNull
  | Some p =>
      JObj [("page", JInt (pg_page p));
            ("page_size", JInt (pg_page_size p));
            ("total", JInt (pg_total p));
            ("total_pages", JInt (pg_total_pages p));
            ("has_next", JBool (pg_has_next p));
            ("has_prev", JBool (pg_has_prev p))]
  end.

(** The response returned when the search finds nothing. *)
Definition NO_MATCH_RESPONSE : json :=
  JObj [("answer",
         JStr "I couldn't find relevant information to answer your question.");
        ("sources", JArr []);
        ("confidence", JFloat 0%float);
        ("is_complete", JBool false)].

Module QueryProcessor.
Section Defs.
Context {S : Type} {lib : Library} {be : Backend S}.
Variable settings : Settings.

Definition _get_cache_key (query : string) : string :=
  let query_hash := md5_hexdigest query in
  let cache_version := "v2" in
  "query_response:" +:+ cache_version +:+ ":" +:+ query_hash.

(** The loop of [_build_context]; it leaves at the first match that does
    not fit whole. *)
Fixpoint build_context_loop (matches : list Match)
    (context_parts : list string) (total_chars : Z) (used_matches : list Match)
  : list string * list Match :=
  match matches with
  | [] => (context_parts, used_matches)
  | m :: rest =>
      let content := m_content m in
      let content_length := Z.of_nat (str_len content) in
      let separator_length :=
        match context_parts with [] => 0 | _ :: _ => 2 end in
      if total_chars + content_length + separator_length <=? MAX_CONTEXT_CHARS
      then
        build_context_loop rest (context_parts ++ [content])
          (total_chars + (content_length + separator_length))
          (used_matches ++ [m])
      else
        let remaining_space :=
          MAX_CONTEXT_CHARS - total_chars - separator_length in
        if remaining_space >? 100 then
          let truncated := slice_to content remaining_space in
          (context_parts ++ [truncated], used_matches ++ [m])
        else (context_parts, used_matches)
  end.

Definition _build_context (matches : list Match) : string * list Match :=
  let '(context_parts, used_matches) :=
    build_context_loop matches [] 0 [] in
  (join SEPARATOR context_parts, used_matches).

Definition _filter_sources (sources : list Source) (confidence : float)
    (is_complete : bool) : list Source :=
  if PrimFloat.eqb confidence 0%float then []
  else if float_lt confidence 0.3%float || negb is_complete then
    list_comprehension
      (λ s, src_cited s && float_ge (src_score s) MIN_SIMILARITY_SCORE)
      sources []
  else
    list_comprehension
      (λ s, float_ge (src_score s) MIN_SIMILARITY_SCORE) sources [].

Definition _paginate_sources (sources : list Source) (page page_size : Z)
  : result (list Source * option Pagination) :=
  let total_sources := Z.of_nat (length sources) in
  let start_idx := (page - 1) * page_size in
  let end_idx := start_idx + page_size in
  let paginated_sources := py_slice sources start_idx end_idx in
  if total_sources >? page_size then
    if page_size =? 0 then
      Raise (mk_exn ZeroDivisionError "integer division or modulo by zero")
    else
      Ok (paginated_sources,
          Some (mk_pagination page page_size total_sources
                  ((total_sources + page_size - 1) / page_size)
                  (end_idx <? total_sources)
                  (page >? 1)))
  else Ok (paginated_sources, None).

(** [str(match["document_id"])]. *)
Definition str_document_id (d : option string) : string :=
  match d with
  | Some s => s
  | None => "None"
  end.

Definition document_id_truthy (d : option string) : bool :=
  match d with
  | Some s => negb (String.eqb s "")
  | None => false
  end.

Definition process_query (query : string) (top_k page page_size : Z)
  : M (World S) json :=
  let cache_key := _get_cache_key query in
  let! cached_response := CacheService.get_json cache_key in
  if truthy_opt cached_response then
    let! _ := logger INFO "Cache hit for query" in
    ret (default JNull cached_response)
  else
    let! query_embedding := EmbeddingService.generate_embedding query in
    let! matches := VectorDBService.search query_embedding top_k None in
    match matches with
    | [] => ret NO_MATCH_RESPONSE
    | _ :: _ =>
        let matches := sorted_by_score_desc matches in
        let '(context, used_matches) := _build_context matches in
        let document_ids :=
          (λ m, str_document_id (m_document_id m)) <$>
            list_comprehension (λ m, document_id_truthy (m_document_id m))
              used_matches [] in
        let! structured_response :=
          LLMService.generate_response query context document_ids in
        let sources :=
          (λ m, mk_source (m_document_id m) (m_score m) (m_version m)
                  (bool_decide (str_document_id (m_document_id m)
                                ∈ citations structured_response)))
            <$> used_matches in
        let sources :=
          _filter_sources sources (confidence structured_response)
            (is_complete structured_response) in
        match _paginate_sources sources page page_size with
        | Raise e => raise e
        | Ok (paginated_sources, pagination) =>
            let response :=
              JObj [("answer", JStr (answer structured_response));
                    ("sources", JArr (source_to_json <$> paginated_sources));
                    ("confidence", JFloat (confidence structured_response));
                    ("is_complete", JBool (is_complete structured_response));
                    ("pagination", pagination_to_json pagination)] in
            let! _ :=
              CacheService.set_json settings cache_key response
                (Some settings.(cache_ttl)) in
            ret response
        end
    end.

End Defs.
End QueryProcessor.

(** ** Test doubles *)

(** Stand-ins for the library functions and the remote services, used to
    run the model on concrete inputs: the splitter returns the text as one
    chunk, identifiers are accepted by their length, only integers validate
    as integers, and every remote call succeeds. *)
Definition stub_library : Library := {|
  split_text := λ s, if String.eqb s "" then [] else [s];
  uuid5 := λ namespace name, namespace +:+ "/" +:+ name;
  uuid_parse := λ s, if (String.length s =? 36)%nat then Some s else None;
  md5_hexdigest := λ s, s;
  json_dumps := λ _, "{}";
  json_loads := λ _, Raise (mk_exn JSONDecodeError "Expecting value");
  validate_int := λ v, match v with JInt z => Some z | _ => None end;
  validate_structured_answer :=
    λ _, Raise (mk_exn ValidationError
                  "validation error for StructuredAnswer");
  py_repr := λ _, "";
  float_pow := product_power;
|}.

Definition stub_backend : Backend unit := {|
  time_ms := λ _, 1700000000000;
  time_time := λ _, 1700000000%float;
  asyncio_sleep := λ _, ret ();
  embeddings_create := λ texts, ret ((λ _, [0%float]) <$> texts);
  qdrant_upsert := λ _, ret ();
  qdrant_delete := λ _, ret ();
  qdrant_query_points := λ _ _ _, ret [];
  chat_completions_create := λ _ _ _, ret None;
  observe_processing_duration := λ s, s;
  observe_lag := λ _, ret ();
  track_pipeline_activity := λ _ s, s;
|}.

(** A connected process with empty cache, nothing sent to the dead-letter
    topic and zeroed counters. *)
Definition stub_world : World unit :=
  mk_world 0 0 (Some (mk_redis ∅ true)) true (Some (mk_producer [] true))
    [] ().

(** A backend whose embedding provider is down; its state counts the calls
    to the provider. *)
Definition failing_embeddings_backend : Backend nat := {|
  time_ms := λ _, 1700000000000;
  time_time := λ _, 1700000000%float;
  asyncio_sleep := λ _, ret ();
  embeddings_create :=
    λ _ calls, (Raise (mk_exn ConnectionError "provider unavailable"),
                S calls);
  qdrant_upsert := λ _, ret ();
  qdrant_delete := λ _, ret ();
  qdrant_query_points := λ _ _ _, ret [];
  chat_completions_create := λ _ _ _, ret None;
  observe_processing_duration := λ s, s;
  observe_lag := λ _, ret ();
  track_pipeline_activity := λ _ s, s;
|}.

Definition failing_embeddings_world : World nat :=
  mk_world 0 0 (Some (mk_redis ∅ true)) true (Some (mk_producer [] true))
    [] 0%nat.

(** ** The vocabulary of the properties *)

(** *** Query processor *)

(** The sources of the confidence-gate scenario: scores 0.5, 0.4 and 0.1,
    the first one cited or not. *)
Definition scenario_sources (first_cited : bool) : list Source :=
  [mk_source (Some "d1") 0.5%float (JInt 1) first_cited;
   mk_source (Some "d2") 0.4%float (JInt 1) false;
   mk_source (Some "d3") 0.1%float (JInt 1) false].

(** A match whose content has [n] characters. *)
Definition long_match (n : Z) : Match :=
  mk_match "p" (String.string_of_list_ascii (replicate (Z.to_nat n) "a"%char))
           (Some "d") 0.5%float (JInt 1).

(** A match whose content is [n] times the letter e with an acute accent,
    two bytes in UTF-8 and one code point. *)
Definition accented_match (n : Z) : Match :=
  mk_match "p"
    (String.string_of_list_ascii
       (mjoin (replicate (Z.to_nat n) ["195"%char; "169"%char])))
    (Some "d") 0.5%float (JInt 1).

(** The length of the context assembled from [contents], as [len] counts
    it. *)
Definition context_length (contents : list string) : Z :=
  Z.of_nat (str_len (join SEPARATOR contents)).

(** The separator counted before a new element. *)
Definition separator_length {A} (included : list A) : Z :=
  match included with [] => 0 | _ :: _ => 2 end.

(** The decoded response cached for a key: what [get_json] returns. *)
Definition cached_response {S} {lib : Library} (w : World S) (key : string)
  : option json :=
  match (CacheService.get_json key w).1 with
  | Ok v => v
  | Raise _ => None
  end.

(** *** Retry helper *)



(** An operation that fails on every invocation. *)
Definition always_failing : M Probe unit :=
  scripted (λ _, Raise (mk_exn EmbeddingError "provider unavailable")).

(** *** Frames *)

(** A computation respects a relation between worlds when every run, from
    any world, leaves a related world. *)
Definition respects {W A} (R : relation W) (c : M W A) : Prop :=
  ∀ w, R w (c w).2.

(** A relation between worlds that holds whatever happens to the log and
    to the backend. *)
Class LogBackendFrame {S} (R : relation (World S)) : Prop := {
  frame_preorder :: PreOrder R;
  frame_logs : ∀ l w, R w (set_logs l w);
  frame_backend : ∀ s w, R w (set_backend s w);
}.

(** Nothing but the log and the backend changed. *)
Definition only_logs_backend {S} : relation (World S) :=
  λ w w', updates_total w' = updates_total w
          ∧ update_errors_total w' = update_errors_total w
          ∧ cache_client w' = cache_client w
          ∧ vector_client w' = vector_client w.

(** The two counters kept their values. *)
Definition same_counters {S} : relation (World S) :=
  λ w w', updates_total w' = updates_total w
          ∧ update_errors_total w' = update_errors_total w.

(** The cache is as before, or as before with [key] deleted. *)
Definition invalidates {S} (key : string) : relation (World S) :=
  λ w w', cache_client w' = cache_client w
          ∨ ∃ r, cache_client w = Some r
              ∧ cache_client w'
                = Some (mk_redis (base.delete key (redis_store r))
                                 (redis_reachable r)).

(** The cache is as before, or as before with a value stored at [key]. *)
Definition stores {S} (key : string) : relation (World S) :=
  λ w w', cache_client w' = cache_client w
          ∨ ∃ r value seconds,
              cache_client w = Some r
              ∧ cache_client w'
                = Some (mk_redis (<[key := (value, seconds)]> (redis_store r))
                                 (redis_reachable r)).

(** The value cached under [key]. *)
Definition cached {S} (w : World S) (key : string) : option (string * Z) :=
  cache_client w ≫= λ r, redis_store r !! key.

(** *** Event processor *)

(** The fields of a payload: its items whose key does not begin with
    ["__"], in order. *)
Definition document_fields (event_data : pydict) : pydict :=
  List.filter (λ kv, negb (is_meta_key kv.1)) event_data.

(** The key the update path deletes from the cache for an event whose
    document fields are [after_data]. *)
Definition invalidation_key {lib : Library} (after_data : pydict) : string :=
  "query:" +:+ py_str (default JNull (dict_get "id" after_data)).

(** The branch of [process_event] on the operation of a parsed event. *)
Definition dispatch {S} {lib : Library} {be : Backend S} (settings : Settings)
    (event : DocumentEvent) : M (World S) unit :=
  if String.eqb (op event) "d" then EventProcessor._handle_delete event
  else if String.eqb (op event) "c" || String.eqb (op event) "u" then
    EventProcessor._handle_create_or_update settings event
  else logger WARNING ("Unknown operation: " +:+ op event).

(** What the [except Exception] clause of [process_event] does to the
    world before raising again. *)
Definition record_failure {S} (e : exn) (w : World S) : World S :=
  let w := set_logs (logs w ++ [(ERROR, "Failed to process event: "
                                        +:+ exn_msg e)]) w in
  set_update_errors_total (update_errors_total w + 1) w.

(** The operation as the specification words it: from ["__op"] if present,
    else from ["op"], else ["c"]; ["d"] when the payload is flagged
    deleted. *)
Definition claimed_op (event_data : pydict) : json :=
  if opt_json_eq_str (dict_get "__deleted" event_data) "true" then JStr "d"
  else match dict_get "__op" event_data with
       | Some v => v
       | None => dict_get_default "op" (JStr "c") event_data
       end.

(** The operation as the code derives it: ["__op"] counts only when its
    value is truthy. *)
Definition normalized_op (event_data : pydict) : json :=
  if opt_json_eq_str (dict_get "__deleted" event_data) "true" then JStr "d"
  else match dict_get "__op" event_data with
       | Some v =>
           if truthy v then v
           else dict_get_default "op" (JStr "c") event_data
       | None => dict_get_default "op" (JStr "c") event_data
       end.

(** The timestamp handed to the event constructor. *)
Definition normalized_ts {S} {be : Backend S} (event_data : pydict) (w : World S)
  : json :=
  if truthy_opt (EventProcessor.event_ts_ms event_data)
  then default JNull (EventProcessor.event_ts_ms event_data)
  else JInt (time_ms (backend w)).

(** ** Further code of the modelled modules *)

(** *** Connecting the cache ([CacheService.connect]) *)

Module CacheConnection.
Section Defs.
Context {S : Type}.

(** The Redis command [PING]. *)
Definition redis_ping (r : Redis) : result unit :=
  if redis_reachable r then Ok ()
  else Raise (mk_exn ConnectionError "Error connecting to Redis").

(** [connect]: [redis.from_url(...)] builds the client, which is assigned
    to [self.client] before the ping; [from_url] is the outcome of the
    constructor ([Raise] for a URL it rejects). *)
Definition connect (from_url : result Redis) : M (World S) unit :=
  λ w,
  match from_url with
  | Raise e =>
      (Raise (mk_exn CacheError ("Failed to connect to Redis: " +:+ exn_msg e)),
       w)
  | Ok client =>
      let w := set_cache_client (Some client) w in
      match redis_ping client with
      | Ok _ => (Ok (), w)
      | Raise e =>
          (Raise (mk_exn CacheError
                    ("Failed to connect to Redis: " +:+ exn_msg e)), w)
      end
  end.

End Defs.
End CacheConnection.

(** *** The text-only answer ([LLMService.generate_response_text]) *)

Definition generate_response_text {S} {lib : Library} {be : Backend S}
    (query context : string) : M (World S) string :=
  let! structured := LLMService.generate_response query context [] in
  ret (answer structured).

(** *** Recent metric samples ([app/services/metrics_tracker.py]) *)

Module MetricsTracker.

(** [deque.append] on a [deque(maxlen=maxlen)]: a full deque discards the
    item at its left end; with [maxlen = 0] every item is discarded. *)
Definition deque_append {A} (maxlen : nat) (d : list A) (x : A) : list A :=
  if (maxlen =? 0)%nat then d
  else if (maxlen <=? length d)%nat then drop 1 d ++ [x]
  else d ++ [x].

(** The two deques are created with [maxlen=100]; each function takes the
    deque it works on and returns the new one. *)
Definition add_update_lag_sample (lag : float)
    (_update_lag_samples : list float) : list float :=
  deque_append 100 _update_lag_samples lag.

Definition add_query_latency_sample (latency : float)
    (_query_latency_samples : list float) : list float :=
  deque_append 100 _query_latency_samples latency.

(** [list(samples)[-count:]]. *)
Definition get_update_lag_samples (count : Z)
    (_update_lag_samples : list float) : list float :=
  py_slice _update_lag_samples (- count)
    (Z.of_nat (length _update_lag_samples)).

Definition get_query_latency_samples (count : Z)
    (_query_latency_samples : list float) : list float :=
  py_slice _query_latency_samples (- count)
    (Z.of_nat (length _query_latency_samples)).

End MetricsTracker.

(** *** Recent pipeline activity ([app/services/pipeline_tracker.py]) *)

(** An entry of [pipeline_activity['recent_updates']]. *)
Record PipelineUpdate : Type := mk_pipeline_update {
  update_document_id : string;
  update_timestamp : string;
  update_total_latency : json;
}.

(** The module-level dictionary [pipeline_activity]. *)
Record PipelineActivity : Type := mk_pipeline_activity {
  last_update_time : option string;
  recent_updates : list PipelineUpdate;
  stage_latencies : list (string * float);
}.

Module PipelineTracker.
Section Defs.
(** [sum(d.values())] for a dictionary of floats. *)
Variable sum_values : list (string * float) → json.

(** The dictionary as the module creates it. *)
Definition pipeline_activity : PipelineActivity :=
  mk_pipeline_activity None []
    [("postgresql", 0%float); ("debezium", 0%float); ("kafka", 0%float);
     ("update_service", 0%float); ("embedding", 0%float);
     ("qdrant", 0%float)].

(** [update_pipeline_activity]; [now] is
    [datetime.datetime.now().isoformat()], and the function returns the
    dictionary it leaves. *)
Definition update_pipeline_activity (latencies : list (string * float))
    (document_id : option string) (now : string)
    (activity : PipelineActivity) : PipelineActivity :=
  let activity :=
    mk_pipeline_activity (Some now) (recent_updates activity) latencies in
  match document_id with
  | Some document_id =>
      if negb (String.eqb document_id "") then
        let appended :=
          recent_updates activity
          ++ [mk_pipeline_update document_id now (sum_values latencies)] in
        mk_pipeline_activity (last_update_time activity)
          (py_slice appended (-10) (Z.of_nat (length appended)))
          (stage_latencies activity)
      else activity
  | None => activity
  end.

Definition get_pipeline_status (activity : PipelineActivity) : json :=
  JObj [("stages",
         JObj (prod_map id JFloat <$> stage_latencies activity));
        ("total_latency", sum_values (stage_latencies activity));
        ("last_update",
         match last_update_time activity with
         | Some t => JStr t
         | None => JNull
         end);
        ("recent_updates_count",
         JInt (Z.of_nat (length (recent_updates activity))))].

End Defs.
End PipelineTracker.

(** *** More test doubles *)

(** A library with a codec for a fragment of JSON: the encoder writes
    [true], [false], the empty object and the empty array as JSON does (and
    [null] for everything else), and the decoder reads these texts back. *)
Definition decoding_library : Library := {|
  split_text := λ s, if String.eqb s "" then [] else [s];
  uuid5 := λ namespace name, namespace +:+ "/" +:+ name;
  uuid_parse := λ s, if (String.length s =? 36)%nat then Some s else None;
  md5_hexdigest := λ s, s;
  json_dumps := λ v,
    match v with
    | JBool true => "true"
    | JBool false => "false"
    | JObj [] => "{}"
    | JArr [] => "[]"
    | _ => "null"
    end;
  json_loads := λ s,
    if String.eqb s "true" then Ok (JBool true)
    else if String.eqb s "false" then Ok (JBool false)
    else if String.eqb s "{}" then Ok (JObj [])
    else if String.eqb s "[]" then Ok (JArr [])
    else if String.eqb s "null" then Ok JNull
    else Raise (mk_exn JSONDecodeError "Expecting value");
  validate_int := λ v, match v with JInt z => Some z | _ => None end;
  validate_structured_answer :=
    λ _, Raise (mk_exn ValidationError
                  "validation error for StructuredAnswer");
  py_repr := λ _, "";
  float_pow := product_power;
|}.

(** A library whose decoder exceeds the recursion limit, as [json.loads]
    does on deeply nested text. *)
Definition deep_nesting_library : Library := {|
  split_text := λ s, if String.eqb s "" then [] else [s];
  uuid5 := λ namespace name, namespace +:+ "/" +:+ name;
  uuid_parse := λ s, if (String.length s =? 36)%nat then Some s else None;
  md5_hexdigest := λ s, s;
  json_dumps := λ _, "{}";
  json_loads :=
    λ _, Raise (mk_exn RecursionError
                  "maximum recursion depth exceeded while decoding a JSON array from a unicode string");
  validate_int := λ v, match v with JInt z => Some z | _ => None end;
  validate_structured_answer :=
    λ _, Raise (mk_exn ValidationError
                  "validation error for StructuredAnswer");
  py_repr := λ _, "";
  float_pow := product_power;
|}.

(** A backend whose LLM provider call fails while decoding the body of the
    HTTP response. *)
Definition undecodable_provider_backend : Backend unit := {|
  time_ms := λ _, 1700000000000;
  time_time := λ _, 1700000000%float;
  asyncio_sleep := λ _, ret ();
  embeddings_create := λ texts, ret ((λ _, [0%float]) <$> texts);
  qdrant_upsert := λ _, ret ();
  qdrant_delete := λ _, ret ();
  qdrant_query_points := λ _ _ _, ret [];
  chat_completions_create :=
    λ _ _ _, raise (mk_exn JSONDecodeError
                      "Expecting value: line 1 column 1 (char 0)");
  observe_processing_duration := λ s, s;
  observe_lag := λ _, ret ();
  track_pipeline_activity := λ _ s, s;
|}.

(** *** More vocabulary *)

(** The producer of the dead-letter sink is as before. *)
Definition same_dlq_producer {S} : relation (World S) :=
  λ w w', dlq_producer w' = dlq_producer w.

(** The cache client is as before. *)
Definition same_cache {S} : relation (World S) :=
  λ w w', cache_client w' = cache_client w.

(** The items of one page: what [_paginate_sources] returns as the
    paginated sources. *)
Definition page_items (sources : list Source) (page page_size : Z)
  : list Source :=
  match QueryProcessor._paginate_sources sources page page_size with
  | Ok (items, _) => items
  | Raise _ => []
  end.

(** The cache client after [CacheService.delete] of [key]. *)
Definition cache_without (key : string) (client : option Redis)
  : option Redis :=
  match client with
  | Some r =>
      if redis_reachable r
      then Some (mk_redis (base.delete key (redis_store r))
                          (redis_reachable r))
      else Some r
  | None => None
  end.

(** Every run that raises, from any world, leaves a related world. *)
Definition respects_on_raise {W A} (R : relation W) (c : M W A) : Prop :=
  ∀ w, is_raise (c w).1 = true → R w (c w).2.

(** The entry one call of [update_pipeline_activity] appends, if any. *)
Definition pipeline_entry (sum_values : list (string * float) → json)
    (call : list (string * float) * option string * string)
  : option PipelineUpdate :=
  match call with
  | (latencies, Some document_id, now) =>
      if negb (String.eqb document_id "")
      then Some (mk_pipeline_update document_id now (sum_values latencies))
      else None
  | (_, None, _) => None
  end.

(** * Part II: properties *)

(** ** Comprehensions are filters *)

Lemma list_comprehension_filter {A} (keep : A → bool) (xs : list A) :
  ∀ acc, list_comprehension keep xs acc = acc ++ List.filter keep xs.
Proof.
  induction xs as [|x xs IH]; intros acc; simpl.
  - by rewrite app_nil_r.
  - rewrite IH. destruct (keep x); [|done]. by rewrite <- app_assoc.
Qed.

Lemma dict_comprehension_filter (keep : string → bool) (d : pydict) :
  ∀ acc, dict_comprehension keep d acc
         = acc ++ List.filter (λ kv, keep kv.1) d.
Proof.
  induction d as [|[k v] d IH]; intros acc; simpl.
  - by rewrite app_nil_r.
  - rewrite IH. destruct (keep k); [|done]. by rewrite <- app_assoc.
Qed.

Lemma filter_sublist {A} (keep : A → bool) (xs : list A) :
  sublist (List.filter keep xs) xs.
Proof.
  induction xs as [|x xs IH]; simpl; [constructor|].
  destruct (keep x); by constructor.
Qed.

(** ** The chunker *)

Section ChunkerProperties.
Context {lib : Library}.

Lemma chunk_loop_spec document_id chunks : ∀ idx acc,
  ChunkingService.chunk_loop document_id idx chunks acc =
  acc ++ zip_with
           (λ i text,
              mk_chunk (ChunkingService._generate_chunk_uuid document_id i)
                       text i document_id)
           (seq idx (length chunks)) chunks.
Proof.
  induction chunks as [|text rest IH]; intros idx acc; simpl.
  - by rewrite app_nil_r.
  - rewrite IH, <- app_assoc. done.
Qed.

Lemma chunk_document_spec content document_id :
  ChunkingService.chunk_document content document_id =
  zip_with
    (λ i text,
       mk_chunk (ChunkingService._generate_chunk_uuid document_id i)
                text i document_id)
    (seq 0 (length (split_text content))) (split_text content).
Proof. unfold ChunkingService.chunk_document. by rewrite chunk_loop_spec. Qed.

Lemma chunk_document_ids content document_id :
  chunk_id <$> ChunkingService.chunk_document content document_id =
  ChunkingService._generate_chunk_uuid document_id
    <$> seq 0 (length (split_text content)).
Proof.
  rewrite chunk_document_spec. generalize 0%nat.
  induction (split_text content) as [|t r IH]; intros n; simpl; [done|].
  by rewrite IH.
Qed.

(** C1. The chunk at index [i] carries the identifier
    UUIDv5(nil namespace, "{document_id}:{i}"): the list of identifiers is
    the image of the indices [0 .. n-1] under that function, [n] being the
    number of chunks, and the stored [chunk_index] is the position.  So the
    identifier depends on the document identifier and the index only:
    chunking the same content twice, or any content that splits into as
    many pieces, yields the same identifiers at the same indices. *)
Theorem chunk_ids_are_uuid5_of_document_and_index
    (content document_id : string) :
  let chunks := ChunkingService.chunk_document content document_id in
  chunk_id <$> chunks =
    (λ i, uuid5 "00000000-0000-0000-0000-000000000000"
                (document_id +:+ ":" +:+ str_of_nat i))
      <$> seq 0 (length (split_text content))
  ∧ chunk_index <$> chunks = seq 0 (length (split_text content))
  ∧ chunk_content <$> chunks = split_text content
  ∧ (∀ i c, chunks !! i = Some c →
       chunk_id c = ChunkingService._generate_chunk_uuid document_id i)
  ∧ (∀ content',
       length (split_text content') = length (split_text content) →
       chunk_id <$> ChunkingService.chunk_document content' document_id =
       chunk_id <$> chunks).
Proof.
  cbv zeta. split; [apply chunk_document_ids|]. split; [|split; [|split]].
  - rewrite chunk_document_spec. generalize 0%nat.
    induction (split_text content) as [|t r IH]; intros n; simpl; [done|].
    by rewrite IH.
  - rewrite chunk_document_spec. generalize 0%nat.
    induction (split_text content) as [|t r IH]; intros n; simpl; [done|].
    by rewrite IH.
  - intros i c Hc.
    assert (Hi := f_equal (λ l, l !! i) (chunk_document_ids content document_id)).
    simpl in Hi. rewrite !list_lookup_fmap, Hc in Hi. simpl in Hi.
    destruct (seq 0 (length (split_text content)) !! i) as [j|] eqn:Hj;
      simpl in Hi; [|done].
    apply lookup_seq in Hj as [-> _]. by injection Hi.
  - intros content' Hlen. by rewrite !chunk_document_ids, Hlen.
Qed.

End ChunkerProperties.

(** ** The confidence gate *)

(** C4. The filter drops every source when the confidence is zero; keeps
    the cited sources scoring at least 0.15 when the confidence is below
    0.3 or the answer is incomplete; and otherwise keeps every source
    scoring at least 0.15, cited or not.  The kept sources appear in their
    original relative order. *)
Theorem filter_sources_confidence_gate
    (sources : list Source) (confidence : float) (is_complete : bool) :
  let kept := QueryProcessor._filter_sources sources confidence is_complete in
  (PrimFloat.eqb confidence 0%float = true → kept = [])
  ∧ (PrimFloat.eqb confidence 0%float = false →
     PrimFloat.ltb confidence 0.3%float = true ∨ is_complete = false →
     kept = List.filter
              (λ s, src_cited s && PrimFloat.leb 0.15%float (src_score s))
              sources)
  ∧ (PrimFloat.eqb confidence 0%float = false →
     PrimFloat.ltb confidence 0.3%float = false → is_complete = true →
     kept = List.filter (λ s, PrimFloat.leb 0.15%float (src_score s)) sources)
  ∧ sublist kept sources.
Proof.
  cbv zeta. unfold QueryProcessor._filter_sources, float_lt, float_ge,
    MIN_SIMILARITY_SCORE.
  rewrite !list_comprehension_filter. simpl.
  split; [|split; [|split]].
  - by intros ->.
  - intros -> [-> | ->]; [done|]. by rewrite orb_true_r.
  - by intros -> -> ->.
  - destruct (PrimFloat.eqb _ _); [apply sublist_nil_l|].
    destruct (_ || _); apply filter_sublist.
Qed.

(** The confidence gate on the three responses of the end-to-end
    scenario. *)
Example confidence_gate_scenario :
  QueryProcessor._filter_sources (scenario_sources true) 0%float true = []
  ∧ src_document_id
      <$> QueryProcessor._filter_sources (scenario_sources true) 0.2%float true
    = [Some "d1"]
  ∧ src_document_id
      <$> QueryProcessor._filter_sources (scenario_sources false) 0.9%float true
    = [Some "d1"; Some "d2"].
Proof. vm_compute. done. Qed.

(** ** Pagination *)

Lemma py_slice_nonneg {A} (l : list A) (start stop : Z) :
  0 ≤ start → start ≤ stop →
  py_slice l start stop
  = take (Z.to_nat (stop - start)) (drop (Z.to_nat start) l).
Proof.
  intros Hs Hle. unfold py_slice, clamp_index.
  destruct (Z.ltb_spec start 0) as [?|_]; [lia|].
  destruct (Z.ltb_spec stop 0) as [?|_]; [lia|].
  set (len := Z.of_nat (length l)).
  destruct (Z.le_gt_cases len start) as [Hout|Hin].
  - rewrite (Z.min_r start len), (Z.min_r stop len) by lia.
    rewrite (drop_ge l (Z.to_nat len)) by (unfold len; lia).
    rewrite (drop_ge l (Z.to_nat start)) by (unfold len in Hout; lia).
    by rewrite !take_nil.
  - rewrite (Z.min_l start len) by lia.
    destruct (Z.le_gt_cases stop len) as [Hs2|Hs2].
    + by rewrite (Z.min_l stop len) by lia.
    + rewrite (Z.min_r stop len) by lia.
      rewrite !take_ge; [done| |];
        rewrite length_drop; unfold len in *; lia.
Qed.

(** C7. For [page ≥ 1] and [page_size ≥ 1] pagination succeeds and returns
    the slice [(page-1)*page_size, page*page_size) of the sources, which has
    at most [page_size] elements; the metadata is attached exactly when
    [total > page_size]; and when attached it records the page, the page
    size and the total, [total_pages = ceil(total / page_size)] (the least
    number of pages of that size that hold all sources), [has_next] exactly
    when [page * page_size < total] and [has_prev] exactly when
    [page > 1]. *)
Theorem paginate_sources_slice_and_metadata
    (sources : list Source) (page page_size : Z) :
  1 ≤ page → 1 ≤ page_size →
  ∃ paginated pagination,
    QueryProcessor._paginate_sources sources page page_size
      = Ok (paginated, pagination)
    ∧ paginated
      = take (Z.to_nat (page * page_size) - Z.to_nat ((page - 1) * page_size))
             (drop (Z.to_nat ((page - 1) * page_size)) sources)
    ∧ (∀ i : nat, Z.of_nat i < page_size →
         paginated !! i
         = sources !! (Z.to_nat ((page - 1) * page_size) + i)%nat)
    ∧ Z.of_nat (length paginated) ≤ page_size
    ∧ (is_Some pagination ↔ Z.of_nat (length sources) > page_size)
    ∧ (∀ p, pagination = Some p →
         pg_page p = page
         ∧ pg_page_size p = page_size
         ∧ pg_total p = Z.of_nat (length sources)
         ∧ (pg_total_pages p - 1) * page_size < pg_total p
             ≤ pg_total_pages p * page_size
         ∧ (pg_has_next p = true ↔ page * page_size < pg_total p)
         ∧ (pg_has_prev p = true ↔ page > 1)).
Proof.
  intros Hpage Hsize.
  set (start := (page - 1) * page_size).
  assert (Hstart : 0 ≤ start) by (unfold start; nia).
  assert (Hend : start + page_size = page * page_size) by (unfold start; lia).
  set (paginated :=
         take (Z.to_nat page_size) (drop (Z.to_nat start) sources)).
  assert (Hslice : py_slice sources start (start + page_size) = paginated).
  { rewrite py_slice_nonneg by lia. unfold paginated. f_equal. lia. }
  assert (Hlen : Z.of_nat (length paginated) ≤ page_size).
  { unfold paginated. rewrite length_take. lia. }
  assert (Hidx : ∀ i : nat, Z.of_nat i < page_size →
            paginated !! i = sources !! (Z.to_nat start + i)%nat).
  { intros i Hi. unfold paginated.
    rewrite lookup_take_lt by lia. by rewrite lookup_drop. }
  assert (Htake : paginated
            = take (Z.to_nat (page * page_size) - Z.to_nat start)
                   (drop (Z.to_nat start) sources)).
  { unfold paginated. f_equal. lia. }
  unfold QueryProcessor._paginate_sources. fold start. rewrite Hslice.
  destruct (Z.gtb_spec (Z.of_nat (length sources)) page_size) as [Hgt|Hle].
  - destruct (Z.eqb_spec page_size 0) as [?|_]; [lia|].
    eexists _, _. split; [reflexivity|].
    split; [done|]. split; [done|]. split; [done|].
    split; [split; [lia|eauto]|].
    intros p [= <-]. simpl.
    split; [done|]. split; [done|]. split; [done|].
    split; [|split].
    + set (n := Z.of_nat (length sources)) in *.
      pose proof (Z.div_mod (n + page_size - 1) page_size ltac:(lia)) as Hdm.
      pose proof (Z.mod_pos_bound (n + page_size - 1) page_size ltac:(lia)).
      nia.
    + rewrite Z.ltb_lt. lia.
    + rewrite Z.gtb_gt. lia.
  - eexists _, _. split; [reflexivity|].
    split; [done|]. split; [done|]. split; [done|].
    split; [|done]. split; [intros [? [=]]|lia].
Qed.

Lemma paginate_sources_witness :
  1 ≤ 2 ∧ 1 ≤ 2
  ∧ ∃ paginated pagination,
      QueryProcessor._paginate_sources (scenario_sources true) 2 2
        = Ok (paginated, pagination)
      ∧ Z.of_nat (length paginated) ≤ 2
      ∧ (is_Some pagination ↔ 3 > 2).
Proof.
  split; [lia|]. split; [lia|].
  destruct (paginate_sources_slice_and_metadata (scenario_sources true) 2 2)
    as (paginated & pagination & Hrun & _ & _ & Hlen & Hmeta & _); [lia|lia|].
  exists paginated, pagination. done.
Defined.

(** ** Context assembly *)

Lemma str_len_app (s1 s2 : string) :
  str_len (s1 +:+ s2) = (str_len s1 + str_len s2)%nat.
Proof.
  induction s1 as [|c s1 IH]; simpl; [done|].
  destruct (is_continuation_byte c); by rewrite IH.
Qed.

Lemma take_code_points_len (s : string) :
  ∀ n : nat, str_len (take_code_points n s) = (n `min` str_len s)%nat.
Proof.
  induction s as [|c s IH]; intros n; simpl; [lia|].
  destruct (is_continuation_byte c) eqn:Hc; simpl; rewrite ?Hc.
  - apply IH.
  - destruct n as [|n]; simpl; rewrite ?Hc; [done|]. by rewrite IH.
Qed.

Lemma context_length_snoc (parts : list string) (content : string) :
  context_length (parts ++ [content])
  = context_length parts + (Z.of_nat (str_len content)
                            + separator_length parts).
Proof.
  unfold context_length. induction parts as [|p parts IH]; simpl; [lia|].
  destruct parts as [|q parts].
  - simpl. rewrite !str_len_app. simpl. lia.
  - change ((q :: parts) ++ [content]) with (q :: (parts ++ [content])) in *.
    cbn [join] in *. destruct (parts ++ [content]) eqn:E.
    + by destruct parts.
    + rewrite <- E in *. clear E.
      rewrite !str_len_app in *. simpl in *.
      destruct parts; simpl in *; rewrite ?str_len_app in *;
        simpl in *; lia.
Qed.

(** The separator is counted once for every element after the first. *)
Lemma context_length_sum (contents : list string) :
  context_length contents
  = Z.of_nat (sum_list_with str_len contents)
    + 2 * Z.max 0 (Z.of_nat (length contents) - 1).
Proof.
  induction contents as [|c contents IH] using rev_ind; [done|].
  rewrite context_length_snoc, IH, sum_list_with_app, length_app. simpl.
  destruct contents; simpl; lia.
Qed.

Lemma app_cons_snoc {A} (l : list A) (x : A) (l' : list A) :
  l ++ x :: l' = (l ++ [x]) ++ l'.
Proof. by rewrite <- app_assoc. Qed.

(** The loop, started from any consistent accumulator: it includes whole
    the longest run of matches that keeps the context within the budget,
    then either runs out of matches or meets one that does not fit. *)
Lemma build_context_loop_spec (matches : list Match) :
  ∀ (parts : list string) (used : list Match) (total_chars : Z),
  total_chars = context_length parts →
  ∃ k : nat,
    (k ≤ length matches)%nat
    ∧ (∀ j : nat, (j < k)%nat →
         context_length (parts ++ (m_content <$> take (S j) matches))
         ≤ MAX_CONTEXT_CHARS)
    ∧ ((k = length matches
        ∧ QueryProcessor.build_context_loop matches parts total_chars used
          = (parts ++ (m_content <$> matches), used ++ matches))
       ∨ ∃ m, matches !! k = Some m
           ∧ context_length
               (parts ++ (m_content <$> take k matches) ++ [m_content m])
             > MAX_CONTEXT_CHARS
           ∧ QueryProcessor.build_context_loop matches parts total_chars used
             = let included := parts ++ (m_content <$> take k matches) in
               let remaining :=
                 MAX_CONTEXT_CHARS - context_length included
                 - separator_length included in
               if remaining >? 100
               then (included ++ [slice_to (m_content m) remaining],
                     used ++ take k matches ++ [m])
               else (included, used ++ take k matches)).
Proof.
  induction matches as [|m rest IH]; intros parts used total_chars Htotal.
  - exists 0%nat. split; [done|]. split; [intros; lia|].
    left. simpl. by rewrite !app_nil_r.
  - cbn [QueryProcessor.build_context_loop].
    fold (separator_length parts).
    destruct (Z.leb_spec
                (total_chars + Z.of_nat (str_len (m_content m))
                 + separator_length parts) MAX_CONTEXT_CHARS) as [Hfit|Hover].
    + destruct (IH (parts ++ [m_content m]) (used ++ [m])
                  (total_chars + (Z.of_nat (str_len (m_content m))
                                  + separator_length parts)))
        as (k & Hk & Hwhole & Hend).
      { rewrite context_length_snoc. lia. }
      exists (S k). split; [simpl; lia|]. split.
      * intros [|j] Hj.
        -- rewrite firstn_cons, take_0, fmap_cons, fmap_nil.
           rewrite context_length_snoc. lia.
        -- rewrite firstn_cons, fmap_cons, app_cons_snoc.
           apply Hwhole. lia.
      * destruct Hend as [[-> Hrun] | (m' & Hm' & Hbig & Hrun)].
        -- left. split; [done|]. rewrite Hrun.
           by rewrite fmap_cons, <- !app_assoc.
        -- right. exists m'. split; [done|].
           rewrite firstn_cons, fmap_cons. split.
           ++ by rewrite <- app_comm_cons, app_cons_snoc.
           ++ rewrite Hrun. cbv zeta.
              rewrite <- ?app_comm_cons.
              rewrite (app_cons_snoc parts (m_content m)
                         (m_content <$> take k rest)).
              rewrite (app_cons_snoc used m (take k rest ++ [m'])).
              by rewrite (app_cons_snoc used m (take k rest)).
    + exists 0%nat. split; [lia|]. split; [intros; lia|].
      right. exists m. split; [done|].
      rewrite take_0, fmap_nil, !app_nil_r, app_nil_l.
      split; [rewrite context_length_snoc; lia|].
      cbv zeta. by rewrite Htotal.
Qed.

Lemma separator_length_fmap {A B} (f : A → B) (l : list A) :
  separator_length (f <$> l) = separator_length l.
Proof. by destruct l. Qed.

Lemma whole_prefix_within_budget (matches : list Match) (k : nat) :
  (∀ j : nat, (j < k)%nat →
     context_length (m_content <$> take (S j) matches) ≤ MAX_CONTEXT_CHARS) →
  context_length (m_content <$> take k matches) ≤ MAX_CONTEXT_CHARS.
Proof.
  intros Hwhole. destruct k as [|k]; [by rewrite take_0|].
  apply Hwhole. lia.
Qed.

(** C3. The assembled context has at most [MAX_CONTEXT_CHARS = 32000]
    characters, counted as [len] counts them (code points, not bytes).  It
    is built from a prefix of the matches, in order, joined by the
    two-character separator: some number [k] of leading matches is
    included whole, each of them fitting the budget together with
    everything before it, the separator being counted once for every
    element after the first.  Either these are all the matches, or the next
    match [m] does not fit whole; then, with [remaining] the space left
    after the separator, [m] contributes the prefix of exactly [remaining]
    characters when [remaining > 100] and nothing otherwise, and assembly
    stops.  [used_matches] is the list of the matches included, whole or
    truncated, in order. *)
Theorem build_context_within_budget (matches : list Match) :
  let context := (QueryProcessor._build_context matches).1 in
  let used_matches := (QueryProcessor._build_context matches).2 in
  Z.of_nat (str_len context) ≤ 32000
  ∧ ∃ k : nat,
      (k ≤ length matches)%nat
      ∧ (∀ j : nat, (j < k)%nat →
           context_length (m_content <$> take (S j) matches) ≤ 32000)
      ∧ let whole := take k matches in
        let total_chars := context_length (m_content <$> whole) in
        total_chars
          = Z.of_nat (sum_list_with str_len (m_content <$> whole))
            + 2 * Z.max 0 (Z.of_nat k - 1)
        ∧ ((k = length matches
            ∧ context = join SEPARATOR (m_content <$> matches)
            ∧ used_matches = matches)
           ∨ ∃ m, matches !! k = Some m
               ∧ total_chars + Z.of_nat (str_len (m_content m))
                 + separator_length whole > 32000
               ∧ let remaining :=
                   32000 - total_chars - separator_length whole in
                 let truncated :=
                   take_code_points (Z.to_nat remaining) (m_content m) in
                 (remaining > 100 →
                    context
                    = join SEPARATOR ((m_content <$> whole) ++ [truncated])
                    ∧ Z.of_nat (str_len truncated) = remaining
                    ∧ used_matches = whole ++ [m])
                 ∧ (remaining ≤ 100 →
                    context = join SEPARATOR (m_content <$> whole)
                    ∧ used_matches = whole)).
Proof.
  cbv zeta. unfold QueryProcessor._build_context.
  destruct (build_context_loop_spec matches [] [] 0 eq_refl)
    as (k & Hk & Hwhole & Hend).
  rewrite !app_nil_l in *.
  assert (Hmax : MAX_CONTEXT_CHARS = 32000) by done.
  rewrite Hmax in *.
  pose proof (whole_prefix_within_budget matches k) as Hprefix.
  rewrite Hmax in Hprefix. specialize (Hprefix Hwhole).
  assert (Hsum := context_length_sum (m_content <$> take k matches)).
  rewrite length_fmap, length_take, Nat.min_l in Hsum by done.
  destruct Hend as [[-> Hrun] | (m & Hm & Hbig & Hrun)].
  - rewrite Hrun. simpl. rewrite firstn_all in *. split; [done|].
    exists (length matches). rewrite firstn_all. eauto 10.
  - rewrite app_nil_l, context_length_snoc, separator_length_fmap in Hbig.
    rewrite ?app_nil_l in Hrun.
    rewrite Hrun. cbv zeta. rewrite separator_length_fmap.
    set (whole := take k matches) in *.
    set (total_chars := context_length (m_content <$> whole)) in *.
    set (remaining := 32000 - total_chars - separator_length whole) in *.
    assert (Hremaining :
              remaining = 32000 - total_chars - separator_length whole)
      by done.
    assert (Htotal : total_chars = context_length (m_content <$> whole))
      by done.
    clearbody remaining total_chars.
    assert (Htrunc : remaining > 100 →
              slice_to (m_content m) remaining
              = take_code_points (Z.to_nat remaining) (m_content m)
              ∧ Z.of_nat (str_len
                  (take_code_points (Z.to_nat remaining) (m_content m)))
                = remaining).
    { intros Hrem. unfold slice_to.
      destruct (Z.ltb_spec remaining 0); [lia|]. split; [done|].
      rewrite take_code_points_len. lia. }
    destruct (Z.gtb_spec remaining 100) as [Hrem|Hrem]; simpl.
    + destruct (Htrunc ltac:(lia)) as [-> Hlen]. split.
      * fold (context_length ((m_content <$> whole) ++
               [take_code_points (Z.to_nat remaining) (m_content m)])).
        rewrite context_length_snoc, separator_length_fmap, Hlen.
        rewrite <- Htotal. lia.
      * exists k. fold whole. rewrite <- !Htotal, <- !Hremaining.
        split; [done|]. split; [done|]. split; [done|].
        right. exists m. split; [done|]. split; [lia|].
        split; [done|]. lia.
    + split; [rewrite Htotal in Hprefix; exact Hprefix|].
      exists k. fold whole. rewrite <- !Htotal, <- !Hremaining.
      split; [done|]. split; [done|]. split; [done|].
      right. exists m. split; [done|]. split; [lia|].
      split; [lia|done].
Qed.

(** Two matches of 20000 characters: the second is cut to the 11998
    characters left after the separator, the context is full, and the third
    match is not reached. *)
Example build_context_truncates :
  let '(context, used_matches) :=
    QueryProcessor._build_context [long_match 20000; long_match 20000;
                                   long_match 5] in
  Z.of_nat (str_len context) = 32000
  ∧ Z.of_nat (length used_matches) = 2.
Proof. vm_compute. done. Qed.

(** The budget is counted in code points: a match of 20000 accented
    letters, 40000 bytes of UTF-8, is included whole, and the next one is
    cut to the 11998 letters left after the separator. *)
Example build_context_counts_code_points :
  let '(context, used_matches) :=
    QueryProcessor._build_context [accented_match 20000;
                                   accented_match 20000] in
  Z.of_nat (str_len context) = 32000
  ∧ Z.of_nat (String.length context) = 63998
  ∧ Z.of_nat (length used_matches) = 2.
Proof. vm_compute. done. Qed.

(** ** The retry helper *)

Section RetryProperties.
Context {T : Type}.
Variable pow : float → Z → result float.


End RetryProperties.

(** C5, at [max_retries = 0].  The helper reads its arguments with
    [max_retries or settings.max_retries]: an explicit zero counts as
    missing and the configured value takes its place.  Under the default
    configuration an operation that always fails is therefore invoked four
    times, with waits of 1, 2 and 4 seconds, where one invocation and no
    wait were asked for; in general a call with [max_retries = 0] behaves
    as the call without the argument. *)
Theorem retry_zero_max_retries_runs_configured_attempts :
  retry_with_backoff default_settings always_failing (Some 0) None None
    [ExceptionC] (mk_probe 0 [])
  = (Raise (mk_exn EmbeddingError "provider unavailable"),
     mk_probe 4 [1%float; 2%float; 4%float])
  ∧ ∀ (settings : Settings) (func : M Probe unit)
      (delay_arg multiplier_arg : option float) (exceptions : list exn_class),
      retry_with_backoff settings func (Some 0) delay_arg multiplier_arg
        exceptions
      = retry_with_backoff settings func None delay_arg multiplier_arg
          exceptions.
Proof. split; [by vm_compute|done]. Qed.

(** For a retry count of at least one the helper does what is asked: the
    operation failing on all attempts is invoked [N + 1] times. *)
Example retry_two_retries_three_attempts :
  retry_with_backoff default_settings always_failing (Some 2) None None
    [ExceptionC] (mk_probe 0 [])
  = (Raise (mk_exn EmbeddingError "provider unavailable"),
     mk_probe 3 [1%float; 2%float]).
Proof. by vm_compute. Qed.

(** ** Frame reasoning for the stateful services *)

Section Respects.
Context {W : Type} (R : relation W) `{!PreOrder R}.

Lemma respects_ret {A} (a : A) : respects R (ret a).
Proof. intros w. simpl. reflexivity. Qed.

Lemma respects_raise {A} (e : exn) : respects R (raise (A := A) e).
Proof. intros w. simpl. reflexivity. Qed.

Lemma respects_bind {A B} (c : M W A) (k : A → M W B) :
  respects R c → (∀ a, respects R (k a)) → respects R (bind c k).
Proof.
  intros Hc Hk w. unfold bind. specialize (Hc w).
  destruct (c w) as [[a|e] w']; simpl in *; [|done].
  by etrans; [|apply Hk].
Qed.

Lemma respects_try_except {A} (c : M W A) (classes : list exn_class)
    (handler : exn → M W A) :
  respects R c → (∀ e, respects R (handler e)) →
  respects R (try_except c classes handler).
Proof.
  intros Hc Hh w. unfold try_except. specialize (Hc w).
  destruct (c w) as [[a|e] w']; simpl in *; [done|].
  destruct (isinstance e classes); [|done].
  by etrans; [|apply Hh].
Qed.

Lemma respects_modify (f : W → W) :
  (∀ w, R w (f w)) → respects R (modify f).
Proof. intros Hf w. apply Hf. Qed.

Lemma respects_retry_loop `{!Runtime W} {T} (func : M W T)
    (max_retries : Z) (delay multiplier : float)
    (exceptions : list exn_class) :
  (∀ seconds, respects R (sleep seconds)) →
  (∀ lvl message w, R w (log lvl message w)) →
  respects R func →
  ∀ attempts last,
    respects R (retry_loop func max_retries delay multiplier exceptions
                  attempts last).
Proof.
  intros Hsleep Hlog Hfunc attempts.
  induction attempts as [|attempt rest IH]; intros last w; simpl.
  - reflexivity.
  - specialize (Hfunc w). destruct (func w) as [[v|e] w']; simpl in *; [done|].
    destruct (isinstance e exceptions); [|done].
    etrans; [exact Hfunc|].
    destruct (attempt <? max_retries).
    + destruct (power multiplier attempt) as [factor|error]; [|reflexivity].
      etrans; [apply Hlog|].
      lazymatch goal with
      | |- context [sleep ?seconds ?st] =>
          pose proof (Hsleep seconds st) as Hstep;
          destruct (sleep seconds st) as [[[]|error] st']
      end; simpl in *; [|done].
      etrans; [exact Hstep|apply IH].
    + etrans; [apply Hlog|apply IH].
Qed.

Lemma respects_retry_with_backoff `{!Runtime W} {T} (settings : Settings)
    (func : M W T) (max_retries_arg : option Z)
    (delay_arg multiplier_arg : option float) (exceptions : list exn_class) :
  (∀ seconds, respects R (sleep seconds)) →
  (∀ lvl message w, R w (log lvl message w)) →
  respects R func →
  respects R (retry_with_backoff settings func max_retries_arg delay_arg
                multiplier_arg exceptions).
Proof. intros ??? w. by apply respects_retry_loop. Qed.

End Respects.

Section ServiceFrames.
Context {S : Type} {lib : Library} {be : Backend S}.
Context (R : relation (World S)) `{!LogBackendFrame R}.

Lemma respects_logger lvl message : respects R (logger lvl message).
Proof. intros w. apply frame_logs. Qed.

Lemma respects_call {A} (c : M S A) : respects R (call c).
Proof.
  intros w. unfold call. destruct (c (backend w)) as [r s]. apply frame_backend.
Qed.

Lemma respects_require_client : respects R VectorDBService.require_client.
Proof.
  intros w. unfold VectorDBService.require_client.
  destruct (vector_client w); simpl; reflexivity.
Qed.

Lemma respects_upsert_chunks chunks embeddings document_id version :
  respects R
    (VectorDBService.upsert_chunks chunks embeddings document_id version).
Proof.
  unfold VectorDBService.upsert_chunks.
  apply (respects_bind R); [apply respects_require_client|intros _].
  destruct (negb _); [by apply (respects_raise R)|apply respects_call].
Qed.

Lemma respects_delete_document_chunks document_id :
  respects R (VectorDBService.delete_document_chunks document_id).
Proof.
  unfold VectorDBService.delete_document_chunks.
  apply (respects_bind R); [apply respects_require_client|intros _].
  apply respects_call.
Qed.

Lemma respects_search query_embedding top_k min_version :
  respects R (VectorDBService.search query_embedding top_k min_version).
Proof.
  unfold VectorDBService.search.
  apply (respects_bind R); [apply respects_require_client|intros _].
  apply (respects_bind R); [apply respects_call|intros points].
  by apply (respects_ret R).
Qed.

Lemma respects_generate_embeddings texts :
  respects R (EmbeddingService.generate_embeddings texts).
Proof.
  unfold EmbeddingService.generate_embeddings.
  apply (respects_try_except R); [apply respects_call|intros e].
  by apply (respects_raise R).
Qed.

Lemma respects_generate_embedding text :
  respects R (EmbeddingService.generate_embedding text).
Proof.
  unfold EmbeddingService.generate_embedding.
  apply (respects_bind R); [apply respects_generate_embeddings|].
  intros [|first rest]; [by apply (respects_raise R)|by apply (respects_ret R)].
Qed.

Lemma respects_generate_response query context document_ids :
  respects R (LLMService.generate_response query context document_ids).
Proof.
  intros w. unfold LLMService.generate_response.
  pose proof (respects_call
                (chat_completions_create query context document_ids) w)
    as Hcall.
  destruct (call _ w) as [[content|e] w']; simpl in *; [|done].
  by destruct (LLMService.parse_completion content).
Qed.

Lemma respects_world_sleep seconds :
  respects R (sleep (St := World S) seconds).
Proof. apply respects_call. Qed.

Lemma respects_world_log lvl message (w : World S) : R w (log lvl message w).
Proof. apply frame_logs. Qed.

Lemma respects_handle_delete event :
  respects R (EventProcessor._handle_delete event).
Proof.
  unfold EventProcessor._handle_delete.
  destruct (get_document_id event) as [[document_id|]|e];
    [|apply respects_logger|by apply (respects_raise R)].
  apply (respects_try_except R).
  - apply (respects_bind R); [apply respects_delete_document_chunks|].
    intros _. apply respects_logger.
  - intros e. apply (respects_bind R); [apply respects_logger|].
    intros _. by apply (respects_raise R).
Qed.

End ServiceFrames.

Global Instance only_logs_backend_frame {S} :
  LogBackendFrame (@only_logs_backend S).
Proof.
  split; [split| |]; unfold only_logs_backend.
  - by intros w.
  - intros w1 w2 w3 (-> & -> & -> & ->) (-> & -> & -> & ->). done.
  - by intros l [].
  - by intros s [].
Qed.

Global Instance same_counters_frame {S} : LogBackendFrame (@same_counters S).
Proof.
  split; [split| |]; unfold same_counters.
  - by intros w.
  - intros w1 w2 w3 (-> & ->) (-> & ->). done.
  - by intros l [].
  - by intros s [].
Qed.

Global Instance invalidates_frame {S} key :
  LogBackendFrame (@invalidates S key).
Proof.
  split; [split| |]; unfold invalidates.
  - intros w. by left.
  - intros w1 w2 w3 [H12 | (r & Hr & H12)] [H23 | (r' & Hr' & H23)].
    + left. congruence.
    + right. exists r'. split; congruence.
    + right. exists r. split; congruence.
    + right. exists r. split; [done|]. rewrite H23.
      rewrite H12 in Hr'. injection Hr' as <-. simpl.
      by rewrite delete_delete_eq.
  - intros l []. by left.
  - intros s []. by left.
Qed.

Global Instance stores_frame {S} key : LogBackendFrame (@stores S key).
Proof.
  split; [split| |]; unfold stores.
  - intros w. by left.
  - intros w1 w2 w3 [H12 | (r & v & t & Hr & H12)]
      [H23 | (r' & v' & t' & Hr' & H23)].
    + left. congruence.
    + right. exists r', v', t'. split; congruence.
    + right. exists r, v, t. split; congruence.
    + right. exists r, v', t'. split; [done|]. rewrite H23.
      rewrite H12 in Hr'. injection Hr' as <-. simpl.
      by rewrite insert_insert_eq.
  - intros l []. by left.
  - intros s []. by left.
Qed.

Section CacheFrames.
Context {S : Type} {lib : Library} {be : Backend S}.
Implicit Types w : World S.

Lemma cache_get_pure key w : ∃ v, CacheService.get key w = (Ok v, w).
Proof.
  unfold CacheService.get. destruct (cache_client w) as [client|]; [|eauto].
  destruct (CacheService.redis_get key client); eauto.
Qed.

Lemma cache_get_json_pure key w :
  ∃ r, CacheService.get_json (S := S) key w = (r, w).
Proof.
  unfold CacheService.get_json, bind.
  destruct (cache_get_pure key w) as [v ->].
  destruct v as [value|]; [|by eexists].
  destruct (negb _); [|by eexists].
  destruct (json_loads value) as [decoded|e]; [by eexists|].
  destruct (isinstance e [JSONDecodeError]); by eexists.
Qed.

Lemma respects_cache_delete key :
  respects (invalidates key) (CacheService.delete (S := S) key).
Proof.
  intros w. unfold CacheService.delete, invalidates.
  destruct (cache_client w) as [client|] eqn:Hc; simpl; [|naive_solver].
  unfold CacheService.redis_delete.
  destruct (redis_reachable client) eqn:Hr; simpl; [|naive_solver].
  right. exists client. by rewrite Hr.
Qed.

Lemma respects_cache_set_json settings key value ttl_arg :
  respects (stores key)
    (CacheService.set_json (S := S) settings key value ttl_arg).
Proof.
  intros w. unfold CacheService.set_json, CacheService.set, stores.
  destruct (cache_client w) as [client|] eqn:Hc; simpl; [|naive_solver].
  unfold CacheService.redis_setex.
  destruct (redis_reachable client) eqn:Hr; simpl; [|naive_solver].
  destruct (_ <=? 0); simpl; [naive_solver|].
  right. exists client, (json_dumps value),
    (or_int ttl_arg (CacheService.ttl settings)).
  by rewrite Hr.
Qed.

End CacheFrames.

(** ** The event processor *)

(** Every exception is an [Exception]. *)
Lemma isinstance_exception (e : exn) : isinstance e [ExceptionC] = true.
Proof.
  unfold isinstance, issubclass. simpl.
  by rewrite orb_true_r, orb_true_l.
Qed.

Section EventFrames.
Context {S : Type} {lib : Library} {be : Backend S}.
Context (R : relation (World S)) `{!LogBackendFrame R}.
Variable settings : Settings.

Lemma respects_create_or_update_body event document_id content version :
  respects R (CacheService.delete ("query:" +:+ py_str document_id)) →
  respects R (EventProcessor.create_or_update_body settings event document_id
                content version).
Proof.
  intros Hdelete. unfold EventProcessor.create_or_update_body.
  apply (respects_bind R).
  { destruct content; by (apply (respects_ret R) || apply (respects_raise R)). }
  intros [|chunk chunks]; [apply (respects_logger R)|].
  apply (respects_bind R).
  { apply (respects_retry_with_backoff R);
      [apply respects_world_sleep; done|apply respects_world_log; done|].
    apply (respects_generate_embeddings R). }
  intros embeddings. apply (respects_bind R).
  { apply (respects_retry_with_backoff R);
      [apply respects_world_sleep; done|apply respects_world_log; done|].
    apply (respects_upsert_chunks R). }
  intros _. apply (respects_bind R); [apply (respects_call R)|intros _].
  apply (respects_bind R); [apply (respects_call R)|intros _].
  apply (respects_bind R); [apply (respects_call R)|intros _].
  apply (respects_bind R); [exact Hdelete|intros _].
  apply (respects_logger R).
Qed.

Lemma respects_handle_create_or_update event :
  respects R (CacheService.delete
                (invalidation_key (default [] (after event)))) →
  respects R (EventProcessor._handle_create_or_update settings event).
Proof.
  intros Hdelete. unfold EventProcessor._handle_create_or_update.
  destruct (after event) as [[|field fields]|];
    [apply (respects_logger R)| |apply (respects_logger R)].
  destruct (_ || _); [apply (respects_logger R)|].
  apply (respects_try_except R).
  - by apply respects_create_or_update_body.
  - intros e. apply (respects_bind R); [apply (respects_logger R)|intros _].
    apply (respects_raise R).
Qed.

Lemma respects_dispatch event :
  (String.eqb (op event) "d" = false →
   respects R (CacheService.delete
                 (invalidation_key (default [] (after event))))) →
  respects R (dispatch settings event).
Proof.
  intros Hdelete. unfold dispatch.
  destruct (String.eqb (op event) "d");
    [apply (respects_handle_delete R)|].
  destruct (_ || _); [by apply respects_handle_create_or_update, Hdelete|].
  apply (respects_logger R).
Qed.

End EventFrames.

Section EventProcessorProperties.
Context {S : Type} {lib : Library} {be : Backend S}.
Variable settings : Settings.
Implicit Types w : World S.

(** Parsing either drops the event, logging a warning, or leaves the world
    as it is. *)
Lemma parse_event_cases (event_data : pydict) w :
  let fields := document_fields event_data in
  let op_value := EventProcessor.event_op event_data in
  let ts_value :=
    if truthy_opt (EventProcessor.event_ts_ms event_data)
    then default JNull (EventProcessor.event_ts_ms event_data)
    else JInt (time_ms (backend w)) in
  EventProcessor._parse_event event_data w =
  match fields with
  | [] =>
      (Ok None,
       set_logs (logs w ++ [(WARNING,
                             "Event data is empty after filtering, skipping")])
                w)
  | _ :: _ =>
      (match EventProcessor.make_event op_value
               (if json_eq_str op_value "d" then Some fields else None)
               (if json_eq_str op_value "d" then None else Some fields)
               ts_value with
       | Ok event => Ok (Some event)
       | Raise e => Raise e
       end, w)
  end.
Proof.
  cbv zeta. unfold EventProcessor._parse_event, document_fields.
  rewrite dict_comprehension_filter, app_nil_l.
  destruct (List.filter _ event_data) as [|field fields]; [done|].
  destruct (json_eq_str _ "d"); by destruct (EventProcessor.make_event _ _ _ _).
Qed.

(** [process_event] in terms of its three stages: parsing, the counter and
    the dispatch, and the handler of the [except] clause. *)
Lemma process_event_cases (event_data : pydict) w :
  EventProcessor.process_event settings event_data w =
  match EventProcessor._parse_event event_data w with
  | (Raise e, w0) => (Raise e, record_failure e w0)
  | (Ok None, w0) => (Ok (), w0)
  | (Ok (Some event), w0) =>
      match dispatch settings event
              (set_updates_total (updates_total w0 + 1) w0) with
      | (Ok (), w1) => (Ok (), w1)
      | (Raise e, w1) => (Raise e, record_failure e w1)
      end
  end.
Proof.
  unfold EventProcessor.process_event, try_except, bind at 1.
  destruct (EventProcessor._parse_event event_data w) as [[[event|]|e] w0].
  - unfold bind, inc_updates_total, modify. fold (dispatch settings event).
    destruct (dispatch settings event _) as [[[]|e] w1]; [done|].
    by rewrite isinstance_exception.
  - done.
  - by rewrite isinstance_exception.
Qed.

Lemma respects_cache_delete_counters key :
  respects same_counters (CacheService.delete (S := S) key).
Proof.
  intros w. unfold CacheService.delete.
  destruct (cache_client w) as [client|]; [|done].
  by destruct (CacheService.redis_delete key client).
Qed.

(** C8, as amended.  [updates_total] increases by exactly one when the
    payload parses to an event, and then it does so before the dispatch,
    whatever the handler does afterwards (drop the event, fail, succeed);
    it is unchanged when parsing drops the payload or raises.
    [update_errors_total] increases by exactly one in every invocation that
    raises, and is unchanged in every invocation that returns. *)
Theorem process_event_counters (event_data : pydict) w :
  let parsed := (EventProcessor._parse_event event_data w).1 in
  let outcome := (EventProcessor.process_event settings event_data w).1 in
  let w' := (EventProcessor.process_event settings event_data w).2 in
  updates_total w'
    = updates_total w + (match parsed with Ok (Some _) => 1 | _ => 0 end)
  ∧ update_errors_total w'
    = update_errors_total w + (if is_raise outcome then 1 else 0).
Proof.
  cbv zeta. rewrite process_event_cases.
  assert (Hparse : same_counters w (EventProcessor._parse_event event_data w).2).
  { rewrite parse_event_cases. by destruct (document_fields event_data). }
  destruct (EventProcessor._parse_event event_data w) as [[[event|]|e] w0];
    simpl in *; destruct Hparse as [Hu He].
  - pose proof (respects_dispatch same_counters settings event
                  (λ _, respects_cache_delete_counters _)
                  (set_updates_total (updates_total w0 + 1) w0)) as [Hu' He'].
    destruct (dispatch settings event _) as [[[]|e] w1]; simpl in *; lia.
  - lia.
  - lia.
Qed.

(** Stripping the metadata keys does not change what an ordinary key is
    bound to. *)
Lemma dict_get_document_fields (k : string) (event_data : pydict) :
  is_meta_key k = false →
  dict_get k (document_fields event_data) = dict_get k event_data.
Proof.
  intros Hk. unfold document_fields.
  induction event_data as [|[k' v] d IH]; simpl; [done|].
  destruct (String.eqb_spec k' k) as [->|Hne].
  - rewrite Hk. simpl. by rewrite String.eqb_refl.
  - destruct (negb (is_meta_key k')); simpl; [|done].
    by destruct (String.eqb_spec k' k).
Qed.

Lemma document_fields_no_meta_key (event_data : pydict) :
  Forall (λ kv, String.prefix "__" kv.1 = false) (document_fields event_data).
Proof.
  unfold document_fields. apply Forall_forall. intros kv Hin.
  apply list_elem_of_In, filter_In in Hin as [_ Hkeep].
  by apply negb_true_iff in Hkeep.
Qed.

(** A parsed event carries the document fields on the side its operation
    selects. *)
Lemma parse_event_sides (event_data : pydict) w event :
  (EventProcessor._parse_event event_data w).1 = Ok (Some event) →
  (EventProcessor._parse_event event_data w).2 = w
  ∧ EventProcessor.event_op event_data = JStr (op event)
  ∧ before event
    = (if String.eqb (op event) "d" then Some (document_fields event_data)
       else None)
  ∧ after event
    = (if String.eqb (op event) "d" then None
       else Some (document_fields event_data)).
Proof.
  rewrite parse_event_cases. cbv zeta.
  destruct (document_fields event_data) as [|field fields]; [done|].
  unfold EventProcessor.make_event. simpl.
  destruct (EventProcessor.event_op event_data); try done.
  destruct (validate_int _); [|done].
  intros [= <-]. done.
Qed.

(** The two key spaces of the cache never meet. *)
Lemma invalidation_key_is_no_query_key (document_id query : string) :
  "query:" +:+ document_id ≠ QueryProcessor._get_cache_key query.
Proof. unfold QueryProcessor._get_cache_key. simpl. by intros [=]. Qed.

Lemma invalidates_keeps_query_keys (document_id : string) w w' :
  invalidates ("query:" +:+ document_id) w w' →
  ∀ query,
    cached w' (QueryProcessor._get_cache_key query)
    = cached w (QueryProcessor._get_cache_key query).
Proof.
  intros [Hsame | (r & Hr & Hdel)] query; unfold cached.
  - by rewrite Hsame.
  - rewrite Hr, Hdel. simpl.
    by apply lookup_delete_ne, invalidation_key_is_no_query_key.
Qed.

Lemma invalidates_counters key v w :
  invalidates key w (set_updates_total v w)
  ∧ invalidates key w (set_update_errors_total v w).
Proof. split; by left. Qed.

Lemma process_event_invalidates (event_data : pydict) w :
  invalidates (invalidation_key event_data) w
    (EventProcessor.process_event settings event_data w).2.
Proof.
  rewrite process_event_cases.
  assert (Hrecord : ∀ e w0, invalidates (invalidation_key event_data) w0
                              (record_failure e w0)).
  { intros e w0. by left. }
  pose proof (parse_event_cases event_data w) as Hparse. cbv zeta in Hparse.
  destruct (EventProcessor._parse_event event_data w) as [[[event|]|e] w0]
    eqn:Hrun; simpl.
  - destruct (parse_event_sides event_data w event) as (Hw & _ & _ & Hafter);
      [by rewrite Hrun|].
    rewrite Hrun in Hw. simpl in Hw. subst w0.
    pose proof (respects_dispatch (invalidates (invalidation_key event_data))
                  settings event) as Hdispatch.
    specialize (Hdispatch ltac:(
      intros Hop; rewrite Hafter, Hop; simpl; unfold invalidation_key;
      rewrite dict_get_document_fields by done;
      apply respects_cache_delete)).
    specialize (Hdispatch (set_updates_total (updates_total w + 1) w)).
    assert (Hstep : invalidates (invalidation_key event_data) w
                      (dispatch settings event
                         (set_updates_total (updates_total w + 1) w)).2).
    { etrans; [|exact Hdispatch]. by left. }
    destruct (dispatch settings event _) as [[[]|e] w1]; simpl in *; [done|].
    etrans; [exact Hstep|apply Hrecord].
  - destruct (document_fields event_data); simplify_eq; by left.
  - destruct (document_fields event_data); simplify_eq. apply Hrecord.
Qed.

End EventProcessorProperties.

(** ** The query processor *)

Section QueryFrames.
Context {S : Type} {lib : Library} {be : Backend S}.
Context (R : relation (World S)) `{!LogBackendFrame R}.
Variable settings : Settings.

Lemma respects_get_json key :
  respects R (CacheService.get_json (S := S) key).
Proof.
  intros w. destruct (cache_get_json_pure key w) as [v ->]. reflexivity.
Qed.

Lemma respects_process_query (query : string) (top_k page page_size : Z) :
  (∀ value ttl_arg,
     respects R (CacheService.set_json settings
                   (QueryProcessor._get_cache_key query) value ttl_arg)) →
  respects R (QueryProcessor.process_query settings query top_k page
                page_size).
Proof.
  intros Hset. unfold QueryProcessor.process_query.
  apply (respects_bind R); [apply respects_get_json|intros cached_response].
  destruct (truthy_opt cached_response).
  { apply (respects_bind R); [apply (respects_logger R)|intros _].
    apply (respects_ret R). }
  apply (respects_bind R); [apply (respects_generate_embedding R)|].
  intros query_embedding.
  apply (respects_bind R); [apply (respects_search R)|].
  intros [|m matches]; [apply (respects_ret R)|].
  destruct (QueryProcessor._build_context _) as [context used_matches].
  apply (respects_bind R); [apply (respects_generate_response R)|].
  intros structured_response.
  destruct (QueryProcessor._paginate_sources _ _ _)
    as [[paginated_sources pagination]|e]; [|apply (respects_raise R)].
  apply (respects_bind R); [apply Hset|intros _]. apply (respects_ret R).
Qed.

End QueryFrames.

Section QueryProcessorProperties.
Context {S : Type} {lib : Library} {be : Backend S}.
Variable settings : Settings.
Implicit Types w : World S.

(** C6. When the cache lookup for the query misses ([get_json] returns
    [None] or another falsy value) and the vector search returns no match,
    [process_query] returns exactly
    [{answer: "I couldn't find relevant information to answer your
    question.", sources: [], confidence: 0.0, is_complete: false}] and
    writes nothing to the cache: the cache, the counters and the vector
    store client are as they were, only the log and the backend may have
    moved (by the embedding and the search calls). *)
Theorem no_match_response_is_not_cached
    (query : string) (top_k page page_size : Z) w w'
    (cached : option json) :
  (CacheService.get_json (QueryProcessor._get_cache_key query) w).1
    = Ok cached →
  truthy_opt cached = false →
  (let! query_embedding := EmbeddingService.generate_embedding query in
   VectorDBService.search query_embedding top_k None) w = (Ok [], w') →
  QueryProcessor.process_query settings query top_k page page_size w
    = (Ok (JObj [("answer",
                  JStr "I couldn't find relevant information to answer your question.");
                 ("sources", JArr []);
                 ("confidence", JFloat 0%float);
                 ("is_complete", JBool false)]),
       w')
  ∧ cache_client w' = cache_client w
  ∧ updates_total w' = updates_total w
  ∧ update_errors_total w' = update_errors_total w
  ∧ vector_client w' = vector_client w.
Proof.
  intros Hlookup Hmiss Hsearch. split.
  - unfold QueryProcessor.process_query.
    unfold bind at 1.
    destruct (cache_get_json_pure (QueryProcessor._get_cache_key query) w)
      as [v Hget].
    rewrite Hget in *. simpl in Hlookup. subst v. rewrite Hmiss.
    unfold bind in *.
    destruct (EmbeddingService.generate_embedding query w)
      as [[query_embedding|e] w1]; [|done].
    destruct (VectorDBService.search query_embedding top_k None w1)
      as [[matches|e] w2]; [|done].
    by injection Hsearch as -> ->.
  - assert (Hframe : only_logs_backend w w').
    { replace w' with
        ((let! query_embedding := EmbeddingService.generate_embedding query in
          VectorDBService.search query_embedding top_k None) w).2
        by by rewrite Hsearch.
      apply (respects_bind only_logs_backend);
        [apply (respects_generate_embedding only_logs_backend)|].
      intros e. apply (respects_search only_logs_backend). }
    destruct Hframe as (? & ? & ? & ?). done.
Qed.

End QueryProcessorProperties.

Lemma no_match_response_witness :
  QueryProcessor.process_query (lib := stub_library) (be := stub_backend)
    default_settings "What is RAG?" 5 1 10 stub_world
  = (Ok NO_MATCH_RESPONSE, stub_world).
Proof.
  apply (no_match_response_is_not_cached (lib := stub_library)
           (be := stub_backend) default_settings "What is RAG?" 5 1 10
           stub_world stub_world None); reflexivity.
Defined.

(** ** The two key spaces of the cache *)

Section CacheKeys.
Context {S : Type} {lib : Library} {be : Backend S}.
Variable settings : Settings.
Implicit Types w : World S.

(** C9. Processing an event, with whatever outcome, leaves the cache as
    it was or deletes from it the one key ["query:{document_id}"]; the
    query path stores a response only under
    ["query_response:v2:{md5(query)}"]; the two keys differ for every
    document identifier and every query; hence every cached query response
    is the same after the event as before, and only its time to live can
    remove it. *)
Theorem update_path_keeps_cached_query_responses (event_data : pydict) w :
  let w' := (EventProcessor.process_event settings event_data w).2 in
  let document_id := py_str (default JNull (dict_get "id" event_data)) in
  (cache_client w' = cache_client w
   ∨ ∃ r, cache_client w = Some r
       ∧ cache_client w'
         = Some (mk_redis (base.delete ("query:" +:+ document_id)
                             (redis_store r))
                          (redis_reachable r)))
  ∧ (∀ (query : string) (top_k page page_size : Z) (w0 : World S),
       let w1 := (QueryProcessor.process_query settings query top_k page
                    page_size w0).2 in
       cache_client w1 = cache_client w0
       ∨ ∃ r value seconds,
           cache_client w0 = Some r
           ∧ cache_client w1
             = Some (mk_redis
                       (<["query_response:v2:" +:+ md5_hexdigest query
                          := (value, seconds)]> (redis_store r))
                       (redis_reachable r)))
  ∧ (∀ any_document_id query : string,
       "query:" +:+ any_document_id
       ≠ "query_response:v2:" +:+ md5_hexdigest query)
  ∧ (∀ query : string,
       cached w' ("query_response:v2:" +:+ md5_hexdigest query)
       = cached w ("query_response:v2:" +:+ md5_hexdigest query)).
Proof.
  cbv zeta. split; [apply (process_event_invalidates settings)|].
  split; [|split].
  - intros query top_k page page_size w0.
    apply (respects_process_query (stores (QueryProcessor._get_cache_key query))
             settings query top_k page page_size).
    intros value ttl_arg. apply respects_cache_set_json.
  - intros d q. apply (invalidation_key_is_no_query_key d q).
  - intros q.
    apply (invalidates_keeps_query_keys
             (py_str (default JNull (dict_get "id" event_data))) w _
             (process_event_invalidates settings event_data w) q).
Qed.

End CacheKeys.

(** ** Delete events *)

Section DeleteEvents.
Context {S : Type} {lib : Library} {be : Backend S}.
Variable settings : Settings.
Implicit Types w : World S.

(** C10. For a delete event (the payload parses to an event with
    operation ["d"]), the document fields are bound to [before].  If they
    have no ["id"] key, [process_event] logs the warning and returns
    normally: besides that log line and the count of the event nothing
    changes and no error is recorded, and the consumer loop sends nothing
    to the dead-letter topic.  If ["id"] is present and [UUID] rejects its
    value, extracting the document identifier raises and [process_event]
    raises the same exception, having recorded the failure, without calling
    the vector store; the consumer loop catches it and, the dead-letter
    sink being enabled and connected, appends the payload and the error
    message to the dead-letter topic.  The two cases leave [process_event]
    on different paths. *)
Theorem delete_event_missing_or_malformed_id
    (event_data : pydict) w (event : DocumentEvent) (offset partition : Z) :
  (EventProcessor._parse_event event_data w).1 = Ok (Some event) →
  op event = "d" →
  let fields := document_fields event_data in
  let counted := set_updates_total (updates_total w + 1) w in
  let warned :=
    set_logs (logs counted ++ [(WARNING, "Delete event missing document ID")])
             counted in
  let message := mk_message (JObj event_data) offset partition in
  before event = Some fields
  ∧ after event = None
  ∧ (dict_get "id" fields = None →
     EventProcessor.process_event settings event_data w = (Ok (), warned)
     ∧ (dict_contains "payload" event_data = false →
        UpdateService.consume_message settings message w = (Ok (), warned)))
  ∧ (∀ id e, dict_get "id" fields = Some id → UUID id = Raise e →
     get_document_id event = Raise e
     ∧ EventProcessor.process_event settings event_data w
       = (Raise e, record_failure e counted)
     ∧ (dict_contains "payload" event_data = false →
        ∀ producer,
          dlq_enabled settings = true →
          dlq_producer w = Some producer →
          producer_reachable producer = true →
          ∃ w', UpdateService.consume_message settings message w = (Ok (), w')
            ∧ dlq_producer w'
              = Some (mk_producer
                        (producer_sent producer
                         ++ [(dlq_topic settings,
                              mk_dlq_message event_data (exn_msg e)
                                (kafka_topic_documents settings)
                                (Some offset) (Some partition)
                                (time_time (backend w)))])
                        true)
            ∧ cache_client w' = cache_client w
            ∧ vector_client w' = vector_client w
            ∧ backend w' = backend w)).
Proof.
  intros Hparse Hop. cbv zeta.
  destruct (parse_event_sides event_data w event Hparse)
    as (Hw & _ & Hbefore & Hafter).
  rewrite Hop in Hbefore, Hafter. simpl in Hbefore, Hafter.
  split; [done|]. split; [done|].
  assert (Hid : get_document_id event
                = match dict_get "id" (document_fields event_data) with
                  | Some id =>
                      match UUID id with
                      | Ok u => Ok (Some u)
                      | Raise e => Raise e
                      end
                  | None => Ok None
                  end).
  { unfold get_document_id. rewrite Hbefore, Hafter. simpl.
    by destruct (document_fields event_data). }
  assert (Hrun : EventProcessor.process_event settings event_data w
                 = match EventProcessor._handle_delete event
                           (set_updates_total (updates_total w + 1) w) with
                   | (Ok (), w1) => (Ok (), w1)
                   | (Raise e, w1) => (Raise e, record_failure e w1)
                   end).
  { rewrite process_event_cases.
    destruct (EventProcessor._parse_event event_data w) as [r w0].
    simpl in Hparse, Hw. subst r w0. unfold dispatch. by rewrite Hop. }
  assert (Hloop : ∀ fields_have_no_payload : dict_contains "payload" event_data = false,
            UpdateService.unwrap_payload (JObj event_data) = JObj event_data).
  { intros Hno. unfold UpdateService.unwrap_payload. by rewrite Hno. }
  split.
  - intros Hnone.
    assert (Hevent : EventProcessor.process_event settings event_data w
              = (Ok (), set_logs
                          (logs (set_updates_total (updates_total w + 1) w)
                           ++ [(WARNING, "Delete event missing document ID")])
                          (set_updates_total (updates_total w + 1) w))).
    { rewrite Hrun. unfold EventProcessor._handle_delete.
      by rewrite Hid, Hnone. }
    split; [done|]. intros Hno.
    unfold UpdateService.consume_message, try_except. cbn [msg_value].
    rewrite (Hloop Hno). cbv beta iota. by rewrite Hevent.
  - intros id e Hsome Hraise. rewrite Hid, Hsome, Hraise. split; [done|].
    assert (Hevent : EventProcessor.process_event settings event_data w
              = (Raise e, record_failure e
                            (set_updates_total (updates_total w + 1) w))).
    { rewrite Hrun. unfold EventProcessor._handle_delete.
      by rewrite Hid, Hsome, Hraise. }
    split; [done|]. intros Hno producer Henabled Hproducer Hreach.
    unfold UpdateService.consume_message, try_except at 1. cbn [msg_value].
    rewrite (Hloop Hno). cbv beta iota.
    rewrite Hevent, isinstance_exception.
    unfold bind, logger, modify, try_except.
    unfold DLQService.send_failed_event, DLQService.enabled,
      DLQService.send_and_wait.
    rewrite Henabled. simpl. rewrite Hproducer. simpl.
    eexists. rewrite Hreach. simpl. split; [reflexivity|]. done.
Qed.

End DeleteEvents.

Lemma delete_event_malformed_id_witness :
  EventProcessor.process_event (lib := stub_library) (be := stub_backend)
    default_settings
    [("__deleted", JStr "true"); ("id", JStr "not-a-uuid")] stub_world
  = (Raise (mk_exn ValueError "badly formed hexadecimal UUID string"),
     record_failure
       (mk_exn ValueError "badly formed hexadecimal UUID string")
       (set_updates_total 1 stub_world)).
Proof.
  destruct (delete_event_missing_or_malformed_id (lib := stub_library)
              (be := stub_backend) default_settings
              [("__deleted", JStr "true"); ("id", JStr "not-a-uuid")]
              stub_world
              (mk_event "d" (Some [("id", JStr "not-a-uuid")]) None (Some [])
                        (Some 1700000000000))
              42 0 eq_refl eq_refl) as (_ & _ & _ & Hmalformed).
  exact (proj1 (proj2 (Hmalformed (JStr "not-a-uuid") _ eq_refl eq_refl))).
Defined.

(** ** Event normalization *)

Section Normalization.
Context {S : Type} {lib : Library} {be : Backend S}.
Variable settings : Settings.
Implicit Types w : World S.

Lemma event_op_normalized (event_data : pydict) :
  EventProcessor.event_op event_data = normalized_op event_data.
Proof.
  unfold EventProcessor.event_op, normalized_op.
  destruct (opt_json_eq_str _ _); [done|].
  by destruct (dict_get "__op" event_data).
Qed.

(** C2, as amended.  The operation is taken from ["__op"] when that key is
    present with a truthy value, else from ["op"] if present, else it is
    ["c"]; a payload that maps ["__deleted"] to ["true"] has operation
    ["d"] whatever its operation fields say.  The document fields are the
    items whose key does not begin with ["__"]; no other key reaches
    [before] or [after].  When no field remains the payload is dropped:
    parsing yields no event and [process_event] returns with nothing but
    the warning logged.  Otherwise, when the operation is a string and the
    timestamp validates, parsing yields the event with that operation, the
    fields bound to [before] alone for ["d"] and to [after] alone for any
    other operation; when either validation fails, parsing raises a
    [ValidationError]. *)
Theorem parse_event_normalization (event_data : pydict) w :
  let fields := document_fields event_data in
  let dropped :=
    set_logs (logs w ++ [(WARNING,
                          "Event data is empty after filtering, skipping")])
             w in
  Forall (λ kv, String.prefix "__" kv.1 = false) fields
  ∧ (dict_get "__deleted" event_data = Some (JStr "true") →
     normalized_op event_data = JStr "d")
  ∧ (fields = [] →
     EventProcessor._parse_event event_data w = (Ok None, dropped)
     ∧ EventProcessor.process_event settings event_data w = (Ok (), dropped))
  ∧ (fields ≠ [] →
     ∀ op_str ts,
       normalized_op event_data = JStr op_str →
       validate_int (normalized_ts event_data w) = Some ts →
       EventProcessor._parse_event event_data w
       = (Ok (Some (mk_event op_str
                      (if String.eqb op_str "d" then Some fields else None)
                      (if String.eqb op_str "d" then None else Some fields)
                      (Some []) (Some ts))),
          w))
  ∧ (fields ≠ [] →
     (∀ op_str, normalized_op event_data ≠ JStr op_str)
     ∨ validate_int (normalized_ts event_data w) = None →
     ∃ e, EventProcessor._parse_event event_data w = (Raise e, w)
          ∧ exn_cls e = ValidationError).
Proof.
  cbv zeta. split; [apply document_fields_no_meta_key|].
  split; [by intros Hdel; unfold normalized_op; rewrite Hdel|].
  pose proof (parse_event_cases event_data w) as Hparse. cbv zeta in Hparse.
  rewrite event_op_normalized in Hparse. fold (normalized_ts event_data w) in Hparse.
  split; [|split].
  - intros Hnil. rewrite Hnil in Hparse. split; [done|].
    by rewrite process_event_cases, Hparse.
  - intros Hcons op_str ts Hop Hts. rewrite Hparse.
    destruct (document_fields event_data) as [|field fields]; [done|].
    unfold EventProcessor.make_event. by rewrite Hop, Hts.
  - intros Hcons Hbad. rewrite Hparse.
    destruct (document_fields event_data) as [|field fields]; [done|].
    unfold EventProcessor.make_event.
    destruct Hbad as [Hop | Hts].
    + destruct (normalized_op event_data) eqn:Hv;
        try (by eexists; split).
      by destruct (Hop s).
    + rewrite Hts. destruct (normalized_op event_data); by eexists; split.
Qed.

End Normalization.

(** C2, as stated, fails on a payload whose ["__op"] is present and empty:
    the claim takes the operation from ["__op"], the code falls through to
    ["op"] and processes a delete. *)
Lemma parse_event_skips_empty_meta_op :
  let event_data :=
    [("__op", JStr ""); ("op", JStr "d"); ("title", JStr "t")] in
  claimed_op event_data = JStr ""
  ∧ EventProcessor.event_op event_data ≠ claimed_op event_data
  ∧ (EventProcessor._parse_event (lib := stub_library) (be := stub_backend)
       event_data stub_world).1
    = Ok (Some (mk_event "d" (Some [("op", JStr "d"); ("title", JStr "t")])
                         None (Some []) (Some 1700000000000))).
Proof. done. Qed.

(** C8, as stated, fails on a payload that carries metadata keys only: the
    event is dropped by parsing, before the counter is reached. *)
Lemma dropped_event_is_not_counted :
  let run :=
    EventProcessor.process_event (lib := stub_library) (be := stub_backend)
      default_settings
      [("__op", JStr "u"); ("__source_ts_ms", JInt 1700000000000)]
      stub_world in
  run.1 = Ok ()
  ∧ updates_total run.2 = updates_total stub_world
  ∧ updates_total run.2 ≠ updates_total stub_world + 1.
Proof. done. Qed.

(** ** End-to-end scenarios *)

(** A create event without an identifier is dropped with a warning: it is
    counted, nothing fails and nothing reaches the dead-letter topic. *)
Example create_without_id_is_dropped :
  let run :=
    UpdateService.consume_message (lib := stub_library) (be := stub_backend)
      default_settings
      (mk_message (JObj [("op", JStr "c"); ("content", JStr "text")]) 7 0)
      stub_world in
  run.1 = Ok ()
  ∧ updates_total run.2 = 1
  ∧ update_errors_total run.2 = 0
  ∧ logs run.2 = [(WARNING, "Event missing required fields")]
  ∧ dlq_producer run.2 = dlq_producer stub_world.
Proof. done. Qed.

(** A create event whose embedding fails on every attempt: the provider is
    called four times, the failure is recorded, and the consumer loop sends
    one message to the dead-letter topic. *)
Example embedding_failure_reaches_dead_letter_topic :
  let event_data :=
    [("id", JStr "11111111-1111-1111-1111-111111111111");
     ("content", JStr "RAG stands for Retrieval-Augmented Generation.")] in
  let run :=
    UpdateService.consume_message (lib := stub_library)
      (be := failing_embeddings_backend) default_settings
      (mk_message (JObj event_data) 7 0) failing_embeddings_world in
  run.1 = Ok ()
  ∧ backend run.2 = 4%nat
  ∧ updates_total run.2 = 1
  ∧ update_errors_total run.2 = 1
  ∧ dlq_producer run.2
    = Some (mk_producer
              [("documents.dlq",
                mk_dlq_message event_data
                  "Failed to generate embeddings: provider unavailable"
                  "documents.public.documents" (Some 7) (Some 0)
                  1700000000%float)]
              true).
Proof. vm_compute. done. Qed.

(** A created document is chunked, embedded and upserted; the invalidation
    deletes ["query:{id}"] and leaves a cached query response in place. *)
Example create_keeps_cached_response :
  let cache :=
    mk_redis {["query_response:v2:What is RAG?" := ("{}", 3600)]} true in
  let run :=
    EventProcessor.process_event (lib := stub_library) (be := stub_backend)
      default_settings
      [("id", JStr "11111111-1111-1111-1111-111111111111");
       ("content", JStr "RAG stands for Retrieval-Augmented Generation.")]
      (set_cache_client (Some cache) stub_world) in
  run.1 = Ok ()
  ∧ cached run.2 (QueryProcessor._get_cache_key (lib := stub_library)
                    "What is RAG?")
    = Some ("{}", 3600).
Proof. vm_compute. done. Qed.

(** * Part III: further properties *)

(** ** The retry helper, continued *)

Section RetryBounds.
Context {T : Type}.


End RetryBounds.


(** The power of a wait overflows: with a multiplier of [1e200] the third
    attempt asks for [1e200 ** 2]; the [OverflowError] leaves the call after
    three invocations and two waits, and it is not what the operation
    raised. *)
Example retry_power_overflow_leaves_the_call :
  retry_with_backoff default_settings always_failing (Some 5) None
    (Some 1e200%float) [ExceptionC] (mk_probe 0 [])
  = (Raise (mk_exn OverflowError "(34, 'Numerical result out of range')"),
     mk_probe 3 [1%float; 1e200%float]).
Proof. by vm_compute. Qed.

(** X2. When the retry count in effect is negative the loop body never
    runs: the operation is not invoked, nothing is logged or waited for, and
    the final [raise last_exception] raises [None], which Python turns into
    a [TypeError]. *)
Theorem retry_negative_count_never_invokes {St : Type} `{!Runtime St}
    {T : Type} (settings : Settings) (func : M St T)
    (max_retries_arg : option Z) (delay_arg multiplier_arg : option float)
    (exceptions : list exn_class) (st : St) :
  or_int max_retries_arg settings.(max_retries) < 0 →
  retry_with_backoff settings func max_retries_arg delay_arg multiplier_arg
    exceptions st
  = (Raise (mk_exn TypeError "exceptions must derive from BaseException"), st).
Proof.
  intros Hneg. unfold retry_with_backoff, range.
  replace (Z.to_nat (or_int max_retries_arg (max_retries settings) + 1))
    with 0%nat by lia.
  done.
Qed.

Lemma retry_negative_count_witness :
  retry_with_backoff default_settings always_failing (Some (-1)) None None
    [ExceptionC] (mk_probe 0 [])
  = (Raise (mk_exn TypeError "exceptions must derive from BaseException"),
     mk_probe 0 []).
Proof.
  apply (retry_negative_count_never_invokes default_settings always_failing
           (Some (-1)) None None [ExceptionC] (mk_probe 0 [])).
  done.
Defined.


(** ** The cache, continued *)

Section CacheProperties.
Context {S : Type} {lib : Library}.
Variable settings : Settings.
Implicit Types w : World S.

(** X3. The reads of the cache fail open, but for one path.  [get]
    never raises and never changes the world, and [get_json] never changes
    it either.  [get_json] returns [None] when no client is set, when the
    server cannot be reached, when the key is absent, when the stored text
    is empty and when [json.loads] rejects it with a [JSONDecodeError]; it
    returns the decoded value when [json.loads] succeeds.  It raises
    exactly when [json.loads] raises, on the stored text, an exception that
    is no [JSONDecodeError] (a [RecursionError] on deeply nested text):
    that exception is not caught and reaches the caller. *)
Theorem cache_get_json_outcomes (key : string) w :
  (∃ v, CacheService.get key w = (Ok v, w))
  ∧ (CacheService.get_json key w).2 = w
  ∧ (cache_client w = None → (CacheService.get_json key w).1 = Ok None)
  ∧ (∀ r, cache_client w = Some r →
       (redis_reachable r = false →
        (CacheService.get_json key w).1 = Ok None)
       ∧ (redis_reachable r = true →
          (CacheService.get_json key w).1
          = match redis_store r !! key with
            | Some (text, _) =>
                if String.eqb text "" then Ok None
                else match json_loads text with
                     | Ok decoded => Ok (Some decoded)
                     | Raise e =>
                         if isinstance e [JSONDecodeError] then Ok None
                         else Raise e
                     end
            | None => Ok None
            end))
  ∧ (∀ e, (CacheService.get_json key w).1 = Raise e →
       isinstance e [JSONDecodeError] = false
       ∧ ∃ r text seconds,
           cache_client w = Some r
           ∧ redis_store r !! key = Some (text, seconds)
           ∧ json_loads text = Raise e).
Proof.
  split; [apply cache_get_pure|].
  split.
  { destruct (cache_get_json_pure key w) as [r Hrun]. by rewrite Hrun. }
  unfold CacheService.get_json, CacheService.get, CacheService.redis_get, bind,
    ret, raise.
  destruct (cache_client w) as [client|] eqn:Hclient; cbv beta iota.
  2: { split; [done|]. split; [done|]. cbn [fst]. done. }
  split; [done|].
  destruct (redis_reachable client) eqn:Hreach; cbv beta iota.
  2: { cbn [fst]. split; [|done]. intros r [= <-]. rewrite Hreach. by split. }
  destruct (redis_store client !! key) as [[text seconds]|] eqn:Hkey;
    cbn [fmap option_fmap option_map fst]; cbv beta iota.
  2: { cbn [fst]. split; [|done]. intros r [= <-]. rewrite Hreach, Hkey.
       by split. }
  destruct (String.eqb text "") eqn:Htext; cbn [negb]; cbv beta iota.
  { cbn [fst]. split; [|done]. intros r [= <-].
    rewrite Hreach, Hkey, Htext. by split. }
  destruct (json_loads text) as [decoded|e] eqn:Hloads; cbv beta iota.
  { cbn [fst]. split; [|done]. intros r [= <-].
    rewrite Hreach, Hkey, Htext, Hloads. by split. }
  destruct (isinstance e [JSONDecodeError]) eqn:Hclass; cbn [fst].
  { split; [|done]. intros r [= <-].
    rewrite Hreach, Hkey, Htext, Hloads, Hclass. by split. }
  split.
  - intros r [= <-]. rewrite Hreach, Hkey, Htext, Hloads, Hclass. by split.
  - intros e' [= <-]. split; [done|]. by exists client, text, seconds.
Qed.

(** A cached text on which the decoder exceeds the recursion limit:
    [get] returns the text, [get_json] raises. *)
Example get_json_passes_recursion_error_on :
  let w :=
    set_cache_client (Some (mk_redis {["k" := ("[[[[", 60)]} true))
      stub_world in
  CacheService.get "k" w = (Ok (Some "[[[["), w)
  ∧ CacheService.get_json (lib := deep_nesting_library) "k" w
    = (Raise (mk_exn RecursionError
                "maximum recursion depth exceeded while decoding a JSON array from a unicode string"),
       w).
Proof. done. Qed.

(** X4. A value stored with [set] is read back by [get]: with a client
    set, the server reachable and a positive time to live in effect ([ttl or
    self.ttl]), [set] returns normally, the key is bound to the value with
    that time to live, [get] of the key returns the value, and [get] of
    every other key returns what it returned before. *)
Theorem cache_set_then_get (key value : string) (ttl_arg : option Z) w r :
  cache_client w = Some r →
  redis_reachable r = true →
  0 < or_int ttl_arg (CacheService.ttl settings) →
  ∃ w', CacheService.set settings key value ttl_arg w = (Ok (), w')
    ∧ cached w' key
      = Some (value, or_int ttl_arg (CacheService.ttl settings))
    ∧ CacheService.get key w' = (Ok (Some value), w')
    ∧ ∀ key', key' ≠ key →
        (CacheService.get key' w').1 = (CacheService.get key' w).1.
Proof.
  intros Hclient Hreach Httl.
  unfold CacheService.set, CacheService.redis_setex.
  rewrite Hclient, Hreach. simpl.
  destruct (Z.leb_spec (or_int ttl_arg (CacheService.ttl settings)) 0)
    as [?|_]; [lia|].
  eexists. split; [done|].
  unfold cached, CacheService.get, CacheService.redis_get. simpl.
  rewrite Hclient, Hreach. simpl. rewrite lookup_insert_eq.
  split; [done|]. split; [done|].
  intros key' Hne. by rewrite lookup_insert_ne.
Qed.

(** X5. A value stored with [set_json] is read back by [get_json],
    provided the decoder inverts the encoder on it (and the encoded text is
    not empty): with a client set, the server reachable and a positive time
    to live in effect, [get_json] returns the value that was stored. *)
Theorem cache_set_json_then_get_json (key : string) (value : json)
    (ttl_arg : option Z) w r :
  cache_client w = Some r →
  redis_reachable r = true →
  0 < or_int ttl_arg (CacheService.ttl settings) →
  json_loads (json_dumps value) = Ok value →
  json_dumps value ≠ "" →
  ∃ w', CacheService.set_json settings key value ttl_arg w = (Ok (), w')
    ∧ CacheService.get_json key w' = (Ok (Some value), w').
Proof.
  intros Hclient Hreach Httl Hcodec Htext.
  unfold CacheService.set_json, CacheService.set, CacheService.redis_setex.
  rewrite Hclient, Hreach. simpl.
  destruct (Z.leb_spec (or_int ttl_arg (CacheService.ttl settings)) 0)
    as [?|_]; [lia|].
  eexists. split; [done|].
  unfold CacheService.get_json, CacheService.get, CacheService.redis_get, bind.
  simpl. rewrite ?Hreach. simpl. rewrite lookup_insert_eq. simpl.
  destruct (String.eqb_spec (json_dumps value) "") as [?|_]; [done|].
  simpl. by rewrite Hcodec.
Qed.

(** X6. How [set] fails.  Without a client it returns normally and does
    nothing, so the value is silently not cached.  With a client, an
    unreachable server or a time to live in effect that is not positive
    makes it raise.  Whatever it raises is a [CacheError], and a call that
    raises leaves the world as it was. *)
Theorem cache_set_failure_modes (key value : string) (ttl_arg : option Z) w :
  let run := CacheService.set settings key value ttl_arg w in
  (cache_client w = None → run = (Ok (), w))
  ∧ (∀ r, cache_client w = Some r →
       redis_reachable r = false
       ∨ or_int ttl_arg (CacheService.ttl settings) ≤ 0 →
       is_raise run.1 = true)
  ∧ (∀ e, run.1 = Raise e → exn_cls e = CacheError ∧ run.2 = w).
Proof.
  cbv zeta. unfold CacheService.set, CacheService.redis_setex.
  destruct (cache_client w) as [client|] eqn:Hclient.
  - split; [done|]. split.
    + intros r [= <-] [Hreach|Httl].
      * by rewrite Hreach.
      * destruct (redis_reachable client); [|done]. simpl.
        by destruct (Z.leb_spec (or_int ttl_arg (CacheService.ttl settings)) 0);
          [|lia].
    + intros e. destruct (redis_reachable client) eqn:Hreach; simpl.
      * destruct (_ <=? 0); simpl; [|done]. by intros [= <-].
      * by intros [= <-].
  - split; [done|]. split; [done|]. done.
Qed.

(** X7. [delete] never raises.  With a client set and the server
    reachable the key is absent afterwards, [get] of it returns [None], and
    every other key keeps its binding.  Without a client, or with the
    server unreachable, the call returns normally all the same and the
    world is as it was: the entry stays cached and the caller is not
    told. *)
Theorem cache_delete_then_get (key : string) w :
  ∃ w', CacheService.delete key w = (Ok (), w')
    ∧ (∀ r, cache_client w = Some r → redis_reachable r = true →
         cached w' key = None
         ∧ CacheService.get key w' = (Ok None, w')
         ∧ ∀ key', key' ≠ key → cached w' key' = cached w key')
    ∧ (cache_client w = None
       ∨ (∃ r, cache_client w = Some r ∧ redis_reachable r = false) →
       w' = w).
Proof.
  unfold CacheService.delete, CacheService.redis_delete.
  destruct (cache_client w) as [client|] eqn:Hclient.
  - destruct (redis_reachable client) eqn:Hreach.
    + eexists. split; [done|]. split.
      * intros r [= <-] _. unfold cached, CacheService.get,
          CacheService.redis_get. simpl. rewrite ?Hclient, ?Hreach. simpl.
        rewrite lookup_delete_eq. split; [done|]. split; [done|].
        intros key' Hne. by rewrite lookup_delete_ne.
      * intros [?|(r & [= <-] & ?)]; congruence.
    + eexists. split; [done|]. split; [|done].
      intros r [= <-]. congruence.
  - eexists. split; [done|]. split; [|done]. intros r. congruence.
Qed.

(** X8. [connect] assigns the client before it pings the server.  When
    the constructor accepts the URL and the ping fails, [connect] raises a
    [CacheError] and the client stays set: from then on the reads return
    [None] and [set] raises a [CacheError], whereas the same [set] in a
    service that never connected returns normally. *)
Theorem cache_connect_keeps_client_after_failed_ping
    (client : Redis) (key value : string) (ttl_arg : option Z) w :
  cache_client w = None →
  redis_reachable client = false →
  ∃ e w', CacheConnection.connect (Ok client) w = (Raise e, w')
    ∧ exn_cls e = CacheError
    ∧ cache_client w' = Some client
    ∧ CacheService.get key w' = (Ok None, w')
    ∧ is_raise (CacheService.set settings key value ttl_arg w').1 = true
    ∧ CacheService.set settings key value ttl_arg w = (Ok (), w).
Proof.
  intros Hnone Hreach.
  unfold CacheConnection.connect, CacheConnection.redis_ping.
  rewrite Hreach. eexists _, _. split; [done|]. split; [done|].
  split; [done|].
  unfold CacheService.get, CacheService.set, CacheService.redis_get,
    CacheService.redis_setex.
  simpl. rewrite Hreach, Hnone. done.
Qed.

End CacheProperties.

Lemma cache_set_then_get_witness :
  ∃ w', CacheService.set default_settings "k" "v" None stub_world = (Ok (), w')
    ∧ cached w' "k" = Some ("v", 3600)
    ∧ CacheService.get "k" w' = (Ok (Some "v"), w')
    ∧ ∀ key', key' ≠ "k" →
        (CacheService.get key' w').1 = (CacheService.get key' stub_world).1.
Proof.
  apply (cache_set_then_get default_settings "k" "v" None stub_world
           (mk_redis ∅ true)); [reflexivity|reflexivity|done].
Defined.

Lemma cache_set_json_then_get_json_witness :
  ∃ w', CacheService.set_json (lib := decoding_library) default_settings "k"
          (JBool true) None stub_world = (Ok (), w')
    ∧ CacheService.get_json (lib := decoding_library) "k" w'
      = (Ok (Some (JBool true)), w').
Proof.
  apply (cache_set_json_then_get_json (lib := decoding_library)
           default_settings "k" (JBool true) None stub_world
           (mk_redis ∅ true)); [reflexivity|reflexivity|done|reflexivity|done].
Defined.

Lemma cache_connect_failed_ping_witness :
  ∃ e w', CacheConnection.connect (Ok (mk_redis ∅ false))
            (set_cache_client None stub_world) = (Raise e, w')
    ∧ exn_cls e = CacheError
    ∧ cache_client w' = Some (mk_redis ∅ false)
    ∧ CacheService.get "k" w' = (Ok None, w')
    ∧ is_raise (CacheService.set default_settings "k" "v" None w').1 = true
    ∧ CacheService.set default_settings "k" "v" None
        (set_cache_client None stub_world)
      = (Ok (), set_cache_client None stub_world).
Proof.
  apply (cache_connect_keeps_client_after_failed_ping default_settings
           (mk_redis ∅ false) "k" "v" None
           (set_cache_client None stub_world)); reflexivity.
Defined.

(** ** The vector store client, continued *)

Section VectorDBProperties.
Context {S : Type} {be : Backend S}.
Implicit Types w : World S.

(** X9. Without a client every operation of the vector store service
    raises [VectorDBError("Client not connected")] before it does anything
    else: the world, the backend included, is as it was. *)
Theorem vector_db_requires_client
    (chunks : list Chunk) (embeddings : list (list float))
    (document_id : string) (version : json) (query_embedding : list float)
    (top_k : Z) (min_version : option Z) w :
  vector_client w = false →
  VectorDBService.upsert_chunks chunks embeddings document_id version w
    = (Raise (mk_exn VectorDBError "Client not connected"), w)
  ∧ VectorDBService.delete_document_chunks document_id w
    = (Raise (mk_exn VectorDBError "Client not connected"), w)
  ∧ VectorDBService.search query_embedding top_k min_version w
    = (Raise (mk_exn VectorDBError "Client not connected"), w).
Proof.
  intros Hclient.
  unfold VectorDBService.upsert_chunks, VectorDBService.delete_document_chunks,
    VectorDBService.search, VectorDBService.require_client, bind.
  by rewrite Hclient.
Qed.

(** X10. With a client set, [upsert_chunks] refuses lists of different
    lengths with a [VectorDBError], without calling the store.  For lists
    of the same length it calls the store once, with one point per chunk:
    the [i]-th point has the identifier, content and index of the [i]-th
    chunk, the [i]-th embedding as its vector, and the document identifier
    and version given. *)
Theorem upsert_chunks_pairs_chunks_with_embeddings
    (chunks : list Chunk) (embeddings : list (list float))
    (document_id : string) (version : json) w :
  vector_client w = true →
  (length chunks ≠ length embeddings →
   VectorDBService.upsert_chunks chunks embeddings document_id version w
   = (Raise (mk_exn VectorDBError
               "Chunks and embeddings must have the same length"), w))
  ∧ (length chunks = length embeddings →
     ∃ points,
       VectorDBService.upsert_chunks chunks embeddings document_id version w
       = call (qdrant_upsert points) w
       ∧ length points = length chunks
       ∧ ∀ (i : nat) chunk embedding,
           chunks !! i = Some chunk → embeddings !! i = Some embedding →
           points !! i
           = Some (mk_point (chunk_id chunk) embedding document_id
                     (chunk_content chunk) (chunk_index chunk) version)).
Proof.
  intros Hclient.
  unfold VectorDBService.upsert_chunks, VectorDBService.require_client, bind.
  rewrite Hclient. split.
  - intros Hne. by destruct (Nat.eqb_spec (length chunks) (length embeddings)).
  - intros Heq. destruct (Nat.eqb_spec (length chunks) (length embeddings));
      [|done].
    simpl. eexists. split; [done|]. split.
    + rewrite length_zip_with. lia.
    + intros i chunk embedding Hchunk Hembedding.
      rewrite lookup_zip_with, Hchunk. simpl. by rewrite Hembedding.
Qed.

End VectorDBProperties.

Lemma vector_db_requires_client_witness :
  VectorDBService.search (be := stub_backend) [0%float] 5 None
    (mk_world 0 0 None false None [] ())
  = (Raise (mk_exn VectorDBError "Client not connected"),
     mk_world 0 0 None false None [] ()).
Proof.
  apply (vector_db_requires_client (be := stub_backend) [] [] "d" (JInt 1)
           [0%float] 5 None (mk_world 0 0 None false None [] ())).
  reflexivity.
Defined.

Lemma upsert_chunks_length_mismatch_witness :
  VectorDBService.upsert_chunks (be := stub_backend)
    [mk_chunk "id" "text" 0 "d"] [] "d" (JInt 1) stub_world
  = (Raise (mk_exn VectorDBError
              "Chunks and embeddings must have the same length"), stub_world).
Proof.
  apply (upsert_chunks_pairs_chunks_with_embeddings (be := stub_backend)
           [mk_chunk "id" "text" 0 "d"] [] "d" (JInt 1) stub_world);
    [reflexivity|done].
Defined.

(** ** The embedding and the LLM clients *)

(** One step of a run: the [match] on an outcome and the test of an
    [except Exception] clause. *)
Ltac reduce_run :=
  cbv beta iota; rewrite ?isinstance_exception; cbv beta iota; cbn [fst snd].

Section ProviderProperties.
Context {S : Type} {lib : Library} {be : Backend S}.
Implicit Types w : World S.

(** X11. Whatever [generate_embeddings] raises is an [EmbeddingError].
    [generate_embedding] adds one way to fail: when the provider answers
    with no embedding at all, [embeddings[0]] raises an [IndexError], which
    is not an [EmbeddingError] and reaches the caller as it is; every other
    exception of [generate_embedding] is an [EmbeddingError]. *)
Theorem embedding_error_classes (texts : list string) (text : string) w :
  (∀ e, (EmbeddingService.generate_embeddings texts w).1 = Raise e →
        exn_cls e = EmbeddingError)
  ∧ (∀ e, (EmbeddingService.generate_embedding text w).1 = Raise e →
          exn_cls e = EmbeddingError
          ∨ (e = mk_exn IndexError "list index out of range"
             ∧ (embeddings_create [text] (backend w)).1 = Ok []))
  ∧ ((embeddings_create [text] (backend w)).1 = Ok [] →
     (EmbeddingService.generate_embedding text w).1
     = Raise (mk_exn IndexError "list index out of range")).
Proof.
  unfold EmbeddingService.generate_embedding,
    EmbeddingService.generate_embeddings, bind, try_except, call.
  split; [|split].
  - intros e. destruct (embeddings_create texts (backend w)) as [[v|e'] s];
      reduce_run; [done|].
    reduce_run. by intros [= <-].
  - intros e. destruct (embeddings_create [text] (backend w)) as [[v|e'] s];
      reduce_run.
    + destruct v as [|first rest]; reduce_run; [|done].
      intros [= <-]. by right.
    + reduce_run. intros [= <-]. by left.
  - destruct (embeddings_create [text] (backend w)) as [[v|e'] s]; reduce_run;
      [|done].
    by intros [= ->].
Qed.

Lemma isinstance_llm_error (e : exn) :
  isinstance e [LLMError] = true → exn_cls e = LLMError.
Proof.
  unfold isinstance, issubclass. simpl. rewrite orb_false_r.
  destruct (exn_cls e); done.
Qed.

(** With [content] bound to a text every clause raises an [LLMError]. *)
Lemma except_clauses_bound (text : string) (e : exn) :
  ∃ error, LLMService.except_clauses (Some (Some text)) e = Raise error
           ∧ exn_cls error = LLMError.
Proof.
  unfold LLMService.except_clauses.
  destruct (isinstance e [JSONDecodeError]); [by eexists|].
  destruct (isinstance e [TypeError; ValueError]); [by eexists|].
  destruct (isinstance e [LLMError]) eqn:Hllm; [|by eexists].
  exists e. split; [done|]. by apply isinstance_llm_error.
Qed.

(** With [content] unbound the first clause raises an
    [UnboundLocalError]; the others raise an [LLMError]. *)
Lemma except_clauses_unbound (e : exn) :
  ∃ error, LLMService.except_clauses None e = Raise error
           ∧ (if isinstance e [JSONDecodeError]
              then exn_cls error = UnboundLocalError
              else exn_cls error = LLMError).
Proof.
  unfold LLMService.except_clauses.
  destruct (isinstance e [JSONDecodeError]); [by eexists|].
  destruct (isinstance e [TypeError; ValueError]); [by eexists|].
  destruct (isinstance e [LLMError]) eqn:Hllm; [|by eexists].
  exists e. split; [done|]. by apply isinstance_llm_error.
Qed.

(** What [generate_response] raises, by the outcome of the provider
    call. *)
Lemma generate_response_raises
    (query context : string) (document_ids : list string) w (e : exn) :
  (LLMService.generate_response query context document_ids w).1 = Raise e →
  exn_cls e = LLMError
  ∨ (exn_cls e = UnboundLocalError
     ∧ ∃ e', (chat_completions_create query context document_ids
                (backend w)).1 = Raise e'
             ∧ isinstance e' [JSONDecodeError] = true).
Proof.
  unfold LLMService.generate_response, call.
  destruct (chat_completions_create query context document_ids (backend w))
    as [[content|e'] s]; cbn [fst snd].
  - assert (Hbound : ∀ text e0,
              LLMService.except_clauses (Some (Some text)) e0 = Raise e →
              exn_cls e = LLMError).
    { intros text e0 Hraise.
      destruct (except_clauses_bound text e0) as (error & Herror & Hclass).
      congruence. }
    destruct content as [text|]; cbn [LLMService.parse_completion].
    + destruct (String.eqb text "") eqn:Htext.
      { cbn [fst]. intros Hraise. left. by apply (Hbound text) in Hraise. }
      destruct (json_loads text) as [data|e0].
      * destruct (validate_structured_answer data) as [a|e0]; cbn [fst];
          [done|].
        intros Hraise. left. by apply (Hbound text) in Hraise.
      * cbn [fst]. intros Hraise. left. by apply (Hbound text) in Hraise.
    + cbn [fst]. intros [= <-]. by left.
  - destruct (except_clauses_unbound e') as (error & Herror & Hclass).
    rewrite Herror. cbn [fst]. intros [= <-].
    destruct (isinstance e' [JSONDecodeError]) eqn:Hjson; [|by left].
    right. split; [done|]. by exists e'.
Qed.

(** X12. What leaves [generate_response].  An empty completion, a
    completion that is not JSON, one that does not validate, and a failure
    of the provider call all leave it as an [LLMError], with one exception:
    when the provider call itself raises a [JSONDecodeError], the first
    [except] clause reads [content] before it was assigned, and an
    [UnboundLocalError] leaves the function instead.  Nothing else is ever
    raised.  An answer is returned only when the provider returned a
    non-empty completion that decodes and validates, and it is the
    validated object.  [generate_response_text] fails in the same two
    ways. *)
Theorem llm_failure_classes
    (query context : string) (document_ids : list string) w :
  (∀ e, (LLMService.generate_response query context document_ids w).1
        = Raise e →
        exn_cls e = LLMError
        ∨ (exn_cls e = UnboundLocalError
           ∧ ∃ e', (chat_completions_create query context document_ids
                      (backend w)).1 = Raise e'
                   ∧ isinstance e' [JSONDecodeError] = true))
  ∧ (∀ e', (chat_completions_create query context document_ids
              (backend w)).1 = Raise e' →
           ∃ e, (LLMService.generate_response query context document_ids
                   w).1 = Raise e
                ∧ exn_cls e
                  = (if isinstance e' [JSONDecodeError]
                     then UnboundLocalError else LLMError))
  ∧ (∀ a, (LLMService.generate_response query context document_ids w).1
          = Ok a →
          ∃ content data,
            (chat_completions_create query context document_ids
               (backend w)).1 = Ok (Some content)
            ∧ content ≠ ""
            ∧ json_loads content = Ok data
            ∧ validate_structured_answer data = Ok a)
  ∧ (∀ e, (generate_response_text query context w).1 = Raise e →
          exn_cls e = LLMError ∨ exn_cls e = UnboundLocalError).
Proof.
  split; [apply generate_response_raises|]. split; [|split].
  - intros e'. unfold LLMService.generate_response, call.
    destruct (chat_completions_create query context document_ids (backend w))
      as [[content|e0] s]; cbn [fst snd]; [done|].
    intros [= <-].
    destruct (except_clauses_unbound e0) as (error & Herror & Hclass).
    rewrite Herror. exists error. split; [done|].
    by destruct (isinstance e0 [JSONDecodeError]).
  - intros a. unfold LLMService.generate_response, call.
    destruct (chat_completions_create query context document_ids (backend w))
      as [[content|e0] s]; cbn [fst snd].
    + destruct content as [text|]; cbn [LLMService.parse_completion].
      * destruct (String.eqb_spec text "") as [->|Hne].
        { destruct (except_clauses_bound "" (mk_exn LLMError
                      "Empty response from LLM")) as (error & -> & _).
          done. }
        destruct (json_loads text) as [data|e1] eqn:Hdata.
        -- destruct (validate_structured_answer data) as [a'|e1] eqn:Hvalid;
             cbn [fst].
           ++ intros [= <-]. by exists text, data.
           ++ by destruct (except_clauses_bound text e1) as (error & -> & _).
        -- by destruct (except_clauses_bound text e1) as (error & -> & _).
      * done.
    + by destruct (except_clauses_unbound e0) as (error & -> & _).
  - intros e. unfold generate_response_text, bind.
    pose proof (generate_response_raises query context [] w e) as Hraise.
    destruct (LLMService.generate_response query context [] w)
      as [[a|e'] w']; cbn [fst snd] in *; [done|].
    intros [= <-].
    destruct (Hraise eq_refl) as [?|[? _]]; [by left|by right].
Qed.

End ProviderProperties.

(** A provider call that raises a [JSONDecodeError] leaves
    [generate_response] as an [UnboundLocalError]. *)
Example provider_decode_error_is_unbound_local :
  LLMService.generate_response (lib := stub_library)
    (be := undecodable_provider_backend) "What is RAG?" "context" ["d1"]
    stub_world
  = (Raise (mk_exn UnboundLocalError
              "cannot access local variable 'content' where it is not associated with a value"),
     stub_world).
Proof. done. Qed.

(** ** The dead-letter sink *)

Section DLQProperties.
Context {S : Type} {be : Backend S}.
Variable settings : Settings.
Implicit Types w : World S.

(** X13. What [send_failed_event] does with a failed event.  When the
    sink is disabled or has no producer it logs a warning and returns
    normally: the event is dropped.  With a producer that reaches the
    brokers it appends exactly one message to the topic [dlq_topic],
    holding the event, the error, the original topic, the offset, the
    partition and the current time, and returns normally.  With a producer
    that does not, it raises a [DLQError] and nothing is appended.  In no
    case does it touch the counters, the cache or the vector store
    client. *)
Theorem send_failed_event_outcomes
    (event_data : pydict) (error original_topic : string)
    (offset partition : option Z) w :
  let run :=
    DLQService.send_failed_event settings event_data error original_topic
      offset partition w in
  (DLQService.enabled settings = false ∨ dlq_producer w = None →
   run = (Ok (),
          set_logs (logs w ++ [(WARNING,
                                "DLQ is disabled, not sending failed event")])
                   w))
  ∧ (∀ p, DLQService.enabled settings = true → dlq_producer w = Some p →
       (producer_reachable p = true →
        run.1 = Ok ()
        ∧ dlq_producer run.2
          = Some (mk_producer
                    (producer_sent p
                     ++ [(dlq_topic settings,
                          mk_dlq_message event_data error original_topic
                            offset partition (time_time (backend w)))])
                    true))
       ∧ (producer_reachable p = false →
          (∃ e, run.1 = Raise e ∧ exn_cls e = DLQError)
          ∧ dlq_producer run.2 = Some p))
  ∧ only_logs_backend w run.2.
Proof.
  cbv zeta. unfold DLQService.send_failed_event, DLQService.send_and_wait.
  split; [|split].
  - intros [-> | Hnone]; [done|].
    rewrite Hnone. by destruct (DLQService.enabled settings).
  - intros p Henabled Hproducer. rewrite Henabled, Hproducer.
    split; intros Hreach; rewrite Hreach; simpl.
    + done.
    + split; [by eexists|done].
  - destruct (DLQService.enabled settings); [|done].
    destruct (dlq_producer w) as [p|]; [|done].
    by destruct (producer_reachable p).
Qed.

End DLQProperties.

(** ** The event processor and the consumer loop, continued *)

Global Instance same_dlq_producer_frame {S} :
  LogBackendFrame (@same_dlq_producer S).
Proof.
  split; [split| |]; unfold same_dlq_producer.
  - by intros w.
  - intros w1 w2 w3 H12 H23. congruence.
  - by intros l [].
  - by intros s [].
Qed.

Section ProcessEventFrame.
Context {S : Type} {lib : Library} {be : Backend S}.
Context (R : relation (World S)) `{!LogBackendFrame R}.
Variable settings : Settings.

(** [process_event] keeps every relation that the log, the backend, the
    two counters and the deletion of a cache key keep. *)
Lemma respects_process_event (event_data : pydict) :
  (∀ v w, R w (set_updates_total v w)) →
  (∀ v w, R w (set_update_errors_total v w)) →
  (∀ key, respects R (CacheService.delete key)) →
  respects R (EventProcessor.process_event settings event_data).
Proof.
  intros Hupdates Herrors Hdelete w. rewrite process_event_cases.
  assert (Hrecord : ∀ e w0, R w0 (record_failure e w0)).
  { intros e w0. unfold record_failure. etrans; [apply frame_logs|].
    apply Herrors. }
  assert (Hparse : R w (EventProcessor._parse_event event_data w).2).
  { rewrite parse_event_cases.
    destruct (document_fields event_data); simpl;
      [apply frame_logs|reflexivity]. }
  destruct (EventProcessor._parse_event event_data w) as [[[event|]|e] w0];
    simpl in *.
  - pose proof (respects_dispatch R settings event (λ _, Hdelete _)
                  (set_updates_total (updates_total w0 + 1) w0)) as Hdispatch.
    assert (Hstep : R w (dispatch settings event
                           (set_updates_total (updates_total w0 + 1) w0)).2).
    { etrans; [exact Hparse|]. etrans; [apply Hupdates|exact Hdispatch]. }
    destruct (dispatch settings event _) as [[[]|e] w1]; simpl in *; [done|].
    etrans; [exact Hstep|apply Hrecord].
  - done.
  - etrans; [exact Hparse|apply Hrecord].
Qed.

End ProcessEventFrame.

Section ConsumerProperties.
Context {S : Type} {lib : Library} {be : Backend S}.
Variable settings : Settings.
Implicit Types w : World S.

Lemma process_event_keeps_dlq_producer (event_data : pydict) w :
  dlq_producer (EventProcessor.process_event settings event_data w).2
  = dlq_producer w.
Proof.
  apply (respects_process_event same_dlq_producer settings event_data).
  - by intros v [].
  - by intros v [].
  - intros key w0. unfold same_dlq_producer, CacheService.delete.
    destruct (cache_client w0) as [client|]; [|done].
    by destruct (CacheService.redis_delete key client).
Qed.

(** X14. One pass of the consumer loop never raises, whatever the message
    and whatever the state of the services: an exception of the event
    processor is caught and handed to the dead-letter sink, and an
    exception of the sink is caught and logged.  A message with no value
    does nothing but log a warning. *)
Theorem consume_message_never_raises (message : Message) w :
  (∃ w', UpdateService.consume_message settings message w = (Ok (), w'))
  ∧ (msg_value message = JNull →
     UpdateService.consume_message settings message w
     = (Ok (),
        set_logs (logs w ++ [(WARNING, "Message has None value, skipping")])
                 w)).
Proof.
  split.
  - unfold UpdateService.consume_message.
    lazymatch goal with
    | |- ∃ w', try_except ?body _ _ w = _ =>
        unfold try_except at 1; destruct (body w) as [[[]|e] w1]
    end; [by eexists|].
    rewrite isinstance_exception. unfold bind at 1, logger at 1, modify at 1.
    unfold try_except.
    destruct (DLQService.send_failed_event _ _ _ _ _ _ _) as [[[]|e2] w2];
      [by eexists|].
    rewrite isinstance_exception. by eexists.
  - intros Hvalue. unfold UpdateService.consume_message. by rewrite Hvalue.
Qed.

(** X15. The consumer reads a Debezium envelope and a flat event alike: a
    message whose value has a ["payload"] key bound to a dictionary is
    handled exactly as the message whose value is that dictionary, as long
    as the dictionary has no ["payload"] key of its own. *)
Theorem consume_message_unwraps_envelope
    (wrapper fields : pydict) (offset partition : Z) w :
  dict_get "payload" wrapper = Some (JObj fields) →
  dict_contains "payload" fields = false →
  UpdateService.consume_message settings
    (mk_message (JObj wrapper) offset partition) w
  = UpdateService.consume_message settings
      (mk_message (JObj fields) offset partition) w.
Proof.
  intros Hpayload Hflat. unfold UpdateService.consume_message.
  cbn [msg_value msg_offset msg_partition]. unfold UpdateService.unwrap_payload.
  unfold dict_contains in *. rewrite Hpayload.
  destruct (dict_get "payload" fields); [done|]. done.
Qed.

(** X16. A flat event of a table that has a column named ["payload"] is
    taken for an envelope: the consumer replaces the event by the value of
    that column, and when the value is not a dictionary (a string, a
    number, [None]) the message is skipped with a warning.  The event
    processor is not called, nothing is counted and nothing reaches the
    dead-letter topic. *)
Theorem consume_message_skips_payload_column
    (fields : pydict) (v : json) (offset partition : Z) w :
  dict_get "payload" fields = Some v →
  (∀ inner, v ≠ JObj inner) →
  UpdateService.consume_message settings
    (mk_message (JObj fields) offset partition) w
  = (Ok (),
     set_logs (logs w ++ [(WARNING, "Event data is not a dict, skipping")]) w).
Proof.
  intros Hpayload Hscalar. unfold UpdateService.consume_message.
  cbn [msg_value]. unfold UpdateService.unwrap_payload, dict_contains.
  rewrite Hpayload. simpl.
  destruct v; try done. by destruct (Hscalar fields0).
Qed.

(** X17. The dead-letter topic receives the failures of the event
    processor and nothing else.  With the sink enabled and its producer
    reaching the brokers, a message whose event the processor handles
    without raising leaves the producer as it was; a message whose event
    makes the processor raise appends exactly one entry to the dead-letter
    topic, holding the event, the text of the exception, the source topic
    and the offset and partition of the message. *)
Theorem consume_message_dead_letters_failures
    (message : Message) (fields : pydict) w p :
  msg_value message ≠ JNull →
  UpdateService.unwrap_payload (msg_value message) = JObj fields →
  DLQService.enabled settings = true →
  dlq_producer w = Some p →
  producer_reachable p = true →
  let processed := EventProcessor.process_event settings fields w in
  let w' := (UpdateService.consume_message settings message w).2 in
  match processed.1 with
  | Ok _ => w' = processed.2 ∧ dlq_producer w' = Some p
  | Raise e =>
      dlq_producer w'
      = Some (mk_producer
                (producer_sent p
                 ++ [(dlq_topic settings,
                      mk_dlq_message fields (exn_msg e)
                        (kafka_topic_documents settings)
                        (Some (msg_offset message))
                        (Some (msg_partition message))
                        (time_time (backend processed.2)))])
                true)
  end.
Proof.
  intros Hvalue Hunwrap Henabled Hproducer Hreach. cbv zeta.
  unfold UpdateService.consume_message. rewrite Hunwrap.
  cbv beta iota. cbn [UpdateService.dict_or_empty].
  assert (Hbody :
    match msg_value message with
    | JNull => logger WARNING "Message has None value, skipping"
    | _ => EventProcessor.process_event settings fields
    end = EventProcessor.process_event settings fields).
  { by destruct (msg_value message). }
  rewrite Hbody. unfold try_except.
  pose proof (process_event_keeps_dlq_producer fields w) as Hframe.
  destruct (EventProcessor.process_event settings fields w) as [[[]|e] w1];
    cbv beta iota; cbn [fst snd] in *.
  - split; [done|]. congruence.
  - rewrite isinstance_exception. unfold bind, logger, modify.
    unfold DLQService.send_failed_event, DLQService.send_and_wait.
    rewrite Henabled. simpl. rewrite Hframe, Hproducer, Hreach. done.
Qed.

(** X18. An event whose operation is none of ["c"], ["u"] and ["d"] (a
    snapshot read ["r"], a truncate ["t"]) is counted in [updates_total]
    and then skipped with a warning: [process_event] returns normally, no
    error is recorded, and neither the vector store nor the cache is
    touched. *)
Theorem unknown_operation_is_counted_and_skipped
    (event_data : pydict) w (event : DocumentEvent) :
  (EventProcessor._parse_event event_data w).1 = Ok (Some event) →
  op event ≠ "d" → op event ≠ "c" → op event ≠ "u" →
  EventProcessor.process_event settings event_data w
  = (Ok (),
     set_logs (logs w ++ [(WARNING, "Unknown operation: " +:+ op event)])
              (set_updates_total (updates_total w + 1) w)).
Proof.
  intros Hparse Hd Hc Hu. rewrite process_event_cases.
  destruct (parse_event_sides event_data w event Hparse) as (Hw & _).
  destruct (EventProcessor._parse_event event_data w) as [parsed w0].
  simpl in *. subst. unfold dispatch.
  destruct (String.eqb_spec (op event) "d"); [done|].
  destruct (String.eqb_spec (op event) "c"); [done|].
  destruct (String.eqb_spec (op event) "u"); [done|].
  done.
Qed.

(** X19. A create or update event whose document has no [id] (or a falsy
    one) or whose [content] is missing or empty is counted and then skipped
    with a warning: [process_event] returns normally and records no error;
    nothing is chunked, embedded, written to the vector store or deleted
    from the cache.  In particular an update that empties the content of a
    document leaves the chunks of its previous version in the store. *)
Theorem create_or_update_without_required_fields_is_skipped
    (event_data : pydict) w (event : DocumentEvent) :
  (EventProcessor._parse_event event_data w).1 = Ok (Some event) →
  op event = "c" ∨ op event = "u" →
  truthy_opt (dict_get "id" event_data) = false
  ∨ truthy (dict_get_default "content" (JStr "") event_data) = false →
  EventProcessor.process_event settings event_data w
  = (Ok (),
     set_logs (logs w ++ [(WARNING, "Event missing required fields")])
              (set_updates_total (updates_total w + 1) w)).
Proof.
  intros Hparse Hop Hmissing. rewrite process_event_cases.
  destruct (parse_event_sides event_data w event Hparse)
    as (Hw & _ & _ & Hafter).
  pose proof (parse_event_cases event_data w) as Hcases. cbv zeta in Hcases.
  rewrite Hcases in Hparse.
  destruct (EventProcessor._parse_event event_data w) as [parsed w0].
  simpl in Hw. subst w0.
  destruct (document_fields event_data) as [|field fields] eqn:Hfields;
    [done|].
  simpl in Hparse.
  destruct (EventProcessor.make_event _ _ _ _) as [event'|]; [|done].
  injection Hparse as ->. injection Hcases as ->.
  assert (Hroute : dispatch settings event
                   = EventProcessor._handle_create_or_update settings event).
  { unfold dispatch. by destruct Hop as [-> | ->]. }
  rewrite Hroute. unfold EventProcessor._handle_create_or_update.
  assert (Hside : after event = Some (field :: fields)).
  { rewrite Hafter. by destruct Hop as [-> | ->]. }
  rewrite Hside. cbv beta iota.
  unfold dict_get_default in *. rewrite <- Hfields.
  rewrite !dict_get_document_fields by done.
  destruct Hmissing as [-> | ->]; simpl; [done|].
  by rewrite orb_true_r.
Qed.

End ConsumerProperties.

Lemma consume_message_unwraps_envelope_witness :
  UpdateService.consume_message (lib := stub_library) (be := stub_backend)
    default_settings
    (mk_message (JObj [("payload", JObj [("id", JStr "x")])]) 7 0) stub_world
  = UpdateService.consume_message (lib := stub_library) (be := stub_backend)
      default_settings (mk_message (JObj [("id", JStr "x")]) 7 0) stub_world.
Proof.
  apply (consume_message_unwraps_envelope (lib := stub_library)
           (be := stub_backend) default_settings
           [("payload", JObj [("id", JStr "x")])] [("id", JStr "x")] 7 0
           stub_world); reflexivity.
Defined.

Lemma consume_message_skips_payload_column_witness :
  UpdateService.consume_message (lib := stub_library) (be := stub_backend)
    default_settings
    (mk_message (JObj [("id", JStr "x"); ("payload", JStr "text")]) 7 0)
    stub_world
  = (Ok (),
     set_logs [(WARNING, "Event data is not a dict, skipping")] stub_world).
Proof.
  apply (consume_message_skips_payload_column (lib := stub_library)
           (be := stub_backend) default_settings
           [("id", JStr "x"); ("payload", JStr "text")] (JStr "text") 7 0
           stub_world); [reflexivity|done].
Defined.

Lemma consume_message_dead_letters_failures_witness :
  dlq_producer
    (UpdateService.consume_message (lib := stub_library) (be := stub_backend)
       default_settings
       (mk_message (JObj [("id", JStr "x"); ("__deleted", JStr "true")]) 7 0)
       stub_world).2
  = Some (mk_producer
            [("documents.dlq",
              mk_dlq_message [("id", JStr "x"); ("__deleted", JStr "true")]
                "badly formed hexadecimal UUID string"
                "documents.public.documents" (Some 7) (Some 0)
                1700000000%float)]
            true).
Proof.
  exact (consume_message_dead_letters_failures (lib := stub_library)
           (be := stub_backend) default_settings
           (mk_message
              (JObj [("id", JStr "x"); ("__deleted", JStr "true")]) 7 0)
           [("id", JStr "x"); ("__deleted", JStr "true")] stub_world
           (mk_producer [] true) ltac:(done) eq_refl eq_refl eq_refl eq_refl).
Defined.

Lemma unknown_operation_witness :
  EventProcessor.process_event (lib := stub_library) (be := stub_backend)
    default_settings
    [("id", JStr "x"); ("content", JStr "text"); ("op", JStr "r")] stub_world
  = (Ok (),
     set_logs [(WARNING, "Unknown operation: r")]
              (set_updates_total 1 stub_world)).
Proof.
  apply (unknown_operation_is_counted_and_skipped (lib := stub_library)
           (be := stub_backend) default_settings
           [("id", JStr "x"); ("content", JStr "text"); ("op", JStr "r")]
           stub_world
           (mk_event "r" None
              (Some [("id", JStr "x"); ("content", JStr "text");
                     ("op", JStr "r")])
              (Some []) (Some 1700000000000)));
    [reflexivity|done|done|done].
Defined.

Lemma update_with_empty_content_witness :
  EventProcessor.process_event (lib := stub_library) (be := stub_backend)
    default_settings
    [("id", JStr "x"); ("content", JStr ""); ("op", JStr "u")] stub_world
  = (Ok (),
     set_logs [(WARNING, "Event missing required fields")]
              (set_updates_total 1 stub_world)).
Proof.
  apply (create_or_update_without_required_fields_is_skipped
           (lib := stub_library) (be := stub_backend) default_settings
           [("id", JStr "x"); ("content", JStr ""); ("op", JStr "u")]
           stub_world
           (mk_event "u" None
              (Some [("id", JStr "x"); ("content", JStr "");
                     ("op", JStr "u")])
              (Some []) (Some 1700000000000)));
    [reflexivity|by right|by right].
Defined.

(** ** The query processor, continued *)

Section QueryCacheProperties.
Context {S : Type} {lib : Library} {be : Backend S}.
Variable settings : Settings.
Implicit Types w : World S.

(** The cache client decides what [get_json] returns. *)
Lemma cache_get_json_client (key : string) w1 w2 :
  cache_client w1 = cache_client w2 →
  (CacheService.get_json key w1).1 = (CacheService.get_json key w2).1.
Proof.
  intros Hclient. unfold CacheService.get_json, CacheService.get, bind.
  rewrite Hclient. destruct (cache_client w2) as [client|]; [|done].
  destruct (CacheService.redis_get key client) as [[value|]|e]; try done.
  destruct (negb _); [|done].
  destruct (json_loads value) as [decoded|e]; [done|].
  by destruct (isinstance e [JSONDecodeError]).
Qed.

(** A truthy cached response is returned as it is. *)
Lemma process_query_cache_hit
    (query : string) (top_k page page_size : Z) w (response : json) :
  cached_response w (QueryProcessor._get_cache_key query) = Some response →
  truthy response = true →
  QueryProcessor.process_query settings query top_k page page_size w
  = (Ok response, set_logs (logs w ++ [(INFO, "Cache hit for query")]) w).
Proof.
  intros Hcached Htruthy.
  unfold QueryProcessor.process_query, cached_response in *.
  unfold bind at 1.
  destruct (cache_get_json_pure (QueryProcessor._get_cache_key query) w)
    as [v Hget].
  rewrite Hget in *. destruct v as [v|e]; [|done].
  simpl in Hcached. subst v. simpl. by rewrite Htruthy.
Qed.

(** X20. A cache hit answers the query by itself: when the cache holds a
    truthy response for the query text, [process_query] returns it as it
    is, whatever [top_k], [page] and [page_size] the request carries, and
    does nothing but log the hit: no embedding, no search, no LLM call and
    no write to the cache. *)
Theorem cache_hit_ignores_search_and_paging
    (query : string) (top_k page page_size : Z) w (response : json) :
  cached_response w (QueryProcessor._get_cache_key query) = Some response →
  truthy response = true →
  QueryProcessor.process_query settings query top_k page page_size w
  = (Ok response, set_logs (logs w ++ [(INFO, "Cache hit for query")]) w).
Proof.
  apply process_query_cache_hit.
Qed.

(** X21. An unreachable cache reads as a miss, but the write at the end
    of a query does not fail open: with a
    client set, when the server cannot be reached or the configured time to
    live is not positive, [process_query] never returns a newly generated
    answer.  Whatever it returns is the no-match response or a response that
    was already cached; a query that reaches the LLM ends in the exception
    of the cache write. *)
Theorem query_answers_need_a_writable_cache
    (query : string) (top_k page page_size : Z) w r (response : json) :
  cache_client w = Some r →
  redis_reachable r = false ∨ cache_ttl settings ≤ 0 →
  (QueryProcessor.process_query settings query top_k page page_size w).1
    = Ok response →
  response = NO_MATCH_RESPONSE
  ∨ (cached_response w (QueryProcessor._get_cache_key query) = Some response
     ∧ truthy response = true).
Proof.
  intros Hclient Hbad. unfold QueryProcessor.process_query, cached_response.
  unfold bind.
  destruct (cache_get_json_pure (QueryProcessor._get_cache_key query) w)
    as [v Hget].
  rewrite Hget. cbn [fst snd].
  destruct v as [v|e]; [|done].
  destruct (truthy_opt v) eqn:Hhit.
  { simpl. intros [= <-]. right. by destruct v. }
  pose proof (respects_generate_embedding only_logs_backend query w) as H1.
  destruct (EmbeddingService.generate_embedding query w)
    as [[query_embedding|e] w1]; [|done].
  pose proof (respects_search only_logs_backend query_embedding top_k None w1)
    as H2.
  destruct (VectorDBService.search query_embedding top_k None w1)
    as [[matches|e] w2]; [|done].
  destruct matches as [|m matches]; [intros [= <-]; by left|].
  destruct (QueryProcessor._build_context _) as [context used_matches].
  match goal with
  | |- context [LLMService.generate_response ?q ?c ?ids w2] =>
      pose proof (respects_generate_response only_logs_backend q c ids w2)
        as H3;
      destruct (LLMService.generate_response q c ids w2)
        as [[structured|e] w3]; [|done]
  end.
  destruct (QueryProcessor._paginate_sources _ _ _) as [[items pagination]|e];
    [|done].
  destruct H1 as (_ & _ & H1 & _), H2 as (_ & _ & H2 & _),
    H3 as (_ & _ & H3 & _).
  simpl in H1, H2, H3.
  unfold CacheService.set_json, CacheService.set, CacheService.redis_setex.
  rewrite H3, H2, H1, Hclient.
  destruct Hbad as [Hreach | Httl].
  - by rewrite Hreach.
  - destruct (redis_reachable r); [|done]. cbn [negb].
    assert (Heffective : or_int (Some (cache_ttl settings))
                           (CacheService.ttl settings) ≤ 0).
    { unfold or_int, CacheService.ttl. by destruct (_ =? 0). }
    destruct (Z.leb_spec (or_int (Some (cache_ttl settings))
                            (CacheService.ttl settings)) 0); [|lia].
    simpl. done.
Qed.

(** X22. Once a query has been answered, the cache answers it.  With a
    client set, when [process_query] returns a response other than the
    no-match one and the JSON decoder inverts the encoder on it, the same
    query text gets the same response from then on, with nothing but a log
    line added, whatever [top_k], [page] and [page_size] the later request
    asks for: the cache key is derived from the query text alone. *)
Theorem answered_query_is_served_from_cache
    (query : string) (top_k page page_size top_k' page' page_size' : Z)
    w r (response : json) w' :
  cache_client w = Some r →
  QueryProcessor.process_query settings query top_k page page_size w
    = (Ok response, w') →
  response ≠ NO_MATCH_RESPONSE →
  json_loads (json_dumps response) = Ok response →
  json_dumps response ≠ "" →
  QueryProcessor.process_query settings query top_k' page' page_size' w'
  = (Ok response, set_logs (logs w' ++ [(INFO, "Cache hit for query")]) w').
Proof.
  intros Hclient Hrun Hmatch Hcodec Htext.
  assert (Hcached :
    cached_response w' (QueryProcessor._get_cache_key query) = Some response
    ∧ truthy response = true);
    [|destruct Hcached; by apply process_query_cache_hit].
  revert Hrun. unfold QueryProcessor.process_query. unfold bind.
  destruct (cache_get_json_pure (QueryProcessor._get_cache_key query) w)
    as [v Hget].
  rewrite Hget.
  destruct v as [v|e]; [|done].
  destruct (truthy_opt v) eqn:Hhit.
  { simpl. intros [= <- <-]. destruct v as [v|]; [|done]. split; [|done].
    unfold cached_response.
    rewrite (cache_get_json_client _ _ w) by by destruct w.
    by rewrite Hget. }
  pose proof (respects_generate_embedding only_logs_backend query w) as H1.
  destruct (EmbeddingService.generate_embedding query w)
    as [[query_embedding|e] w1]; [|done].
  pose proof (respects_search only_logs_backend query_embedding top_k None w1)
    as H2.
  destruct (VectorDBService.search query_embedding top_k None w1)
    as [[matches|e] w2]; [|done].
  destruct matches as [|m matches]; [by intros [= <- <-]|].
  destruct (QueryProcessor._build_context _) as [context used_matches].
  match goal with
  | |- context [LLMService.generate_response ?q ?c ?ids w2] =>
      pose proof (respects_generate_response only_logs_backend q c ids w2)
        as H3;
      destruct (LLMService.generate_response q c ids w2)
        as [[structured|e] w3]; [|done]
  end.
  destruct (QueryProcessor._paginate_sources _ _ _) as [[items pagination]|e];
    [|done].
  destruct H1 as (_ & _ & H1 & _), H2 as (_ & _ & H2 & _),
    H3 as (_ & _ & H3 & _).
  simpl in H1, H2, H3.
  unfold CacheService.set_json, CacheService.set, CacheService.redis_setex.
  rewrite H3, H2, H1, Hclient.
  destruct (redis_reachable r) eqn:Hreach; [|done]. cbn [negb].
  destruct (_ <=? 0); [done|].
  intros [= Hresponse <-]. rewrite Hresponse.
  split; [|by rewrite <- Hresponse].
  unfold cached_response, CacheService.get_json, CacheService.get,
    CacheService.redis_get, bind.
  simpl. rewrite ?Hreach. simpl. rewrite lookup_insert_eq. simpl.
  destruct (String.eqb_spec (json_dumps response) "") as [?|_]; [done|].
  simpl. by rewrite Hcodec.
Qed.

End QueryCacheProperties.

Lemma cache_hit_witness :
  QueryProcessor.process_query (lib := decoding_library) (be := stub_backend)
    default_settings "q" 5 2 10
    (set_cache_client
       (Some (mk_redis {["query_response:v2:q" := ("true", 60)]} true))
       stub_world)
  = (Ok (JBool true),
     set_logs [(INFO, "Cache hit for query")]
       (set_cache_client
          (Some (mk_redis {["query_response:v2:q" := ("true", 60)]} true))
          stub_world)).
Proof.
  apply (cache_hit_ignores_search_and_paging (lib := decoding_library)
           (be := stub_backend) default_settings "q" 5 2 10
           (set_cache_client
              (Some (mk_redis {["query_response:v2:q" := ("true", 60)]} true))
              stub_world)
           (JBool true)); reflexivity.
Defined.

Lemma query_answers_need_a_writable_cache_witness :
  NO_MATCH_RESPONSE = NO_MATCH_RESPONSE
  ∨ (cached_response (lib := stub_library)
       (set_cache_client (Some (mk_redis ∅ false)) stub_world)
       (QueryProcessor._get_cache_key (lib := stub_library) "q")
     = Some NO_MATCH_RESPONSE
     ∧ truthy NO_MATCH_RESPONSE = true).
Proof.
  apply (query_answers_need_a_writable_cache (lib := stub_library)
           (be := stub_backend) default_settings "q" 5 1 10
           (set_cache_client (Some (mk_redis ∅ false)) stub_world)
           (mk_redis ∅ false) NO_MATCH_RESPONSE);
    [reflexivity|by left|reflexivity].
Defined.

Lemma answered_query_is_served_from_cache_witness :
  QueryProcessor.process_query (lib := decoding_library) (be := stub_backend)
    default_settings "q" 3 2 1
    (set_logs [(INFO, "Cache hit for query")]
       (set_cache_client
          (Some (mk_redis {["query_response:v2:q" := ("true", 60)]} true))
          stub_world))
  = (Ok (JBool true),
     set_logs [(INFO, "Cache hit for query"); (INFO, "Cache hit for query")]
       (set_cache_client
          (Some (mk_redis {["query_response:v2:q" := ("true", 60)]} true))
          stub_world)).
Proof.
  exact (answered_query_is_served_from_cache (lib := decoding_library)
           (be := stub_backend) default_settings "q" 5 1 10 3 2 1
           (set_cache_client
              (Some (mk_redis {["query_response:v2:q" := ("true", 60)]} true))
              stub_world)
           (mk_redis {["query_response:v2:q" := ("true", 60)]} true)
           (JBool true)
           (set_logs [(INFO, "Cache hit for query")]
              (set_cache_client
                 (Some (mk_redis {["query_response:v2:q" := ("true", 60)]}
                          true))
                 stub_world))
           eq_refl eq_refl ltac:(done) eq_refl ltac:(done)).
Defined.

(** ** Pagination and the confidence gate, continued *)

Lemma page_items_slice (sources : list Source) (page page_size : Z) :
  page_size ≠ 0 →
  page_items sources page page_size
  = py_slice sources ((page - 1) * page_size)
      ((page - 1) * page_size + page_size).
Proof.
  intros Hsize. unfold page_items, QueryProcessor._paginate_sources.
  destruct (_ >? page_size); [|done].
  by destruct (Z.eqb_spec page_size 0).
Qed.

Lemma pages_up_to (sources : list Source) (page_size : Z) (n : nat) :
  1 ≤ page_size →
  mjoin ((λ k : nat, page_items sources (Z.of_nat k) page_size) <$> seq 1 n)
  = take (n * Z.to_nat page_size) sources.
Proof.
  intros Hsize. induction n as [|n IH]; [done|].
  rewrite seq_S, fmap_app, join_app, IH. simpl. rewrite app_nil_r.
  rewrite page_items_slice by lia.
  rewrite py_slice_nonneg by lia.
  replace (Z.to_nat ((Z.of_nat (S n) - 1) * page_size))
    with (n * Z.to_nat page_size)%nat by nia.
  replace (Z.to_nat ((Z.of_nat (S n) - 1) * page_size + page_size
                     - (Z.of_nat (S n) - 1) * page_size))
    with (Z.to_nat page_size) by lia.
  rewrite take_take_drop. f_equal. lia.
Qed.

(** X23. The pages partition the sources: for a page size of at least
    one, the items of the pages 1, 2, ..., [n], one after the other, are
    the first [n * page_size] sources in their order, and hence all the
    sources as soon as [n] pages can hold them.  No source is lost or
    repeated between pages. *)
Theorem pages_partition_sources
    (sources : list Source) (page_size : Z) (n : nat) :
  1 ≤ page_size →
  mjoin ((λ k : nat, page_items sources (Z.of_nat k) page_size) <$> seq 1 n)
  = take (n * Z.to_nat page_size) sources
  ∧ ((length sources ≤ n * Z.to_nat page_size)%nat →
     mjoin ((λ k : nat, page_items sources (Z.of_nat k) page_size)
              <$> seq 1 n)
     = sources).
Proof.
  intros Hsize. split; [by apply pages_up_to|].
  intros Hall. rewrite pages_up_to by done. by rewrite take_ge.
Qed.

Lemma pages_partition_sources_witness :
  mjoin ((λ k : nat, page_items (scenario_sources true) (Z.of_nat k) 2)
           <$> seq 1 2)
  = scenario_sources true.
Proof.
  apply (pages_partition_sources (scenario_sources true) 2 2); [lia|].
  simpl. lia.
Defined.

(** X24. Pagination outside the range the request model leaves open
    ([page] and [page_size] are plain integers).  A page size of zero
    raises a [ZeroDivisionError] as soon as there is a source, and returns
    the empty page without metadata when there is none.  For a page size
    of at least one, page zero and every page past the last are empty.  A
    page size of [-1] on page one returns all the sources but the last. *)
Theorem paginate_sources_edge_cases (sources : list Source) (page : Z) :
  (sources ≠ [] →
   QueryProcessor._paginate_sources sources page 0
   = Raise (mk_exn ZeroDivisionError "integer division or modulo by zero"))
  ∧ QueryProcessor._paginate_sources [] page 0 = Ok ([], None)
  ∧ (∀ page_size, 1 ≤ page_size → page_items sources 0 page_size = [])
  ∧ (∀ page_size, 1 ≤ page_size →
       Z.of_nat (length sources) ≤ (page - 1) * page_size →
       page_items sources page page_size = [])
  ∧ page_items sources 1 (-1) = take (length sources - 1) sources.
Proof.
  split; [|split; [|split; [|split]]].
  - intros Hsources. unfold QueryProcessor._paginate_sources.
    destruct sources as [|s sources]; [done|].
    destruct (Z.gtb_spec (Z.of_nat (length (s :: sources))) 0) as [_|Hle];
      [done|].
    simpl in Hle. lia.
  - unfold QueryProcessor._paginate_sources, py_slice.
    by rewrite drop_nil, take_nil.
  - intros page_size Hsize. rewrite page_items_slice by lia.
    unfold py_slice, clamp_index.
    destruct (Z.ltb_spec ((0 - 1) * page_size) 0) as [_|?]; [|lia].
    destruct (Z.ltb_spec ((0 - 1) * page_size + page_size) 0) as [?|_]; [lia|].
    replace (Z.to_nat _) with 0%nat by lia. done.
  - intros page_size Hsize Hpast. rewrite page_items_slice by lia.
    rewrite py_slice_nonneg by lia.
    rewrite drop_ge by lia. by rewrite take_nil.
  - rewrite page_items_slice by lia.
    unfold py_slice, clamp_index. simpl.
    rewrite Z.min_l by lia. simpl. f_equal. lia.
Qed.

Lemma filter_and_sublist {A} (P Q : A → bool) (l : list A) :
  sublist (List.filter (λ x, P x && Q x) l) (List.filter Q l).
Proof.
  induction l as [|x l IH]; simpl; [done|].
  destruct (Q x); [|by rewrite andb_false_r].
  rewrite andb_true_r. destruct (P x); by constructor.
Qed.

Lemma filter_filter_same {A} (P : A → bool) (l : list A) :
  List.filter P (List.filter P l) = List.filter P l.
Proof.
  induction l as [|x l IH]; simpl; [done|].
  destruct (P x) eqn:HP; simpl; [|done]. by rewrite HP, IH.
Qed.

(** X25. The confidence gate only removes.  Applying it a second time
    with the same confidence and completeness changes nothing; whatever the
    confidence and the completeness, the sources it keeps are among those
    it keeps for a confident and complete answer, in the same order; and
    every source it keeps has a similarity score of at least 0.15. *)
Theorem filter_sources_only_removes
    (sources : list Source) (confidence : float) (is_complete : bool) :
  let kept := QueryProcessor._filter_sources sources confidence is_complete in
  QueryProcessor._filter_sources kept confidence is_complete = kept
  ∧ sublist kept (QueryProcessor._filter_sources sources 1%float true)
  ∧ ∀ s, s ∈ kept → PrimFloat.leb 0.15%float (src_score s) = true.
Proof.
  cbv zeta. unfold QueryProcessor._filter_sources.
  change (PrimFloat.eqb 1 0) with false.
  change (float_lt 1 0.3) with false. cbv beta iota. simpl negb. simpl orb.
  rewrite !list_comprehension_filter. simpl.
  destruct (PrimFloat.eqb confidence 0).
  { split; [done|]. split; [apply sublist_nil_l|]. intros s Hs.
    by apply elem_of_nil in Hs. }
  destruct (_ || _).
  - rewrite ?list_comprehension_filter. simpl.
    split; [apply filter_filter_same|].
    split; [apply filter_and_sublist|].
    intros s Hs. apply list_elem_of_In, filter_In in Hs as [_ Hs].
    by apply andb_true_iff in Hs as [_ Hs].
  - rewrite ?list_comprehension_filter. simpl.
    split; [apply filter_filter_same|].
    split; [done|].
    intros s Hs. by apply list_elem_of_In, filter_In in Hs as [_ Hs].
Qed.

(** ** Recent metric samples *)

Lemma deque_append_fold {A} (maxlen : nat) (xs : list A) :
  (0 < maxlen)%nat →
  ∀ d, (length d ≤ maxlen)%nat →
  foldl (MetricsTracker.deque_append maxlen) d xs
  = drop (length (d ++ xs) - maxlen) (d ++ xs).
Proof.
  intros Hpos. induction xs as [|x xs IH]; intros d Hd.
  - simpl. rewrite app_nil_r.
    assert (length d - maxlen = 0)%nat as -> by lia. done.
  - simpl. unfold MetricsTracker.deque_append at 2.
    destruct (Nat.eqb_spec maxlen 0) as [?|_]; [lia|].
    destruct (Nat.leb_spec maxlen (length d)) as [Hfull|Hroom].
    + destruct d as [|a d]; [simpl in Hfull; lia|]. simpl in Hd, Hfull.
      simpl. rewrite drop_0.
      rewrite IH by (rewrite length_app; simpl; lia).
      rewrite <- app_assoc. simpl.
      rewrite !length_app. simpl.
      replace (S (length d + S (length xs)) - maxlen)%nat
        with (S (length d + S (length xs) - maxlen)) by lia.
      done.
    + rewrite IH by (rewrite length_app; simpl; lia).
      by rewrite <- app_assoc.
Qed.

(** X26. The tracker keeps the last hundred samples.  After any sequence
    of [add_update_lag_sample] calls on the empty deque, the deque holds
    the samples added, oldest first, without all but the last hundred of
    them; it never holds more than a hundred.  The same holds for
    [add_query_latency_sample]. *)
Theorem metric_samples_keep_last_hundred (samples : list float) :
  let lags :=
    foldl (λ d lag, MetricsTracker.add_update_lag_sample lag d) [] samples in
  let latencies :=
    foldl (λ d latency, MetricsTracker.add_query_latency_sample latency d)
      [] samples in
  lags = drop (length samples - 100) samples
  ∧ (length lags ≤ 100)%nat
  ∧ latencies = lags.
Proof.
  cbv zeta.
  pose proof (deque_append_fold 100 samples ltac:(lia) [] ltac:(simpl; lia))
    as Hfold.
  simpl in Hfold.
  unfold MetricsTracker.add_update_lag_sample,
    MetricsTracker.add_query_latency_sample.
  change (foldl (λ d lag, MetricsTracker.deque_append 100 d lag) [] samples)
    with (foldl (MetricsTracker.deque_append 100) [] samples).
  rewrite Hfold. split; [done|]. split; [|done].
  rewrite length_drop. lia.
Qed.

(** [l[-count:]] for a positive [count]: the last [count] elements. *)
Lemma py_slice_last {A} (l : list A) (count : Z) :
  0 < count →
  py_slice l (- count) (Z.of_nat (length l))
  = drop (length l - Z.to_nat count) l.
Proof.
  intros Hcount. unfold py_slice, clamp_index.
  set (len := Z.of_nat (length l)).
  assert (Hlen : len = Z.of_nat (length l)) by done. clearbody len.
  destruct (Z.ltb_spec len 0) as [?|_]; [lia|].
  rewrite (Z.min_l len len) by lia.
  destruct (Z.ltb_spec (- count) 0) as [_|?]; [|lia].
  replace (Z.to_nat (Z.max 0 (len + - count)))
    with (length l - Z.to_nat count)%nat by lia.
  rewrite take_ge; [done|]. rewrite length_drop. lia.
Qed.

(** X27. [get_update_lag_samples(count)] is [samples[-count:]]: for a
    positive [count] the last [count] samples, oldest first, or all of them
    when there are fewer; for [count = 0] not the empty list but every
    sample held; for a negative [count] the samples without the first
    [-count].  [get_query_latency_samples] is the same function of its
    deque. *)
Theorem get_metric_samples_returns_most_recent
    (count : Z) (samples : list float) :
  (0 < count →
   MetricsTracker.get_update_lag_samples count samples
   = drop (length samples - Z.to_nat count) samples)
  ∧ MetricsTracker.get_update_lag_samples 0 samples = samples
  ∧ (count < 0 →
     MetricsTracker.get_update_lag_samples count samples
     = drop (Z.to_nat (- count)) samples)
  ∧ MetricsTracker.get_query_latency_samples count samples
    = MetricsTracker.get_update_lag_samples count samples.
Proof.
  unfold MetricsTracker.get_update_lag_samples,
    MetricsTracker.get_query_latency_samples.
  split; [by apply py_slice_last|].
  unfold py_slice, clamp_index.
  set (len := Z.of_nat (length samples)).
  assert (Hlen : len = Z.of_nat (length samples)) by done. clearbody len.
  destruct (Z.ltb_spec len 0) as [?|_]; [lia|].
  rewrite (Z.min_l len len) by lia.
  split; [|split].
  - change (- 0) with 0. destruct (Z.ltb_spec 0 0) as [?|_]; [lia|].
    rewrite Z.min_l, Z.sub_0_r by lia. change (Z.to_nat 0) with 0%nat.
    rewrite drop_0, take_ge; [done|lia].
  - intros Hcount. destruct (Z.ltb_spec (- count) 0) as [?|_]; [lia|].
    destruct (Z.le_gt_cases (- count) len).
    + rewrite Z.min_l by lia. rewrite take_ge; [done|].
      rewrite length_drop. lia.
    + rewrite Z.min_r by lia. rewrite !drop_ge by lia. by rewrite take_nil.
  - done.
Qed.

(** ** The cache on the update path, continued *)

Global Instance same_cache_frame {S} : LogBackendFrame (@same_cache S).
Proof.
  split; [split| |]; unfold same_cache.
  - by intros w.
  - intros w1 w2 w3 H12 H23. congruence.
  - by intros l [].
  - by intros s [].
Qed.

Section OnRaise.
Context {W : Type} (R : relation W) `{!PreOrder R}.

Lemma on_raise_of_respects {A} (c : M W A) :
  respects R c → respects_on_raise R c.
Proof. intros Hc w _. apply Hc. Qed.

Lemma on_raise_bind {A B} (c : M W A) (k : A → M W B) :
  respects R c → (∀ a, respects_on_raise R (k a)) →
  respects_on_raise R (bind c k).
Proof.
  intros Hc Hk w. unfold bind. specialize (Hc w).
  destruct (c w) as [[a|e] w']; simpl in *; [|done].
  intros Hraise. etrans; [exact Hc|by apply Hk].
Qed.

Lemma on_raise_try_except {A} (c : M W A) (classes : list exn_class)
    (handler : exn → M W A) :
  respects_on_raise R c → (∀ e, respects R (handler e)) →
  respects_on_raise R (try_except c classes handler).
Proof.
  intros Hc Hh w. unfold try_except. specialize (Hc w).
  destruct (c w) as [[a|e] w']; simpl in *; [done|].
  destruct (isinstance e classes); [|done].
  intros _. etrans; [by apply Hc|apply Hh].
Qed.

End OnRaise.

Section UpdatePathCache.
Context {S : Type} {lib : Library} {be : Backend S}.
Variable settings : Settings.
Implicit Types w : World S.

Lemma respects_retry_same_cache {T} (func : M (World S) T)
    (exceptions : list exn_class) :
  respects same_cache func →
  respects same_cache
    (retry_with_backoff settings func None None None exceptions).
Proof.
  intros Hfunc. apply (respects_retry_with_backoff same_cache);
    [apply respects_world_sleep; apply _|apply respects_world_log; apply _
    |done].
Qed.

Lemma delete_then_log_returns (key message : string) w :
  (let! _ := CacheService.delete key in logger INFO message) w
  = (Ok (),
     set_logs (logs w ++ [(INFO, message)])
       (set_cache_client (cache_without key (cache_client w)) w)).
Proof.
  unfold bind, CacheService.delete, CacheService.redis_delete, cache_without,
    logger, modify.
  destruct w as [u e [client|] v p l b]; simpl; [|done].
  by destruct (redis_reachable client).
Qed.

Lemma create_or_update_body_on_raise event document_id content version :
  respects_on_raise same_cache
    (EventProcessor.create_or_update_body settings event document_id content
       version).
Proof.
  unfold EventProcessor.create_or_update_body.
  apply (on_raise_bind same_cache).
  { destruct content;
      by (apply (respects_ret same_cache)
          || apply (respects_raise same_cache)). }
  intros [|chunk chunks].
  { apply (on_raise_of_respects same_cache), (respects_logger same_cache). }
  apply (on_raise_bind same_cache).
  { apply respects_retry_same_cache,
      (respects_generate_embeddings same_cache). }
  intros embeddings. apply (on_raise_bind same_cache).
  { apply respects_retry_same_cache, (respects_upsert_chunks same_cache). }
  intros _. apply (on_raise_bind same_cache);
    [apply (respects_call same_cache)|intros _].
  apply (on_raise_bind same_cache);
    [apply (respects_call same_cache)|intros _].
  apply (on_raise_bind same_cache);
    [apply (respects_call same_cache)|intros _].
  intros w. by rewrite delete_then_log_returns.
Qed.

Lemma dispatch_on_raise event :
  respects_on_raise same_cache (dispatch settings event).
Proof.
  unfold dispatch. destruct (String.eqb (op event) "d").
  { apply (on_raise_of_respects same_cache),
      (respects_handle_delete same_cache). }
  destruct (_ || _);
    [|apply (on_raise_of_respects same_cache), (respects_logger same_cache)].
  unfold EventProcessor._handle_create_or_update.
  destruct (after event) as [[|field fields]|];
    try apply (on_raise_of_respects same_cache), (respects_logger same_cache).
  destruct (_ || _);
    [apply (on_raise_of_respects same_cache), (respects_logger same_cache)|].
  apply (on_raise_try_except same_cache);
    [apply create_or_update_body_on_raise|].
  intros e. apply (respects_bind same_cache);
    [apply (respects_logger same_cache)|intros _].
  apply (respects_raise same_cache).
Qed.

(** X28. An event that fails leaves the cache as it was.  Whenever
    [process_event] raises (the payload does not validate, the identifier
    of a delete is malformed, the embedding or the upsert fails after the
    retries, the lag cannot be computed), the cache client and every entry
    of the cache are the same afterwards: the invalidation runs only after
    everything that can fail has succeeded. *)
Theorem failed_event_leaves_cache_untouched (event_data : pydict) w :
  is_raise (EventProcessor.process_event settings event_data w).1 = true →
  cache_client (EventProcessor.process_event settings event_data w).2
  = cache_client w.
Proof.
  rewrite process_event_cases.
  assert (Hparse : same_cache w (EventProcessor._parse_event event_data w).2).
  { rewrite parse_event_cases.
    by destruct (document_fields event_data). }
  destruct (EventProcessor._parse_event event_data w) as [[[event|]|e] w0];
    simpl in *; [|done|].
  - pose proof (dispatch_on_raise event
                  (set_updates_total (updates_total w0 + 1) w0)) as Hdispatch.
    destruct (dispatch settings event _) as [[[]|e] w1]; simpl in *; [done|].
    intros _. unfold same_cache in *. rewrite Hdispatch by done. done.
  - intros _. exact Hparse.
Qed.

Lemma create_or_update_body_success
    event (document_id : json) (text : string) (version : json) w w' :
  split_text text ≠ [] →
  EventProcessor.create_or_update_body settings event document_id (JStr text)
    version w = (Ok (), w') →
  cache_client w'
  = cache_without ("query:" +:+ py_str document_id) (cache_client w).
Proof.
  intros Hchunks. unfold EventProcessor.create_or_update_body.
  unfold bind at 1, ret at 1.
  destruct (ChunkingService.chunk_document text (py_str document_id))
    as [|chunk chunks] eqn:Hsplit.
  { apply (f_equal length) in Hsplit. rewrite chunk_document_spec in Hsplit.
    rewrite length_zip_with, length_seq in Hsplit.
    destruct (split_text text); [done|]. simpl in Hsplit. lia. }
  unfold bind at 1.
  lazymatch goal with
  | |- context [retry_with_backoff settings ?f None None None ?ex w] =>
      pose proof (respects_retry_same_cache f ex
                    (respects_generate_embeddings same_cache _) w) as H1;
      destruct (retry_with_backoff settings f None None None ex w)
        as [[embeddings|e] w1]; [|done]
  end.
  unfold bind at 1.
  lazymatch goal with
  | |- context [retry_with_backoff settings ?f None None None ?ex w1] =>
      pose proof (respects_retry_same_cache f ex
                    (respects_upsert_chunks same_cache _ _ _ _) w1) as H2;
      destruct (retry_with_backoff settings f None None None ex w1)
        as [[[]|e] w2]; [|done]
  end.
  unfold bind at 1.
  lazymatch goal with
  | |- context [call ?c w2] =>
      pose proof (respects_call same_cache c w2) as H3;
      destruct (call c w2) as [[[]|e] w3]; [|done]
  end.
  unfold bind at 1.
  lazymatch goal with
  | |- context [call ?c w3] =>
      pose proof (respects_call same_cache c w3) as H4;
      destruct (call c w3) as [[[]|e] w4]; [|done]
  end.
  unfold bind at 1.
  lazymatch goal with
  | |- context [call ?c w4] =>
      pose proof (respects_call same_cache c w4) as H5;
      destruct (call c w4) as [[[]|e] w5]; [|done]
  end.
  rewrite delete_then_log_returns. intros [= <-]. simpl.
  unfold same_cache in *. simpl in *. congruence.
Qed.

(** X29. A create or update that succeeds evicts the document's key.
    When [process_event] returns normally for a create or update event
    with a truthy [id] and a non-empty text [content] that the splitter
    cuts into at least one chunk, the cache afterwards is the cache before
    with ["query:{id}"] deleted (if the server can be reached) and nothing
    else changed. *)
Theorem successful_update_evicts_document_key
    (event_data : pydict) w (event : DocumentEvent) (text : string) :
  (EventProcessor._parse_event event_data w).1 = Ok (Some event) →
  op event = "c" ∨ op event = "u" →
  truthy_opt (dict_get "id" event_data) = true →
  dict_get "content" event_data = Some (JStr text) →
  text ≠ "" →
  split_text text ≠ [] →
  (EventProcessor.process_event settings event_data w).1 = Ok () →
  cache_client (EventProcessor.process_event settings event_data w).2
  = cache_without (invalidation_key event_data) (cache_client w).
Proof.
  intros Hparse Hop Hid Hcontent Htext Hchunks.
  rewrite process_event_cases.
  destruct (parse_event_sides event_data w event Hparse)
    as (Hw & _ & _ & Hafter).
  pose proof (parse_event_cases event_data w) as Hcases. cbv zeta in Hcases.
  rewrite Hcases in Hparse.
  destruct (EventProcessor._parse_event event_data w) as [parsed w0].
  simpl in Hw. subst w0.
  destruct (document_fields event_data) as [|field fields] eqn:Hfields;
    [done|].
  simpl in Hparse.
  destruct (EventProcessor.make_event _ _ _ _) as [event'|]; [|done].
  injection Hparse as ->. injection Hcases as ->.
  assert (Hroute : dispatch settings event
                   = EventProcessor._handle_create_or_update settings event).
  { unfold dispatch. by destruct Hop as [-> | ->]. }
  rewrite Hroute. unfold EventProcessor._handle_create_or_update.
  assert (Hside : after event = Some (field :: fields)).
  { rewrite Hafter. by destruct Hop as [-> | ->]. }
  rewrite Hside. cbv beta iota.
  unfold dict_get_default, invalidation_key. rewrite <- Hfields.
  rewrite !dict_get_document_fields by done.
  rewrite Hid, Hcontent. cbn [truthy negb orb].
  destruct (String.eqb_spec text "") as [?|_]; [done|]. cbn [negb].
  unfold try_except.
  destruct (EventProcessor.create_or_update_body _ _ _ _ _ _)
    as [[[]|e] w1] eqn:Hbody.
  - intros _. simpl.
    apply create_or_update_body_success in Hbody; [|done].
    rewrite Hbody. done.
  - rewrite isinstance_exception. simpl. done.
Qed.

End UpdatePathCache.

Lemma failed_event_leaves_cache_untouched_witness :
  cache_client
    (EventProcessor.process_event (lib := stub_library)
       (be := failing_embeddings_backend) default_settings
       [("id", JStr "11111111-1111-1111-1111-111111111111");
        ("content", JStr "RAG stands for Retrieval-Augmented Generation.")]
       failing_embeddings_world).2
  = Some (mk_redis ∅ true).
Proof.
  apply (failed_event_leaves_cache_untouched (lib := stub_library)
           (be := failing_embeddings_backend) default_settings
           [("id", JStr "11111111-1111-1111-1111-111111111111");
            ("content",
             JStr "RAG stands for Retrieval-Augmented Generation.")]
           failing_embeddings_world).
  reflexivity.
Defined.

Lemma successful_update_evicts_document_key_witness :
  cache_client
    (EventProcessor.process_event (lib := stub_library) (be := stub_backend)
       default_settings
       [("id", JStr "d1"); ("content", JStr "text")]
       (set_cache_client
          (Some (mk_redis {["query:d1" := ("{}", 60)]} true)) stub_world)).2
  = cache_without "query:d1"
      (Some (mk_redis {["query:d1" := ("{}", 60)]} true)).
Proof.
  apply (successful_update_evicts_document_key (lib := stub_library)
           (be := stub_backend) default_settings
           [("id", JStr "d1"); ("content", JStr "text")]
           (set_cache_client
              (Some (mk_redis {["query:d1" := ("{}", 60)]} true)) stub_world)
           (mk_event "c" None
              (Some [("id", JStr "d1"); ("content", JStr "text")])
              (Some []) (Some 1700000000000))
           "text");
    [reflexivity|by left|reflexivity|reflexivity|done|done|reflexivity].
Defined.

(** ** Recent pipeline activity *)

Lemma last_ten_app {A} (l m : list A) :
  drop (length (drop (length l - 10) l ++ m) - 10)
       (drop (length l - 10) l ++ m)
  = drop (length (l ++ m) - 10) (l ++ m).
Proof.
  rewrite !length_app, length_drop.
  destruct (Nat.le_gt_cases (length l) 10) as [Hshort|Hlong].
  - replace (length l - 10)%nat with 0%nat by lia. rewrite drop_0.
    f_equal. lia.
  - replace (length l - (length l - 10) + length m - 10)%nat
      with (length m) by lia.
    replace (length l + length m - 10)%nat
      with ((length l - 10) + length m)%nat by lia.
    rewrite <- drop_drop. rewrite (drop_app_le l m) by lia. done.
Qed.

Section PipelineProperties.
Variable sum_values : list (string * float) → json.

Lemma update_pipeline_activity_recent latencies document_id now activity :
  recent_updates
    (PipelineTracker.update_pipeline_activity sum_values latencies document_id
       now activity)
  = let appended :=
      recent_updates activity
      ++ option_list (pipeline_entry sum_values (latencies, document_id, now))
    in
    match pipeline_entry sum_values (latencies, document_id, now) with
    | Some _ => drop (length appended - 10) appended
    | None => recent_updates activity
    end.
Proof.
  unfold PipelineTracker.update_pipeline_activity, pipeline_entry.
  destruct document_id as [document_id|]; [|done].
  destruct (negb _); [|done]. cbn [recent_updates option_list].
  change (-10) with (Z.opp 10).
  by rewrite py_slice_last by lia.
Qed.

Lemma pipeline_updates_fold calls : ∀ activity,
  (length (recent_updates activity) ≤ 10)%nat →
  recent_updates
    (foldl (λ a '(latencies, document_id, now),
              PipelineTracker.update_pipeline_activity sum_values latencies
                document_id now a)
       activity calls)
  = drop (length (recent_updates activity
                  ++ omap (pipeline_entry sum_values) calls) - 10)
         (recent_updates activity ++ omap (pipeline_entry sum_values) calls).
Proof.
  induction calls as [|[[latencies document_id] now] calls IH];
    intros activity Hbound.
  - simpl. rewrite app_nil_r.
    assert (length (recent_updates activity) - 10 = 0)%nat as -> by lia.
    done.
  - cbn [foldl omap list_omap].
    pose proof (update_pipeline_activity_recent latencies document_id now
                  activity) as Hstep.
    cbv zeta in Hstep.
    rewrite IH.
    + rewrite Hstep.
      destruct (pipeline_entry sum_values (latencies, document_id, now))
        as [entry|]; simpl; [|done].
      rewrite last_ten_app, <- app_assoc. done.
    + rewrite Hstep.
      destruct (pipeline_entry sum_values (latencies, document_id, now));
        [|done].
      rewrite length_drop. lia.
Qed.

(** X30. The tracker keeps the last ten updates.  After any sequence of
    [update_pipeline_activity] calls on the initial dictionary,
    [recent_updates] holds the entries of the calls that carried a
    non-empty document identifier, oldest first, without all but the last
    ten of them; it never holds more than ten, and
    [get_pipeline_status] reports their number. *)
Theorem pipeline_recent_updates_keep_last_ten
    (calls : list (list (string * float) * option string * string)) :
  let activity :=
    foldl (λ a '(latencies, document_id, now),
             PipelineTracker.update_pipeline_activity sum_values latencies
               document_id now a)
      PipelineTracker.pipeline_activity calls in
  let entries := omap (pipeline_entry sum_values) calls in
  recent_updates activity = drop (length entries - 10) entries
  ∧ (length (recent_updates activity) ≤ 10)%nat
  ∧ dict_get "recent_updates_count"
      (match PipelineTracker.get_pipeline_status sum_values activity with
       | JObj fields => fields
       | _ => []
       end)
    = Some (JInt (Z.of_nat (Nat.min 10 (length entries)))).
Proof.
  cbv zeta.
  pose proof (pipeline_updates_fold calls PipelineTracker.pipeline_activity
                ltac:(simpl; lia)) as Hfold.
  change (recent_updates PipelineTracker.pipeline_activity)
    with (@nil PipelineUpdate) in Hfold.
  rewrite !app_nil_l in Hfold.
  set (activity := foldl _ PipelineTracker.pipeline_activity calls) in *.
  set (entries := omap (pipeline_entry sum_values) calls) in *.
  change (dict_get "recent_updates_count" _)
    with (Some (JInt (Z.of_nat (length (recent_updates activity))))).
  rewrite Hfold, length_drop.
  split; [done|]. split; [lia|]. do 2 f_equal. lia.
Qed.

End PipelineProperties.
